(** * Account service of the video-sharing backend

    A shallow embedding of the user controllers
    ([backend/src/controllers/user.controllers.js]), the user model
    ([backend/src/models/user.models.js]) and the Cloudinary helpers
    ([utils/cloudinary.js]), together with the properties of the
    authentication and media-replacement flows.

    Controllers are [async] JavaScript functions that read and write the
    users collection, the local disk and remote services, and that may
    throw.  They are embedded as state-passing functions over a [World]
    whose result is either a value or a thrown error; a thrown error
    keeps every effect performed before it, as in JavaScript.  The
    result of a controller is what its [asyncHandler] wrapper receives:
    the response it built, or the error it threw. *)

From Stdlib Require Import ZArith String Ascii List Bool Lia.
From stdpp Require Import base option strings gmap list.
Import ListNotations.
Open Scope string_scope.

(** ** JavaScript strings and truthiness *)

Module Js.

(** [String.prototype.toLowerCase] on the ASCII range. *)
Definition lower_ascii (c : ascii) : ascii :=
  let n := nat_of_ascii c in
  if (65 <=? n)%nat && (n <=? 90)%nat then ascii_of_nat (n + 32) else c.

Fixpoint toLowerCase (s : string) : string :=
  match s with
  | EmptyString => EmptyString
  | String c r => String (lower_ascii c) (toLowerCase r)
  end.

(** White space removed by [String.prototype.trim]: tab, line feed,
    vertical tab, form feed, carriage return and space. *)
Definition is_space (c : ascii) : bool :=
  let n := nat_of_ascii c in
  ((9 <=? n)%nat && (n <=? 13)%nat) || (n =? 32)%nat.

Fixpoint trimStart (s : string) : string :=
  match s with
  | String c r => if is_space c then trimStart r else s
  | EmptyString => EmptyString
  end.

Fixpoint trimEnd (s : string) : string :=
  match s with
  | EmptyString => EmptyString
  | String c r =>
      match trimEnd r with
      | EmptyString => if is_space c then EmptyString else String c EmptyString
      | r' => String c r'
      end
  end.

Definition trim (s : string) : string := trimEnd (trimStart s).

(** A request field is a string or [undefined] ([None]).  [!x] is true
    for [undefined] and for the empty string. *)
Definition truthy (x : option string) : bool :=
  match x with
  | Some s => negb (s =? "")
  | None => false
  end.

(** [a || b] on possibly undefined strings. *)
Definition or_else (a b : option string) : option string :=
  if truthy a then a else b.

(** [field?.trim() === ""] *)
Definition blank (field : option string) : bool :=
  match field with
  | Some s => trim s =? ""
  | None => false
  end.

End Js.

(** ** Errors *)

(** Modelled from the spec: [utils/ApiError.js] is not among the sources;
    section 7 gives the application's error as one structured error
    carrying a status code and a message, which is how the controllers
    construct it, [new ApiError(statusCode, message)].

    Besides an [ApiError] a controller can throw a [TypeError] of the
    JavaScript runtime, or an error raised inside one of the libraries
    (fs, jsonwebtoken, mongoose). *)
Inductive JsError : Type :=
| ApiError (statusCode : Z) (message : string)
| TypeError (message : string)
| LibError (name message : string).

Definition error_message (e : JsError) : string :=
  match e with
  | ApiError _ m => m
  | TypeError m => m
  | LibError _ m => m
  end.

(** Modelled from the spec: the error taxonomy of section 7, which the
    code does not name; an [ApiError] belongs to a class by its status
    code. *)
Inductive ErrorClass : Type :=
| ValidationError | UnauthorizedError | NotFoundError | ConflictError
| InternalError.

Definition class_status (c : ErrorClass) : Z :=
  match c with
  | ValidationError => 400
  | UnauthorizedError => 401
  | NotFoundError => 404
  | ConflictError => 409
  | InternalError => 500
  end.

(** ** Data model *)

(** A document of the users collection, after [userSchema].  Paths that
    the schema does not require are optional. *)
Record User : Type := mkUser {
  _id : nat;
  username : string;
  email : string;
  fullName : string;
  avatar : string;
  avatarId : option string;
  coverImage : option string;
  coverImageId : option string;
  watchHistory : list nat;
  password : string;
  refreshToken : option string;
}.

(** The response object of [cloudinary.v2.uploader.upload]. *)
Record Asset : Type := mkAsset {
  url : string;
  public_id : string;
}.

(** Calls that leave the process, in the order they were made. *)
Inductive Event : Type :=
| EvUpload (path : string)
| EvDestroy (publicId : string)
| EvUnlink (path : string)
| EvDbWrite (id : nat).

Global Instance Event_eq_dec : EqDecision Event.
Proof. solve_decision. Defined.

Record World : Type := mkWorld {
  users : list User;       (* the users collection, in insertion order *)
  disk : gset string;      (* temporary files on the local disk *)
  trace : list Event;      (* external calls made so far, oldest first *)
  now : nat;               (* the clock read by the token library *)
}.

Definition with_users (us : list User) (w : World) : World :=
  mkWorld us (disk w) (trace w) (now w).

Definition with_disk (d : gset string) (w : World) : World :=
  mkWorld (users w) d (trace w) (now w).

Definition log (e : Event) (w : World) : World :=
  mkWorld (users w) (disk w) (trace w ++ [e]) (now w).

(** ** The monad of controllers *)

Inductive Completion (A : Type) : Type :=
| Normal (a : A)
| Thrown (e : JsError).
Arguments Normal {A} a.
Arguments Thrown {A} e.

Definition Async (A : Type) : Type := World -> Completion A * World.

Definition ret {A} (a : A) : Async A := fun w => (Normal a, w).

Definition throw {A} (e : JsError) : Async A := fun w => (Thrown e, w).

Definition bind {A B} (c : Async A) (k : A -> Async B) : Async B :=
  fun w =>
    match c w with
    | (Normal a, w') => k a w'
    | (Thrown e, w') => (Thrown e, w')
    end.

(** [try { body } catch (error) { handler }] *)
Definition try_catch {A} (body : Async A) (handler : JsError -> Async A)
  : Async A :=
  fun w =>
    match body w with
    | (Normal a, w') => (Normal a, w')
    | (Thrown e, w') => handler e w'
    end.

Notation "'let*' x ':=' c 'in' k" := (bind c (fun x => k))
  (at level 10, x name, c at level 100, k at level 200).
Notation "c ';;;' k" := (bind c (fun _ => k))
  (at level 100, k at level 200, right associativity).

(** ** External collaborators *)

(** The claims decoded from a token: only [_id] is read back. *)
Record Payload : Type := mkPayload {
  claim_id : option nat;
  claim_email : option string;
  claim_username : option string;
  claim_fullName : option string;
}.

(** Libraries and services the controllers call.  Nothing is assumed
    about them beyond their types; a remote call may depend on the whole
    world in which it is made.
    - [cloudinary_upload w path]: the uploaded asset, or [None] when the
      promise rejects;
    - [cloudinary_destroy w id]: the response object ([result] is "ok",
      "not found", ...), or [None] when the promise rejects;
    - [jwt_sign now payload secret expiresIn];
    - [jwt_decode token secret]: the payload of a token whose signature
      is good, or the message of the error thrown; [jwt_expired now
      token]: whether the token is past its expiry at time [now];
    - [omitUndefined]: whether mongoose drops the keys of an update whose
      value is [undefined] (an option of mongoose 5, off by default, in
      which case the key is written as [null]; later versions always
      drop them). *)
Record Collaborators : Type := mkCollaborators {
  cloudinary_upload : World -> string -> option Asset;
  cloudinary_destroy : World -> string -> option string;
  jwt_sign : nat -> Payload -> string -> string -> string;
  jwt_decode : string -> string -> string + Payload;
  jwt_expired : nat -> string -> bool;
  bcrypt_hash : string -> nat -> string;
  bcrypt_compare : string -> string -> bool;
  validator_isEmail : string -> bool;
  validator_isLowercase : string -> bool;
  omitUndefined : bool;
  ACCESS_TOKEN_SECRET : string;
  ACCESS_TOKEN_EXPIRY : string;
  REFRESH_TOKEN_SECRET : string;
  REFRESH_TOKEN_EXPIRY : string;
}.

(** What [jwt.verify(token, secret)] answers at time [t]: the signature
    is checked and the payload decoded, then the expiry is checked. *)
Definition jwt_verify (ext : Collaborators) (t : nat) (token secret : string)
  : string + Payload :=
  match jwt_decode ext token secret with
  | inr decoded =>
      if jwt_expired ext t token then inl "jwt expired" else inr decoded
  | inl msg => inl msg
  end.

(** ** utils/cloudinary.js *)

Section Cloudinary.

Variable ext : Collaborators.

(** [fs.unlinkSync(path)]: removes the file, throws when there is
    none. *)
Definition unlinkSync (path : option string) : Async unit :=
  match path with
  | None =>
      throw (TypeError "The path argument must be of type string")
  | Some p =>
      fun w =>
        if bool_decide (p ∈ disk w)
        then (Normal tt, log (EvUnlink p) (with_disk (disk w ∖ {[p]}) w))
        else (Thrown (LibError "Error" "ENOENT: no such file or directory"),
              log (EvUnlink p) w)
  end.

(** [await cloudinary.v2.uploader.upload(path, ...)] *)
Definition uploader_upload (p : string) : Async Asset :=
  fun w =>
    match cloudinary_upload ext w p with
    | Some response => (Normal response, log (EvUpload p) w)
    | None => (Thrown (LibError "Error" "upload failed"), log (EvUpload p) w)
    end.

(** [await cloudinary.v2.uploader.destroy(publicId, ...)] *)
Definition uploader_destroy (publicId : string) : Async string :=
  fun w =>
    match cloudinary_destroy ext w publicId with
    | Some response => (Normal response, log (EvDestroy publicId) w)
    | None =>
        (Thrown (LibError "Error" "destroy failed"), log (EvDestroy publicId) w)
    end.

Definition uploadOnCloudinary (localFilePath : option string)
  : Async (option Asset) :=
  try_catch
    (match localFilePath with
     | Some p =>
         if negb (Js.truthy localFilePath) then ret None
         else
           let* response := uploader_upload p in
           unlinkSync localFilePath ;;;
           ret (Some response)
     | None => ret None
     end)
    (fun error => unlinkSync localFilePath ;;; ret None).

(** The earlier revision of [uploadOnCloudinary] kept among the sources:
    the temporary file is unlinked in the [catch] block only. *)
Definition earlier_uploadOnCloudinary (localFilePath : option string)
  : Async (option Asset) :=
  try_catch
    (match localFilePath with
     | Some p =>
         if negb (Js.truthy localFilePath) then ret None
         else
           let* response := uploader_upload p in
           ret (Some response)
     | None => ret None
     end)
    (fun error => unlinkSync localFilePath ;;; ret None).

Definition deleteOnCloudinary (publicId : option string)
  : Async (option string) :=
  try_catch
    (match publicId with
     | Some i =>
         if negb (Js.truthy publicId) then ret None
         else
           let* response := uploader_destroy i in
           ret (Some response)
     | None => ret None
     end)
    (fun error => ret None).

End Cloudinary.

(** ** models/user.models.js and the mongoose queries the controllers use *)

(** A value of a document sent to the client. *)
Inductive JsValue : Type :=
| JStr (s : string)
| JId (n : nat)
| JIds (l : list nat).

Definition put_optional (k : string) (v : option string)
    (d : gmap string JsValue) : gmap string JsValue :=
  match v with
  | Some s => <[k := JStr s]> d
  | None => d
  end.

(** The plain object of a document: a path that holds no value is
    absent. *)
Definition toObject (u : User) : gmap string JsValue :=
  put_optional "refreshToken" (refreshToken u)
    (put_optional "coverImageId" (coverImageId u)
      (put_optional "coverImage" (coverImage u)
        (put_optional "avatarId" (avatarId u)
          (<["_id" := JId (_id u)]>
            (<["username" := JStr (username u)]>
              (<["email" := JStr (email u)]>
                (<["fullName" := JStr (fullName u)]>
                  (<["avatar" := JStr (avatar u)]>
                    (<["watchHistory" := JIds (watchHistory u)]>
                      (<["password" := JStr (password u)]> ∅)))))))))).

(** [.select("-a -b ...")]: the document without the excluded paths. *)
Definition select (excluded : list string) (d : gmap string JsValue)
  : gmap string JsValue :=
  filter (fun kv => kv.1 ∉ excluded) d.

Definition set_refreshToken (t : option string) (u : User) : User :=
  mkUser (_id u) (username u) (email u) (fullName u) (avatar u) (avatarId u)
    (coverImage u) (coverImageId u) (watchHistory u) (password u) t.

Definition set_password (p : string) (u : User) : User :=
  mkUser (_id u) (username u) (email u) (fullName u) (avatar u) (avatarId u)
    (coverImage u) (coverImageId u) (watchHistory u) p (refreshToken u).

(** One key of a [$set] update, as the controllers write them.  Only
    [refreshToken] is ever given the value [undefined]. *)
Inductive SetField : Type :=
| Set_refreshToken (v : option string)
| Set_fullName (v : string)
| Set_email (v : string)
| Set_avatar (v : string)
| Set_avatarId (v : string)
| Set_coverImage (v : string)
| Set_coverImageId (v : string).

Definition is_undefined (s : SetField) : bool :=
  match s with
  | Set_refreshToken None => true
  | _ => false
  end.

(** The schema's setters run on the values of an update: [trim] on
    [fullName], [trim] and [lowercase] on [email]. *)
Definition apply_set (u : User) (s : SetField) : User :=
  match s with
  | Set_refreshToken v => set_refreshToken v u
  | Set_fullName v =>
      mkUser (_id u) (username u) (email u) (Js.trim v) (avatar u)
        (avatarId u) (coverImage u) (coverImageId u) (watchHistory u)
        (password u) (refreshToken u)
  | Set_email v =>
      mkUser (_id u) (username u) (Js.toLowerCase (Js.trim v)) (fullName u)
        (avatar u) (avatarId u) (coverImage u) (coverImageId u)
        (watchHistory u) (password u) (refreshToken u)
  | Set_avatar v =>
      mkUser (_id u) (username u) (email u) (fullName u) v (avatarId u)
        (coverImage u) (coverImageId u) (watchHistory u) (password u)
        (refreshToken u)
  | Set_avatarId v =>
      mkUser (_id u) (username u) (email u) (fullName u) (avatar u) (Some v)
        (coverImage u) (coverImageId u) (watchHistory u) (password u)
        (refreshToken u)
  | Set_coverImage v =>
      mkUser (_id u) (username u) (email u) (fullName u) (avatar u)
        (avatarId u) (Some v) (coverImageId u) (watchHistory u) (password u)
        (refreshToken u)
  | Set_coverImageId v =>
      mkUser (_id u) (username u) (email u) (fullName u) (avatar u)
        (avatarId u) (coverImage u) (Some v) (watchHistory u) (password u)
        (refreshToken u)
  end.

(** Replaces the first document with the given [_id]. *)
Fixpoint replace_doc (id : nat) (d : User) (us : list User) : list User :=
  match us with
  | [] => []
  | u :: r => if (_id u =? id)%nat then d :: r else u :: replace_doc id d r
  end.

Definition fresh_id (us : list User) : nat :=
  S (list_max (map _id us)).

(** The [required] validator of a String path rejects [undefined] and
    the empty string. *)
Definition required (v : option string) : option string :=
  match v with
  | Some s => if s =? "" then None else Some s
  | None => None
  end.

(** Query conditions [{ path: value }]; an undefined value matches no
    document, every document holding its required paths. *)
Definition matches (q : option string) (v : string) : bool :=
  match q with
  | Some s => s =? v
  | None => false
  end.

(** The fields handed to [User.create] by [registerUser]. *)
Record NewUser : Type := mkNewUser {
  new_fullName : option string;
  new_avatar : string;
  new_avatarId : string;
  new_coverImage : string;
  new_coverImageId : string;
  new_username : string;
  new_email : option string;
  new_password : option string;
}.

Section Store.

Variable ext : Collaborators.

(** [userSchema.pre("save")]: the password is hashed when it was
    modified, and only then. *)
Definition pre_save (modifiedPaths : list string) (u : User) : User :=
  if bool_decide ("password" ∈ modifiedPaths)
  then set_password (bcrypt_hash ext (password u) 10) u
  else u.

(** [userSchema.methods.isPasswordCorrect] *)
Definition isPasswordCorrect (u : User) (plain : option string)
  : Async bool :=
  match plain with
  | Some p => ret (bcrypt_compare ext p (password u))
  | None => throw (LibError "Error" "data and hash arguments required")
  end.

(** [User.findById(id)]; [findById(undefined)] finds nothing. *)
Definition findById (id : option nat) : Async (option User) :=
  fun w =>
    (Normal match id with
            | Some i => List.find (fun u => (_id u =? i)%nat) (users w)
            | None => None
            end, w).

Definition findById_select (id : option nat) (excluded : list string)
  : Async (option (gmap string JsValue)) :=
  let* u := findById id in
  ret (select excluded ∘ toObject <$> u).

(** [User.findOne({ $or: [{ username }, { email }] })] *)
Definition findOne_or (uname mail : option string)
  : Async (option User) :=
  fun w =>
    (Normal (List.find
               (fun u => matches uname (username u) || matches mail (email u))
               (users w)), w).

(** [User.create(fields)]: setters, validation of the required paths,
    the [pre("save")] hook, then the insertion, which the unique
    indexes on [username] and [email] may refuse. *)
Definition create (f : NewUser) : Async User :=
  fun w =>
    match required (Js.trim <$> new_fullName f),
          required (Js.toLowerCase ∘ Js.trim <$> new_email f),
          required (Some (Js.toLowerCase (Js.trim (new_username f)))),
          required (Some (new_avatar f)),
          required (new_password f) with
    | Some fn, Some em, Some un, Some av, Some pw =>
        let doc :=
          pre_save ["password"]
            (mkUser (fresh_id (users w)) un em fn av (Some (new_avatarId f))
               (Some (new_coverImage f)) (Some (new_coverImageId f)) [] pw
               None) in
        if existsb (fun u => (username u =? un) || (email u =? em)) (users w)
        then (Thrown (LibError "MongoServerError" "E11000 duplicate key error"),
              w)
        else (Normal doc,
              log (EvDbWrite (_id doc)) (with_users (users w ++ [doc]) w))
    | _, _, _, _, _ =>
        (Thrown (LibError "ValidationError" "User validation failed"), w)
    end.

(** [doc.save({ validateBeforeSave: false })] with the given modified
    paths: the hook runs and the modified paths are written. *)
Definition write_modified (modifiedPaths : list string) (src dst : User)
  : User :=
  let dst :=
    if bool_decide ("password" ∈ modifiedPaths)
    then set_password (password src) dst else dst in
  if bool_decide ("refreshToken" ∈ modifiedPaths)
  then set_refreshToken (refreshToken src) dst else dst.

Definition save (doc : User) (modifiedPaths : list string) : Async unit :=
  fun w =>
    let doc' := pre_save modifiedPaths doc in
    match List.find (fun u => (_id u =? _id doc)%nat) (users w) with
    | Some stored =>
        (Normal tt,
         log (EvDbWrite (_id doc))
           (with_users
              (replace_doc (_id doc)
                 (write_modified modifiedPaths doc' stored) (users w)) w))
    | None =>
        (Thrown (LibError "DocumentNotFoundError" "No document found"), w)
    end.

(** Casting of an update: keys whose value is [undefined] are dropped
    under [omitUndefined], and written as [null] otherwise. *)
Definition castUpdate (upd : list SetField) : list SetField :=
  if omitUndefined ext
  then List.filter (fun s => negb (is_undefined s)) upd
  else upd.

Definition sets_email (upd : list SetField) : option string :=
  match List.find (fun s => match s with Set_email _ => true | _ => false end)
          upd with
  | Some (Set_email v) => Some (Js.toLowerCase (Js.trim v))
  | _ => None
  end.

(** [User.findByIdAndUpdate(id, { $set: upd }, { new: true })]: the
    updated document, or [null] when there is none with this id. *)
Definition findByIdAndUpdate (id : nat) (upd : list SetField)
  : Async (option User) :=
  fun w =>
    match List.find (fun u => (_id u =? id)%nat) (users w) with
    | None => (Normal None, w)
    | Some stored =>
        let upd' := castUpdate upd in
        let doc := fold_left apply_set upd' stored in
        if existsb
             (fun u => negb (_id u =? id)%nat && matches (sets_email upd') (email u))
             (users w)
        then (Thrown (LibError "MongoServerError" "E11000 duplicate key error"),
              w)
        else (Normal (Some doc),
              log (EvDbWrite id) (with_users (replace_doc id doc (users w)) w))
    end.

(** [userSchema.methods.generateAccessToken], signed at time [t]. *)
Definition signAccessToken (t : nat) (u : User) : string :=
  jwt_sign ext t
    (mkPayload (Some (_id u)) (Some (email u)) (Some (username u))
       (Some (fullName u)))
    (ACCESS_TOKEN_SECRET ext) (ACCESS_TOKEN_EXPIRY ext).

Definition generateAccessToken (u : User) : Async string :=
  fun w => (Normal (signAccessToken (now w) u), w).

(** [userSchema.methods.generateRefreshToken], signed at time [t]. *)
Definition signRefreshToken (t : nat) (u : User) : string :=
  jwt_sign ext t (mkPayload (Some (_id u)) None None None)
    (REFRESH_TOKEN_SECRET ext) (REFRESH_TOKEN_EXPIRY ext).

Definition generateRefreshToken (u : User) : Async string :=
  fun w => (Normal (signRefreshToken (now w) u), w).

End Store.

(** ** Requests and responses *)

Record Body : Type := mkBody {
  body_fullName : option string;
  body_email : option string;
  body_username : option string;
  body_password : option string;
  body_refreshToken : option string;
  body_oldPassword : option string;
  body_newPassword : option string;
}.

(** A file stored by multer; [path] is set by the disk storage only. *)
Record File : Type := mkFile {
  path : option string;
}.

(** [req.files] of [upload.fields]: an array per field that received a
    file, and no key for the others. *)
Record Files : Type := mkFiles {
  files_avatar : option (list File);
  files_coverImage : option (list File);
}.

(** A request to a public route. *)
Record Request : Type := mkRequest {
  req_body : Body;
  req_cookies : option (gmap string string);
  req_files : option Files;
}.

(** Modelled from the spec: [middlewares/auth.middleware.js] is not among
    the sources; the routes of [logoutUser], [changeCurrentPassword] and
    the update controllers run [verifyJWT] first, and by section 4.4 the
    controller then holds the authenticated user's record as it was
    read before the controller runs ([req.user]). *)
Record AuthRequest : Type := mkAuthRequest {
  auth_user : User;
  auth_body : Body;
  auth_file : option File;
}.

(** The [data] of a response, one shape per controller. *)
Inductive Data : Type :=
| D_empty
| D_doc (doc : gmap string JsValue)
| D_login (user : option (gmap string JsValue))
    (accessToken refreshToken : option string)
| D_tokens (accessToken refreshToken : option string)
| D_user (user : option (gmap string JsValue))
| D_data (data : gmap string JsValue).

(** Modelled from the spec: [utils/ApiResponse.js] is not among the
    sources; section 6 gives the envelope, of which the controllers
    supply [new ApiResponse(statusCode, data, message)]. *)
Record ApiResponse : Type := mkApiResponse {
  statusCode : Z;
  data : Data;
  message : string;
}.

(** What the controller did to [res]: [status], the [cookie] and
    [clearCookie] calls in order, and the body given to [json].  A
    cookie or token that is [None] was passed as [undefined]. *)
Record Response : Type := mkResponse {
  status : Z;
  cookie : list (string * option string);
  clearCookie : list string;
  json : ApiResponse;
}.

(** ** controllers/user.controllers.js *)

Section Controllers.

Variable ext : Collaborators.

(** A call of a [validator] predicate, which asserts that it is given
    a string. *)
Definition validator_call (f : string -> bool) (x : option string)
  : Async bool :=
  match x with
  | Some s => ret (f s)
  | None => throw (TypeError "Expected a string but received a undefined")
  end.

(** [jwt.verify(token, secret)] *)
Definition verify (token secret : string) : Async Payload :=
  fun w =>
    match jwt_verify ext (now w) token secret with
    | inr decoded => (Normal decoded, w)
    | inl msg => (Thrown (LibError "JsonWebTokenError" msg), w)
    end.

(** The object [{ accessToken, refreshToken }] is returned. *)
Definition generateAccessAndRefreshTokens (userId : nat)
  : Async (gmap string string) :=
  try_catch
    (let* user := findById (Some userId) in
     match user with
     | None =>
         throw (TypeError "Cannot read properties of null")
     | Some user =>
         let* accessToken := generateAccessToken ext user in
         let* refreshToken := generateRefreshToken ext user in
         let user := set_refreshToken (Some refreshToken) user in
         save ext user ["refreshToken"] ;;;
         ret (<["accessToken" := accessToken]>
                (<["refreshToken" := refreshToken]> ∅))
     end)
    (fun error =>
       throw (ApiError 500
         "Something went wrong while generating access and refresh tokens.")).

(** The world that a successful [generateAccessAndRefreshTokens] leaves:
    the new refresh token is written on the user's record. *)
Definition rotated (user : User) (w : World) : World :=
  log (EvDbWrite (_id user))
    (with_users
       (replace_doc (_id user)
          (set_refreshToken (Some (signRefreshToken ext (now w) user)) user)
          (users w)) w).

(** Lines 61-75 of [registerUser]: the local paths of the two files.
    [req.files?.avatar[0]?.path] stops at an absent [req.files] only;
    indexing an absent [avatar] throws. *)
Definition avatarLocalPath (files : option Files) : Async (option string) :=
  match files with
  | None => ret None
  | Some fs =>
      match files_avatar fs with
      | None =>
          throw (TypeError "Cannot read properties of undefined (reading '0')")
      | Some l => ret (head l ≫= path)
      end
  end.

Definition coverImageLocalPath (files : option Files) : option string :=
  match files with
  | Some fs =>
      match files_coverImage fs with
      | Some (f :: _) => path f
      | _ => None
      end
  | None => None
  end.

Definition excluded_fields : list string :=
  ["password"; "refreshToken"; "avatarId"; "coverImageId"].

Definition registerUser (req : Request) : Async Response :=
  let b := req_body req in
  if existsb Js.blank
       [body_fullName b; body_email b; body_username b; body_password b]
  then throw (ApiError 400 "all fields are must.")
  else
    let* isEmail := validator_call (validator_isEmail ext) (body_email b) in
    if negb isEmail then throw (ApiError 400 "email is invalid.")
    else
      let* isLowercase :=
        validator_call (validator_isLowercase ext) (body_username b) in
      if negb isLowercase
      then throw (ApiError 400 "username should be lowercase.")
      else
        let* existedUser := findOne_or (body_username b) (body_email b) in
        match existedUser with
        | Some _ => throw (ApiError 409 "email or username already in use.")
        | None =>
            let* avatarPath := avatarLocalPath (req_files req) in
            let coverPath := coverImageLocalPath (req_files req) in
            if negb (Js.truthy avatarPath)
            then throw (ApiError 400 "avatar is required.")
            else
              let* avatar := uploadOnCloudinary ext avatarPath in
              let* coverImage := uploadOnCloudinary ext coverPath in
              match avatar with
              | None => throw (ApiError 400 "avatar is required.")
              | Some avatar =>
                  let* user :=
                    create ext
                      (mkNewUser (body_fullName b) (url avatar)
                         (public_id avatar)
                         (from_option url "" coverImage)
                         (from_option public_id "" coverImage)
                         (Js.toLowerCase (default "" (body_username b)))
                         (body_email b) (body_password b)) in
                  let* createdUser :=
                    findById_select (Some (_id user)) excluded_fields in
                  match createdUser with
                  | None =>
                      throw (ApiError 500
                        "Something went wrong while registering the user.")
                  | Some createdUser =>
                      ret (mkResponse 201 [] []
                             (mkApiResponse 200 (D_doc createdUser)
                                "User registered successfully!"))
                  end
              end
        end.

(** [[a, b].some((field) => field.trim() === "")]: stops at the first
    blank field, and throws on an undefined one reached before. *)
Fixpoint some_blank (fields : list (option string)) : Async bool :=
  match fields with
  | [] => ret false
  | None :: _ =>
      throw (TypeError "Cannot read properties of undefined (reading 'trim')")
  | Some s :: r => if Js.trim s =? "" then ret true else some_blank r
  end.

(** The format check of [loginUser].  [?:] binds weaker than [||]:
    the condition reads
    [email ? isEmail(email) : ((false || username) ? isLowercase(username) : false)]. *)
Definition login_format_ok (uname mail : option string) : bool :=
  match mail with
  | Some m =>
      if Js.truthy mail then validator_isEmail ext m
      else match uname with
           | Some u =>
               if Js.truthy uname then validator_isLowercase ext u else false
           | None => false
           end
  | None =>
      match uname with
      | Some u =>
          if Js.truthy uname then validator_isLowercase ext u else false
      | None => false
      end
  end.

(** [loginUser] from the lookup of the user on. *)
Definition login_lookup (b : Body) : Async Response :=
  let* existingUser := findOne_or (body_username b) (body_email b) in
  match existingUser with
  | None => throw (ApiError 404 "user does not exist.")
  | Some existingUser =>
      let* isPasswordValid :=
        isPasswordCorrect ext existingUser (body_password b) in
      if negb isPasswordValid
      then throw (ApiError 400 "password incorrect.")
      else
        let* tokens := generateAccessAndRefreshTokens (_id existingUser) in
        let accessToken := tokens !! "accessToken" in
        let refreshToken := tokens !! "refreshToken" in
        let* loggedInUser :=
          findById_select (Some (_id existingUser)) excluded_fields in
        ret (mkResponse 200
               [("accessToken", accessToken); ("refreshToken", refreshToken)]
               []
               (mkApiResponse 200
                  (D_login loggedInUser accessToken refreshToken)
                  "user successfully logged in."))
  end.

(** The empty-field check of [loginUser]:
    [(username && [username, password].some(...)) ||
     (email && [email, password].some(...))]. *)
Definition any_field_blank (uname mail pw : option string) : Async bool :=
  let* left :=
    if Js.truthy uname then some_blank [uname; pw] else ret false in
  if left then ret true
  else if Js.truthy mail then some_blank [mail; pw] else ret false.

Definition loginUser (req : Request) : Async Response :=
  let b := req_body req in
  let uname := body_username b in
  let mail := body_email b in
  if negb (Js.truthy uname) && negb (Js.truthy mail)
  then throw (ApiError 400 "username or email is required.")
  else
    let* anyBlank := any_field_blank uname mail (body_password b) in
    if anyBlank then throw (ApiError 400 "all fields are must")
    else if negb (login_format_ok uname mail)
         then throw (ApiError 400 "email or username is invalid.")
         else login_lookup b.

(** The first check of [loginUser] in the earlier revision of the
    controllers: [if (!username || !email)]. *)
Definition earlier_login_guard (b : Body) : bool :=
  negb (Js.truthy (body_username b)) || negb (Js.truthy (body_email b)).

Definition logoutUser (req : AuthRequest) : Async Response :=
  findByIdAndUpdate ext (_id (auth_user req)) [Set_refreshToken None] ;;;
  ret (mkResponse 200 [] ["accessToken"; "refreshToken"]
         (mkApiResponse 200 D_empty "user logged out successfully.")).

(** [req.cookies?.refreshToken || req.body.refreshToken] *)
Definition incomingRefreshToken (req : Request) : option string :=
  Js.or_else (req_cookies req ≫= lookup "refreshToken")
    (body_refreshToken (req_body req)).

Definition refreshAccessToken (req : Request) : Async Response :=
  match incomingRefreshToken req with
  | Some incoming =>
      if negb (Js.truthy (incomingRefreshToken req))
      then throw (ApiError 401 "unauthorized request.")
      else
        try_catch
          (let* decodedToken := verify incoming (REFRESH_TOKEN_SECRET ext) in
           let* user := findById (claim_id decodedToken) in
           match user with
           | None => throw (ApiError 401 "invalid refresh token.")
           | Some user =>
               if negb (bool_decide (Some incoming = refreshToken user))
               then throw (ApiError 401 "refresh token is expired or used.")
               else
                 let* tokens := generateAccessAndRefreshTokens (_id user) in
                 let accessToken := tokens !! "accessToken" in
                 let newRefreshToken := tokens !! "newRefreshToken" in
                 ret (mkResponse 200
                        [("accessToken", accessToken);
                         ("refreshToken", newRefreshToken)]
                        []
                        (mkApiResponse 200
                           (D_tokens accessToken newRefreshToken)
                           "access token refreshed."))
           end)
          (fun error =>
             throw (ApiError 401
                      (if error_message error =? ""
                       then "invalid refresh token."
                       else error_message error)))
  | None => throw (ApiError 401 "unauthorized request.")
  end.

Definition changeCurrentPassword (req : AuthRequest) : Async Response :=
  let* user := findById (Some (_id (auth_user req))) in
  match user with
  | None => throw (ApiError 400 "unauthorized request.")
  | Some user =>
      let* correct :=
        isPasswordCorrect ext user (body_oldPassword (auth_body req)) in
      if negb correct then throw (ApiError 401 "password incorrect.")
      else
        match body_newPassword (auth_body req) with
        | None => throw (LibError "Error" "data and salt arguments required")
        | Some newPassword =>
            save ext (set_password newPassword user) ["password"] ;;;
            ret (mkResponse 200 [] []
                   (mkApiResponse 200 D_empty
                      "password updated successfully."))
        end
  end.

Definition updateUserDetails (req : AuthRequest) : Async Response :=
  match body_fullName (auth_body req), body_email (auth_body req) with
  | Some name, Some mail =>
      if negb (Js.truthy (Some name)) || negb (Js.truthy (Some mail))
      then throw (ApiError 401 "fullname and email are required.")
      else
        let* user :=
          findByIdAndUpdate ext (_id (auth_user req))
            [Set_fullName name; Set_email mail] in
        ret (mkResponse 200 [] []
               (mkApiResponse 200
                  (D_user (select ["password"; "refreshToken"] ∘ toObject
                             <$> user))
                  "user updated successfully."))
  | _, _ => throw (ApiError 401 "fullname and email are required.")
  end.

Definition updateUserAvatar (req : AuthRequest) : Async Response :=
  let newAvatarLocalPath := auth_file req ≫= path in
  if negb (Js.truthy newAvatarLocalPath)
  then throw (ApiError 400 "Avatar file is missing.")
  else
    let* newAvatar := uploadOnCloudinary ext newAvatarLocalPath in
    match newAvatar with
    | None =>
        throw (ApiError 400
                 "Error while uploading a new avatar to cloudinary.")
    | Some newAvatar =>
        let* user :=
          findByIdAndUpdate ext (_id (auth_user req))
            [Set_avatar (url newAvatar); Set_avatarId (public_id newAvatar)] in
        match select excluded_fields ∘ toObject <$> user with
        | None => throw (ApiError 401 "unauthorized request.")
        | Some user =>
            let oldAvatarId := avatarId (auth_user req) in
            if negb (Js.truthy oldAvatarId)
            then throw (ApiError 400 "unauthorized request.")
            else
              let* response := deleteOnCloudinary ext oldAvatarId in
              match response with
              | None =>
                  throw (ApiError 400
                           "Error while deleting the current avatar")
              | Some _ =>
                  ret (mkResponse 200 [] []
                         (mkApiResponse 200 (D_data user)
                            "avatar successfully updated."))
              end
        end
    end.

Definition updateUserCoverImage (req : AuthRequest) : Async Response :=
  let newCoverImagePath := auth_file req ≫= path in
  if negb (Js.truthy newCoverImagePath)
  then throw (ApiError 400 "cover image file missing.")
  else
    let* newCoverImage := uploadOnCloudinary ext newCoverImagePath in
    match newCoverImage with
    | None =>
        throw (ApiError 400
                 "Error while uploading the cover image to cloudinary.")
    | Some newCoverImage =>
        let* user :=
          findByIdAndUpdate ext (_id (auth_user req))
            [Set_coverImage (url newCoverImage);
             Set_coverImageId (public_id newCoverImage)] in
        match select excluded_fields ∘ toObject <$> user with
        | None => throw (ApiError 400 "unauthorized request.")
        | Some user =>
            let oldCoverId := coverImageId (auth_user req) in
            if negb (Js.truthy oldCoverId)
            then throw (ApiError 400 "unauthorized request.")
            else
              let* response := deleteOnCloudinary ext oldCoverId in
              match response with
              | None =>
                  throw (ApiError 400
                           "Error while deleting the current cover image")
              | Some _ =>
                  ret (mkResponse 200 [] []
                         (mkApiResponse 200 (D_data user)
                            "cover image successfully updated."))
              end
        end
    end.

End Controllers.

(** ** A concrete set of collaborators, to run the controllers *)

Module Demo.

(** A token is the secret, the user's id in unary, a dot, and the time
    of signing in unary; it decodes under the secret it starts with. *)
Fixpoint unary (n : nat) : string :=
  match n with
  | O => ""
  | S k => String "1" (unary k)
  end.

Fixpoint leading_ones (s : string) : nat :=
  match s with
  | String "1" r => S (leading_ones r)
  | _ => O
  end.

Definition ext : Collaborators :=
  {| cloudinary_upload :=
       fun _ p => if p =? "tmp/broken.png" then None
                  else Some (mkAsset ("https://cdn.example/" ++ p) ("id:" ++ p));
     cloudinary_destroy :=
       fun _ i => if i =? "id:locked" then None else Some "ok";
     jwt_sign :=
       fun t payload secret _ =>
         secret ++ unary (default 0 (claim_id payload)) ++ "." ++ unary t;
     jwt_decode :=
       fun token secret =>
         if String.prefix secret token
         then inr (mkPayload
                     (Some (leading_ones
                              (String.substring (String.length secret)
                                 (String.length token) token)))
                     None None None)
         else inl "invalid signature";
     jwt_expired := fun t token => (String.length token + 10 <? t)%nat;
     bcrypt_hash := fun p _ => "$2b$10$" ++ p;
     bcrypt_compare := fun p h => h =? "$2b$10$" ++ p;
     validator_isEmail :=
       fun s => match String.index 0 "@" s with Some _ => true | None => false end;
     validator_isLowercase := fun s => s =? Js.toLowerCase s;
     omitUndefined := false;
     ACCESS_TOKEN_SECRET := "A";
     ACCESS_TOKEN_EXPIRY := "1d";
     REFRESH_TOKEN_SECRET := "R";
     REFRESH_TOKEN_EXPIRY := "10d" |}.

(** The same collaborators over a store that drops the keys of an
    update whose value is [undefined]. *)
Definition ext_omitting : Collaborators :=
  {| cloudinary_upload := cloudinary_upload ext;
     cloudinary_destroy := cloudinary_destroy ext;
     jwt_sign := jwt_sign ext;
     jwt_decode := jwt_decode ext;
     jwt_expired := jwt_expired ext;
     bcrypt_hash := bcrypt_hash ext;
     bcrypt_compare := bcrypt_compare ext;
     validator_isEmail := validator_isEmail ext;
     validator_isLowercase := validator_isLowercase ext;
     omitUndefined := true;
     ACCESS_TOKEN_SECRET := ACCESS_TOKEN_SECRET ext;
     ACCESS_TOKEN_EXPIRY := ACCESS_TOKEN_EXPIRY ext;
     REFRESH_TOKEN_SECRET := REFRESH_TOKEN_SECRET ext;
     REFRESH_TOKEN_EXPIRY := REFRESH_TOKEN_EXPIRY ext |}.

Definition no_body : Body := mkBody None None None None None None None.

Definition ann : User :=
  mkUser 1 "annlee" "ann@x.com" "Ann Lee" "https://cdn.example/old.png"
    (Some "id:old") (Some "") (Some "") [] "$2b$10$secret123" (Some "R1.1").

Definition bob : User :=
  mkUser 2 "bob" "bob@x.com" "Bob" "https://cdn.example/bob.png"
    (Some "id:locked") (Some "") (Some "") [] "$2b$10$hunter2" None.

Definition world : World :=
  mkWorld [ann; bob] {["tmp/new.png"; "tmp/broken.png"]} [] 2.

Definition new_avatar_of (u : User) : AuthRequest :=
  mkAuthRequest u no_body (Some (mkFile (Some "tmp/new.png"))).

Definition refresh_with (token : string) : Request :=
  mkRequest no_body (Some {["refreshToken" := token]}) None.

Definition login_with (uname mail pw : option string) : Request :=
  mkRequest (mkBody None mail uname pw None None None) None None.

Definition logout_of (u : User) : AuthRequest :=
  mkAuthRequest u no_body None.

Definition details_of (u : User) (name mail : option string) : AuthRequest :=
  mkAuthRequest u (mkBody name mail None None None None None) None.

(** A registration of "carol" with an avatar; [files] chooses what
    multer attached. *)
Definition register_carol (files : option Files) : Request :=
  mkRequest
    (mkBody (Some "Carol Roe") (Some "carol@x.com") (Some "carol")
       (Some "secret123") None None None)
    None files.

Definition avatar_only : Files :=
  mkFiles (Some [mkFile (Some "tmp/new.png")]) None.

Definition cover_only : Files :=
  mkFiles None (Some [mkFile (Some "tmp/new.png")]).

End Demo.

(** ** More requests for the concrete world *)

Module Scenario.

Definition change_password (u : User) (old new : option string) : AuthRequest :=
  mkAuthRequest u (mkBody None None None None None old new) None.

Definition new_cover_of (u : User) (file : option string) : AuthRequest :=
  mkAuthRequest u Demo.no_body (Some (mkFile file)).

(** A user registered without a cover image. *)
Definition dan : User :=
  mkUser 3 "dan" "dan@x.com" "Dan" "https://cdn.example/dan.png"
    (Some "id:dan") (Some "") (Some "") [] "$2b$10$pw" None.

Definition world : World :=
  mkWorld [Demo.ann; Demo.bob; dan] {["tmp/new.png"; "tmp/cover.png"]} [] 2.

Definition both_files : Files :=
  mkFiles (Some [mkFile (Some "tmp/broken.png")])
    (Some [mkFile (Some "tmp/new.png")]).

(** A registration under the given names. *)
Definition register_as (fn un em : string) (files : option Files) : Request :=
  mkRequest
    (mkBody (Some fn) (Some em) (Some un) (Some "secret123") None None None)
    None files.

End Scenario.

(** ** The router as a transition system *)

(** A request that reaches one of the writing controllers through
    [routes/user.routes.js]; on the secured routes the request carries
    the user that [verifyJWT] attached, whoever that is. *)
Inductive Call : Type :=
| Register (req : Request)
| Login (req : Request)
| Logout (req : AuthRequest)
| RefreshToken (req : Request)
| ChangePassword (req : AuthRequest)
| UpdateUser (req : AuthRequest)
| UpdateAvatar (req : AuthRequest)
| UpdateCover (req : AuthRequest).

Definition handle (ext : Collaborators) (c : Call) : Async Response :=
  match c with
  | Register req => registerUser ext req
  | Login req => loginUser ext req
  | Logout req => logoutUser ext req
  | RefreshToken req => refreshAccessToken ext req
  | ChangePassword req => changeCurrentPassword ext req
  | UpdateUser req => updateUserDetails ext req
  | UpdateAvatar req => updateUserAvatar ext req
  | UpdateCover req => updateUserCoverImage ext req
  end.

(** The worlds that a sequence of requests leads to.  Between two
    requests the disk, the clock and the log may change in any way
    (the files of the next request are stored, time passes); the users
    collection is written by the controllers only. *)
Inductive reachable (ext : Collaborators) (w : World) : World -> Prop :=
| reachable_here : reachable ext w w
| reachable_call w1 c r w2 :
    reachable ext w w1 -> handle ext c w1 = (r, w2) -> reachable ext w w2
| reachable_env w1 w2 :
    reachable ext w w1 -> users w2 = users w1 -> reachable ext w w2.

(** A stored password is a bcrypt hash of cost 10. *)
Definition hashed (ext : Collaborators) (u : User) : Prop :=
  exists plain, password u = bcrypt_hash ext plain 10.

(** The stored form of the paths that have setters: [username] and
    [email] trimmed and in lower case, [fullName] trimmed. *)
Definition canonical (u : User) : Prop :=
  Js.toLowerCase (Js.trim (username u)) = username u /\
  Js.toLowerCase (Js.trim (email u)) = email u /\
  Js.trim (fullName u) = fullName u.

(** What the [_id] index and the [unique] indexes of [username] and
    [email] stand for. *)
Definition unique_keys (us : list User) : Prop :=
  NoDup (_id <$> us) /\ NoDup (username <$> us) /\ NoDup (email <$> us).

(** The two ways in which the model of Mongoose writes the collection:
    [create] appends a document, [save] and [findByIdAndUpdate] replace
    one in place. *)
Inductive store_step (ext : Collaborators) (us : list User)
  : list User -> Prop :=
| store_insert d :
    _id d = fresh_id us ->
    Forall (fun u => username u <> username d /\ email u <> email d) us ->
    hashed ext d -> canonical d ->
    store_step ext us (us ++ [d])
| store_update stored d :
    List.find (fun u => (_id u =? _id d)%nat) us = Some stored ->
    username d = username stored ->
    (email d = email stored \/
     Js.toLowerCase (Js.trim (email d)) = email d /\
     Forall (fun u => _id u = _id d \/ email u <> email d) us) ->
    (fullName d = fullName stored \/ Js.trim (fullName d) = fullName d) ->
    (password d = password stored \/ hashed ext d) ->
    store_step ext us (replace_doc (_id d) d us).

(** What a computation may do to the world: the clock is left alone,
    files are only removed, the log only grows, and the collection
    changes by store steps. *)
Definition evolves (ext : Collaborators) (w w' : World) : Prop :=
  now w' = now w /\
  disk w' ⊆ disk w /\
  (exists evs, trace w' = (trace w ++ evs)%list) /\
  rtc (store_step ext) (users w) (users w').

(** A computation that leaves the world as it finds it. *)
Definition silent {A} (c : Async A) : Prop := forall w, snd (c w) = w.

(** A computation each run of which relates the world before to the
    world after. *)
Definition keeps {A} (R : relation World) (c : Async A) : Prop :=
  forall w, R w (snd (c w)).

(** Only the record with the given id may have changed. *)
Definition writes_only (id : nat) (w w' : World) : Prop :=
  forall id', id' <> id ->
    List.find (fun u => (_id u =? id')%nat) (users w')
    = List.find (fun u => (_id u =? id')%nat) (users w).

(** The user on whose behalf a secured route runs. *)
Definition caller (c : Call) : option User :=
  match c with
  | Logout req | ChangePassword req | UpdateUser req | UpdateAvatar req
  | UpdateCover req => Some (auth_user req)
  | Register _ | Login _ | RefreshToken _ => None
  end.

(** The world after a list of requests, handled one after the other. *)
Fixpoint run (ext : Collaborators) (cs : list Call) (w : World) : World :=
  match cs with
  | [] => w
  | c :: r => run ext r (snd (handle ext c w))
  end.

(** A registration, a change of Ann's details and a change of her
    password. *)
Definition history : list Call :=
  [Register
     (Scenario.register_as " Carol Roe " "carol" "Carol@X.com"
        (Some Demo.avatar_only));
   UpdateUser (Demo.details_of Demo.ann (Some "Ann") (Some "Ann@New.com"));
   ChangePassword
     (Scenario.change_password Demo.ann (Some "secret123") (Some "pw2"))].

(** ** Refresh tokens along a sequence of requests *)

(** The record with the given id does not hold the token. *)
Definition token_absent (id : nat) (t : string) (w : World) : Prop :=
  forall u,
    List.find (fun v => (_id v =? id)%nat) (users w) = Some u ->
    refreshToken u <> Some t.

(** A run that leaves the clock alone and that does not bring the token
    back on the user's record, when signing for this user at the time
    of the run gives another token. *)
Definition keeps_token_out (ext : Collaborators) (user : User) (t : string)
    (w w' : World) : Prop :=
  now w' = now w /\
  (signRefreshToken ext (now w) user <> t ->
   token_absent (_id user) t w -> token_absent (_id user) t w').

(** The worlds that a sequence of requests leads to when every request
    is handled at a time that satisfies [ok].  Between two requests
    the disk, the clock and the log may change in any way; the users
    collection is written by the controllers only. *)
Inductive reachable_at (ext : Collaborators) (ok : nat -> Prop) (w : World)
  : World -> Prop :=
| reachable_at_here : reachable_at ext ok w w
| reachable_at_call w1 c r w2 :
    reachable_at ext ok w w1 -> ok (now w1) -> handle ext c w1 = (r, w2) ->
    reachable_at ext ok w w2
| reachable_at_env w1 w2 :
    reachable_at ext ok w w1 -> users w2 = users w1 -> reachable_at ext ok w w2.

(** * Properties *)

(** ** The monad *)

Lemma bind_normal {A B} (c : Async A) (k : A -> Async B) w a w1 :
  c w = (Normal a, w1) -> bind c k w = k a w1.
Proof. intros H. unfold bind. now rewrite H. Qed.

Lemma bind_thrown {A B} (c : Async A) (k : A -> Async B) w e w1 :
  c w = (Thrown e, w1) -> bind c k w = (Thrown e, w1).
Proof. intros H. unfold bind. now rewrite H. Qed.

Lemma bind_inv_normal {A B} (c : Async A) (k : A -> Async B) w b w2 :
  bind c k w = (Normal b, w2) ->
  exists a w1, c w = (Normal a, w1) /\ k a w1 = (Normal b, w2).
Proof.
  unfold bind. destruct (c w) as [[a|e] w1]; intros H.
  - exists a, w1. split; [reflexivity | exact H].
  - discriminate.
Qed.

Lemma bind_inv_thrown {A B} (c : Async A) (k : A -> Async B) w e w2 :
  bind c k w = (Thrown e, w2) ->
  c w = (Thrown e, w2) \/
  exists a w1, c w = (Normal a, w1) /\ k a w1 = (Thrown e, w2).
Proof.
  unfold bind. destruct (c w) as [[a|e'] w1]; intros H.
  - right. exists a, w1. split; [reflexivity | exact H].
  - left. injection H as -> ->. reflexivity.
Qed.

Lemma bind_inv {A B} (c : Async A) (k : A -> Async B) w r w2 :
  bind c k w = (r, w2) ->
  exists r1 w1,
    c w = (r1, w1) /\
    match r1 with
    | Normal a => k a w1 = (r, w2)
    | Thrown e => r = Thrown e /\ w2 = w1
    end.
Proof.
  unfold bind. destruct (c w) as [[a|e] w1]; intros H.
  - exists (Normal a), w1. now split.
  - exists (Thrown e), w1. injection H as <- <-. now split.
Qed.

(** ** JavaScript strings *)

Lemma lower_ascii_space c : Js.is_space (Js.lower_ascii c) = Js.is_space c.
Proof. destruct c as [[] [] [] [] [] [] [] []]; reflexivity. Qed.

Lemma toLowerCase_empty s : Js.toLowerCase s = "" -> s = "".
Proof. destruct s; [reflexivity | discriminate]. Qed.

Lemma toLowerCase_trimStart s :
  Js.trimStart (Js.toLowerCase s) = Js.toLowerCase (Js.trimStart s).
Proof.
  induction s as [|c r IH]; simpl; [reflexivity|].
  rewrite lower_ascii_space. destruct (Js.is_space c); [exact IH | reflexivity].
Qed.

Lemma toLowerCase_trimEnd s :
  Js.trimEnd (Js.toLowerCase s) = Js.toLowerCase (Js.trimEnd s).
Proof.
  induction s as [|c r IH]; simpl; [reflexivity|].
  rewrite IH, lower_ascii_space.
  destruct (Js.trimEnd r); simpl; [destruct (Js.is_space c)|]; reflexivity.
Qed.

(** The two setters of [username] and [email] commute. *)
Lemma toLowerCase_trim s :
  Js.trim (Js.toLowerCase s) = Js.toLowerCase (Js.trim s).
Proof. unfold Js.trim. now rewrite toLowerCase_trimStart, toLowerCase_trimEnd. Qed.

Lemma trim_nonempty s : Js.trim s <> "" -> s <> "".
Proof. intros H ->. now apply H. Qed.

Lemma blank_false s : Js.trim s <> "" -> Js.blank (Some s) = false.
Proof. intros H. now apply String.eqb_neq. Qed.

(** ** utils/cloudinary.js *)

Section CloudinaryFacts.

Variable ext : Collaborators.

Lemma truthy_Some (s : string) : s <> "" -> Js.truthy (Some s) = true.
Proof.
  intros H. unfold Js.truthy. destruct (String.eqb_spec s ""); [contradiction|].
  reflexivity.
Qed.

Lemma truthy_inv (x : option string) :
  Js.truthy x = true -> exists s, x = Some s /\ s <> "".
Proof.
  destruct x as [s|]; simpl; [|discriminate].
  destruct (String.eqb_spec s ""); [discriminate|]. intros _. now exists s.
Qed.

Lemma unlinkSync_present p w :
  p ∈ disk w ->
  unlinkSync (Some p) w
  = (Normal tt, log (EvUnlink p) (with_disk (disk w ∖ {[p]}) w)).
Proof.
  intros H. unfold unlinkSync. now rewrite bool_decide_eq_true_2.
Qed.

(** An upload of an existing temporary file: one remote call, then one
    unlink, whatever the remote call answers. *)
Lemma uploadOnCloudinary_present p w :
  p <> "" -> p ∈ disk w ->
  uploadOnCloudinary ext (Some p) w
  = (Normal (cloudinary_upload ext w p),
     log (EvUnlink p) (with_disk (disk w ∖ {[p]}) (log (EvUpload p) w))).
Proof.
  intros Hp Hin.
  unfold uploadOnCloudinary, try_catch. rewrite (truthy_Some p Hp).
  cbn [negb]. unfold bind at 1, uploader_upload.
  destruct (cloudinary_upload ext w p) as [a|].
  - rewrite (bind_normal _ _ _ tt _
               (unlinkSync_present p (log (EvUpload p) w) Hin)).
    reflexivity.
  - rewrite (bind_normal _ _ _ tt _
               (unlinkSync_present p (log (EvUpload p) w) Hin)).
    reflexivity.
Qed.

(** The earlier revision left the file of a successful upload on the
    disk. *)
Lemma earlier_uploadOnCloudinary_success p w a :
  p <> "" -> cloudinary_upload ext w p = Some a ->
  earlier_uploadOnCloudinary ext (Some p) w
  = (Normal (Some a), log (EvUpload p) w).
Proof.
  intros Hp Hup. unfold earlier_uploadOnCloudinary, try_catch.
  rewrite (truthy_Some p Hp). cbn [negb].
  unfold bind, uploader_upload. now rewrite Hup.
Qed.

Lemma uploadOnCloudinary_falsy x w :
  Js.truthy x = false -> uploadOnCloudinary ext x w = (Normal None, w).
Proof.
  intros H. unfold uploadOnCloudinary, try_catch.
  destruct x as [p|]; [rewrite H|]; reflexivity.
Qed.

(** A deletion of a non-empty asset id: exactly one remote call, and
    [null] when it rejects. *)
Lemma deleteOnCloudinary_truthy i w :
  i <> "" ->
  deleteOnCloudinary ext (Some i) w
  = (Normal (cloudinary_destroy ext w i), log (EvDestroy i) w).
Proof.
  intros Hi. unfold deleteOnCloudinary, try_catch.
  rewrite (truthy_Some i Hi). simpl. unfold bind, uploader_destroy.
  destruct (cloudinary_destroy ext w i); reflexivity.
Qed.

End CloudinaryFacts.

(** C6. An upload call whose local path designates an existing temporary
    file returns the uploaded asset when the remote upload succeeds and
    [null] when it fails, and in both cases the file is unlinked exactly
    once: the calls made are the upload followed by one unlink of the
    path, and the file is gone from the disk afterwards. *)
Theorem upload_deletes_temp_file_once
    (ext : Collaborators) (p : string) (w : World) :
  p <> "" -> p ∈ disk w ->
  exists w',
    uploadOnCloudinary ext (Some p) w
      = (Normal (cloudinary_upload ext w p), w') /\
    trace w' = (trace w ++ [EvUpload p; EvUnlink p])%list /\
    count_occ Event_eq_dec (trace w') (EvUnlink p)
    = S (count_occ Event_eq_dec (trace w) (EvUnlink p)) /\
    (p ∉ disk w') /\
    disk w' = disk w ∖ {[p]} /\
    users w' = users w.
Proof.
  intros Hp Hin. eexists. split.
  - apply uploadOnCloudinary_present; assumption.
  - repeat split.
    + simpl. now rewrite <- app_assoc.
    + simpl. rewrite <- app_assoc, count_occ_app. cbn [app].
      rewrite count_occ_cons_neq by discriminate.
      rewrite count_occ_cons_eq by reflexivity. simpl. lia.
    + simpl. intros [_ Hn]%elem_of_difference. apply Hn.
      now apply elem_of_singleton.
Qed.

Lemma upload_deletes_temp_file_once_success :
  exists w',
    uploadOnCloudinary Demo.ext (Some "tmp/new.png") Demo.world
      = (Normal (Some (mkAsset "https://cdn.example/tmp/new.png" "id:tmp/new.png")), w') /\
    trace w' = [EvUpload "tmp/new.png"; EvUnlink "tmp/new.png"] /\
    ("tmp/new.png" ∉ disk w').
Proof.
  destruct (upload_deletes_temp_file_once Demo.ext "tmp/new.png" Demo.world)
    as (w' & H1 & H2 & _ & H4 & _).
  - discriminate.
  - vm_compute. reflexivity.
  - exists w'. repeat split; assumption.
Defined.

(** ** The users collection *)

Section StoreFacts.

Variable ext : Collaborators.

Lemma find_replace_doc id d s us :
  _id d = id ->
  List.find (fun u => (_id u =? id)%nat) us = Some s ->
  List.find (fun u => (_id u =? id)%nat) (replace_doc id d us) = Some d.
Proof.
  intros Hd. induction us as [|u r IH]; simpl; [discriminate|].
  destruct (_id u =? id)%nat eqn:E.
  - intros _. simpl. now rewrite Hd, Nat.eqb_refl.
  - intros H. simpl. rewrite E. now apply IH.
Qed.

Lemma find_id_eq id s us :
  List.find (fun u => (_id u =? id)%nat) us = Some s -> _id s = id.
Proof.
  intros H. apply find_some in H as [_ H]. now apply Nat.eqb_eq.
Qed.

Lemma apply_set_id u s : _id (apply_set u s) = _id u.
Proof. destruct s; reflexivity. Qed.

Lemma fold_apply_set_id upd u : _id (fold_left apply_set upd u) = _id u.
Proof.
  revert u. induction upd as [|s r IH]; intros u; simpl; [reflexivity|].
  now rewrite IH, apply_set_id.
Qed.

Lemma no_email_clash id (us : list User) :
  existsb (fun u => negb (_id u =? id)%nat && matches None (email u)) us
  = false.
Proof.
  induction us as [|u r IH]; simpl; [reflexivity|].
  now rewrite andb_false_r.
Qed.

(** An update that leaves [email] alone cannot be refused. *)
Lemma findByIdAndUpdate_found id upd stored w :
  List.find (fun u => (_id u =? id)%nat) (users w) = Some stored ->
  sets_email (castUpdate ext upd) = None ->
  findByIdAndUpdate ext id upd w
  = (Normal (Some (fold_left apply_set (castUpdate ext upd) stored)),
     log (EvDbWrite id)
       (with_users
          (replace_doc id (fold_left apply_set (castUpdate ext upd) stored)
             (users w)) w)).
Proof.
  intros Hf He. unfold findByIdAndUpdate. rewrite Hf, He.
  now rewrite no_email_clash.
Qed.

Lemma findByIdAndUpdate_missing id upd w :
  List.find (fun u => (_id u =? id)%nat) (users w) = None ->
  findByIdAndUpdate ext id upd w = (Normal None, w).
Proof. intros Hf. unfold findByIdAndUpdate. now rewrite Hf. Qed.

Lemma castUpdate_defined upd :
  forallb (fun s => negb (is_undefined s)) upd = true ->
  castUpdate ext upd = upd.
Proof.
  intros H. unfold castUpdate. destruct (omitUndefined ext); [|reflexivity].
  induction upd as [|s r IH]; simpl in *; [reflexivity|].
  apply andb_true_iff in H as [H1 H2]. rewrite H1. now rewrite IH.
Qed.

End StoreFacts.

(** C5. When the new avatar uploads, the authenticated user is in the
    collection and holds an old asset id, the calls [updateUserAvatar]
    makes are, in this order, the upload, the unlink of the temporary
    file, the write of the new URL and asset id, and exactly one destroy
    of the old asset id.  The record holds the new URL and asset id
    afterwards whatever the destroy answers: when it fails the
    controller throws an error with the status of a ValidationError
    (400) and nothing is rolled back; when it succeeds the answer is
    200. *)
Theorem avatar_swap_kept_when_delete_fails
    (ext : Collaborators) (req : AuthRequest) (w : World)
    (p old : string) (asset : Asset) (stored : User) :
  let id := _id (auth_user req) in
  let updated :=
    apply_set (apply_set stored (Set_avatar (url asset)))
      (Set_avatarId (public_id asset)) in
  let uploaded :=
    log (EvUnlink p) (with_disk (disk w ∖ {[p]}) (log (EvUpload p) w)) in
  let persisted :=
    log (EvDbWrite id)
      (with_users (replace_doc id updated (users w)) uploaded) in
  auth_file req ≫= path = Some p -> p <> "" -> p ∈ disk w ->
  cloudinary_upload ext w p = Some asset ->
  List.find (fun u => (_id u =? id)%nat) (users w) = Some stored ->
  avatarId (auth_user req) = Some old -> old <> "" ->
  exists r w',
    updateUserAvatar ext req w = (r, w') /\
    trace w'
      = (trace w ++ [EvUpload p; EvUnlink p; EvDbWrite id; EvDestroy old])%list /\
    count_occ Event_eq_dec (trace w') (EvDestroy old)
    = S (count_occ Event_eq_dec (trace w) (EvDestroy old)) /\
    List.find (fun u => (_id u =? id)%nat) (users w') = Some updated /\
    avatar updated = url asset /\
    avatarId updated = Some (public_id asset) /\
    (cloudinary_destroy ext persisted old = None ->
     r = Thrown (ApiError (class_status ValidationError)
                   "Error while deleting the current avatar")) /\
    (is_Some (cloudinary_destroy ext persisted old) ->
     exists resp, r = Normal resp /\ status resp = 200%Z).
Proof.
  intros id updated uploaded persisted Hfile Hp Hin Hup Hfind Hold Hne.
  assert (Hrun : updateUserAvatar ext req w
            = (match cloudinary_destroy ext persisted old with
               | None =>
                   Thrown (ApiError 400 "Error while deleting the current avatar")
               | Some _ =>
                   Normal (mkResponse 200 [] []
                             (mkApiResponse 200
                                (D_data (select excluded_fields
                                           (toObject updated)))
                                "avatar successfully updated."))
               end, log (EvDestroy old) persisted)).
  { unfold updateUserAvatar. rewrite Hfile, (truthy_Some p Hp). cbn [negb].
    rewrite (bind_normal _ _ _ _ _ (uploadOnCloudinary_present ext p w Hp Hin)).
    rewrite Hup.
    assert (Hcast : castUpdate ext
              [Set_avatar (url asset); Set_avatarId (public_id asset)]
            = [Set_avatar (url asset); Set_avatarId (public_id asset)])
      by now apply castUpdate_defined.
    erewrite bind_normal; cycle 1.
    { apply findByIdAndUpdate_found with (stored := stored).
      - exact Hfind.
      - now rewrite Hcast. }
    rewrite Hcast. cbn [fold_left fmap option_fmap option_map].
    fold id. rewrite Hold, (truthy_Some old Hne). cbn [negb].
    erewrite bind_normal; cycle 1.
    { apply deleteOnCloudinary_truthy. exact Hne. }
    change (cloudinary_destroy ext _ old)
      with (cloudinary_destroy ext persisted old).
    destruct (cloudinary_destroy ext persisted old); reflexivity. }
  do 2 eexists. split; [exact Hrun|]. repeat split.
  - simpl. now rewrite <- !app_assoc.
  - simpl. rewrite <- !app_assoc, count_occ_app. cbn [app].
    rewrite !count_occ_cons_neq by discriminate.
    rewrite count_occ_cons_eq by reflexivity. simpl. lia.
  - simpl. apply find_replace_doc with (s := stored); [|exact Hfind].
    unfold updated. rewrite !apply_set_id.
    now apply find_id_eq with (us := users w).
  - now intros ->.
  - intros [x ->]. eexists. split; reflexivity.
Qed.

Lemma avatar_swap_kept_when_delete_fails_run :
  exists w',
    updateUserAvatar Demo.ext (Demo.new_avatar_of Demo.bob) Demo.world
      = (Thrown (ApiError 400 "Error while deleting the current avatar"), w') /\
    trace w'
      = [EvUpload "tmp/new.png"; EvUnlink "tmp/new.png"; EvDbWrite 2;
         EvDestroy "id:locked"] /\
    (avatar <$> List.find (fun u => (_id u =? 2)%nat) (users w'))
      = Some "https://cdn.example/tmp/new.png".
Proof.
  destruct (avatar_swap_kept_when_delete_fails Demo.ext
              (Demo.new_avatar_of Demo.bob) Demo.world "tmp/new.png"
              "id:locked"
              (mkAsset "https://cdn.example/tmp/new.png" "id:tmp/new.png")
              Demo.bob)
    as (r & w' & H1 & H2 & _ & H4 & _ & _ & H7 & _).
  - reflexivity.
  - discriminate.
  - vm_compute. reflexivity.
  - reflexivity.
  - reflexivity.
  - reflexivity.
  - discriminate.
  - exists w'. split; [|split; [exact H2|]].
    + rewrite H1. f_equal. apply H7. reflexivity.
    + exact (f_equal (fmap avatar) H4).
Defined.

(** ** Session issuer *)

Section SessionFacts.

Variable ext : Collaborators.

Lemma findById_found (i : option nat) user w :
  findById i w = (Normal (Some user), w) ->
  exists n, i = Some n /\
    List.find (fun u => (_id u =? n)%nat) (users w) = Some user.
Proof.
  unfold findById. destruct i as [n|]; intros [= H]; eauto.
Qed.

Lemma generateAccessAndRefreshTokens_found id user w :
  List.find (fun u => (_id u =? id)%nat) (users w) = Some user ->
  generateAccessAndRefreshTokens ext id w
  = (Normal (<["accessToken" := signAccessToken ext (now w) user]>
               (<["refreshToken" := signRefreshToken ext (now w) user]> ∅)),
     rotated ext user w).
Proof.
  intros Hf. pose proof (find_id_eq _ _ _ Hf) as Hid. subst id.
  unfold generateAccessAndRefreshTokens, try_catch, bind, findById.
  rewrite Hf. unfold generateAccessToken, generateRefreshToken, save.
  cbn [_id set_refreshToken now users]. rewrite Hf. reflexivity.
Qed.

(** Whatever goes wrong inside, the caller sees status 500. *)
Lemma generateAccessAndRefreshTokens_throws id w e w' :
  generateAccessAndRefreshTokens ext id w = (Thrown e, w') ->
  e = ApiError 500
        "Something went wrong while generating access and refresh tokens.".
Proof.
  unfold generateAccessAndRefreshTokens, try_catch.
  match goal with |- context [let (_, _) := ?c w in _] => destruct (c w) as [[a|e0] w0] end.
  - discriminate.
  - unfold throw. now intros [= <- <-].
Qed.

Lemma refreshAccessToken_match req w t decoded user :
  incomingRefreshToken req = Some t -> t <> "" ->
  jwt_verify ext (now w) t (REFRESH_TOKEN_SECRET ext) = inr decoded ->
  findById (claim_id decoded) w = (Normal (Some user), w) ->
  refreshToken user = Some t ->
  refreshAccessToken ext req w
  = (Normal
       (mkResponse 200
          [("accessToken", Some (signAccessToken ext (now w) user));
           ("refreshToken", None)]
          []
          (mkApiResponse 200
             (D_tokens (Some (signAccessToken ext (now w) user)) None)
             "access token refreshed.")),
     rotated ext user w).
Proof.
  intros Hin Ht Hver Hfind Hstored.
  unfold refreshAccessToken. rewrite Hin, (truthy_Some t Ht). cbn [negb].
  unfold try_catch, bind at 1, verify. rewrite Hver.
  rewrite (bind_normal _ _ _ _ _ Hfind), Hstored.
  rewrite bool_decide_eq_true_2 by reflexivity. cbn [negb].
  apply findById_found in Hfind as [i [Hi Hfind]].
  pose proof (find_id_eq _ _ _ Hfind) as Hid.
  rewrite (bind_normal _ _ _ _ _
             (generateAccessAndRefreshTokens_found (_id user) user w
                ltac:(now rewrite Hid))).
  reflexivity.
Qed.

Lemma refreshAccessToken_mismatch req w t decoded user :
  incomingRefreshToken req = Some t -> t <> "" ->
  jwt_verify ext (now w) t (REFRESH_TOKEN_SECRET ext) = inr decoded ->
  findById (claim_id decoded) w = (Normal (Some user), w) ->
  refreshToken user <> Some t ->
  refreshAccessToken ext req w
  = (Thrown (ApiError 401 "refresh token is expired or used."), w).
Proof.
  intros Hin Ht Hver Hfind Hstored.
  unfold refreshAccessToken. rewrite Hin, (truthy_Some t Ht). cbn [negb].
  unfold try_catch, bind at 1, verify. rewrite Hver.
  rewrite (bind_normal _ _ _ _ _ Hfind).
  rewrite bool_decide_eq_false_2 by (intros E; now apply Hstored).
  reflexivity.
Qed.

(** Every failure of [refreshAccessToken] carries status 401. *)
Lemma refreshAccessToken_throws req w e w' :
  refreshAccessToken ext req w = (Thrown e, w') ->
  exists msg, e = ApiError 401 msg.
Proof.
  unfold refreshAccessToken.
  destruct (incomingRefreshToken req) as [t|]; cycle 1.
  { unfold throw. intros [= <- _]. eauto. }
  destruct (negb (Js.truthy (Some t))).
  { unfold throw. intros [= <- _]. eauto. }
  unfold try_catch.
  match goal with |- context [let (_, _) := ?c w in _] => destruct (c w) as [[a|e0] w0] end.
  - discriminate.
  - unfold throw. intros [= <- _]. eauto.
Qed.

Lemma refreshAccessToken_normal_inv req w resp w1 :
  refreshAccessToken ext req w = (Normal resp, w1) ->
  exists t decoded user,
    incomingRefreshToken req = Some t /\ t <> "" /\
    jwt_verify ext (now w) t (REFRESH_TOKEN_SECRET ext) = inr decoded /\
    findById (claim_id decoded) w = (Normal (Some user), w) /\
    refreshToken user = Some t.
Proof.
  unfold refreshAccessToken.
  destruct (incomingRefreshToken req) as [t|]; [|discriminate].
  destruct (Js.truthy (Some t)) eqn:Htruthy; [|discriminate]. cbn [negb].
  apply truthy_inv in Htruthy as (t' & [= <-] & Ht).
  unfold try_catch, bind at 1, verify.
  destruct (jwt_verify ext (now w) t (REFRESH_TOKEN_SECRET ext))
    as [msg|decoded] eqn:Hver; [discriminate|].
  unfold bind at 1.
  destruct (findById (claim_id decoded) w) as [[[user|]|e] w0] eqn:Hfind;
    try discriminate.
  assert (w0 = w) as -> by (unfold findById in Hfind; now injection Hfind).
  destruct (bool_decide (Some t = refreshToken user)) eqn:Hst;
    [|discriminate].
  apply bool_decide_eq_true_1 in Hst. intros _.
  exists t, decoded, user. repeat split; try assumption. now symmetry.
Qed.

Lemma refreshAccessToken_unverified req w t msg :
  incomingRefreshToken req = Some t -> t <> "" ->
  jwt_verify ext (now w) t (REFRESH_TOKEN_SECRET ext) = inl msg ->
  exists msg', refreshAccessToken ext req w = (Thrown (ApiError 401 msg'), w).
Proof.
  intros Hin Ht Hver.
  unfold refreshAccessToken. rewrite Hin, (truthy_Some t Ht). cbn [negb].
  unfold try_catch, bind at 1, verify. rewrite Hver.
  unfold throw. eauto.
Qed.

Lemma refreshAccessToken_no_user req w t decoded :
  incomingRefreshToken req = Some t -> t <> "" ->
  jwt_verify ext (now w) t (REFRESH_TOKEN_SECRET ext) = inr decoded ->
  findById (claim_id decoded) w = (Normal None, w) ->
  refreshAccessToken ext req w
  = (Thrown (ApiError 401 "invalid refresh token."), w).
Proof.
  intros Hin Ht Hver Hfind.
  unfold refreshAccessToken. rewrite Hin, (truthy_Some t Ht). cbn [negb].
  unfold try_catch, bind at 1, verify. rewrite Hver.
  rewrite (bind_normal _ _ _ _ _ Hfind). reflexivity.
Qed.

(** The payload of a token does not depend on when it is verified. *)
Lemma jwt_verify_stable t1 t2 token secret d1 d2 :
  jwt_verify ext t1 token secret = inr d1 ->
  jwt_verify ext t2 token secret = inr d2 ->
  d2 = d1.
Proof.
  unfold jwt_verify. destruct (jwt_decode ext token secret) as [msg|d];
    [discriminate|].
  destruct (jwt_expired ext t1 token); [discriminate|].
  destruct (jwt_expired ext t2 token); [discriminate|].
  congruence.
Qed.

(** A token that decoded to a user is rejected wherever that user's
    record holds another token, or none. *)
Lemma refreshAccessToken_not_stored req w t0 w0 t decoded i :
  incomingRefreshToken req = Some t -> t <> "" ->
  jwt_verify ext t0 t (REFRESH_TOKEN_SECRET ext) = inr decoded ->
  claim_id decoded = Some i ->
  (forall u, findById (Some i) w = (Normal (Some u), w) ->
             refreshToken u <> Some t) ->
  w0 = w ->
  exists msg,
    refreshAccessToken ext req w = (Thrown (ApiError 401 msg), w0) /\
    (jwt_expired ext (now w) t = false ->
     is_Some (List.find (fun u => (_id u =? i)%nat) (users w)) ->
     msg = "refresh token is expired or used.").
Proof.
  intros Hin Ht Hver Hid Hother ->.
  destruct (jwt_verify ext (now w) t (REFRESH_TOKEN_SECRET ext))
    as [msg|d] eqn:Hver2.
  - destruct (refreshAccessToken_unverified _ _ _ _ Hin Ht Hver2)
      as [msg' Hrun].
    exists msg'. split; [exact Hrun|]. intros Hexp _. exfalso.
    unfold jwt_verify in Hver, Hver2.
    destruct (jwt_decode ext t (REFRESH_TOKEN_SECRET ext)); [discriminate|].
    rewrite Hexp in Hver2. discriminate.
  - pose proof (jwt_verify_stable _ _ _ _ _ _ Hver Hver2) as ->.
    destruct (List.find (fun u => (_id u =? i)%nat) (users w)) as [u|] eqn:Hf.
    + eexists. split; [|reflexivity].
      apply refreshAccessToken_mismatch with (decoded := decoded) (user := u)
                                             (t := t); try assumption.
      * unfold findById. now rewrite Hid, Hf.
      * apply Hother. unfold findById. now rewrite Hf.
    + eexists. split.
      * apply refreshAccessToken_no_user with (decoded := decoded) (t := t);
          try assumption.
        unfold findById. now rewrite Hid, Hf.
      * intros _ [x Hx]. discriminate Hx.
Qed.

End SessionFacts.

(** C4. A refresh call that passes every check signs a new pair and
    writes the new refresh token on the user's record, but the response
    does not carry it: the controller reads the key [newRefreshToken]
    of an object whose keys are [accessToken] and [refreshToken], so
    the [refreshToken] cookie and the [refreshToken] of the body are
    [undefined]. *)
Theorem refresh_response_lacks_new_refresh_token
    (ext : Collaborators) (req : Request) (w : World) (t : string)
    (decoded : Payload) (user : User) :
  incomingRefreshToken req = Some t -> t <> "" ->
  jwt_verify ext (now w) t (REFRESH_TOKEN_SECRET ext) = inr decoded ->
  findById (claim_id decoded) w = (Normal (Some user), w) ->
  refreshToken user = Some t ->
  exists resp w',
    refreshAccessToken ext req w = (Normal resp, w') /\
    findById (Some (_id user)) w'
    = (Normal (Some (set_refreshToken
                       (Some (signRefreshToken ext (now w) user)) user)), w') /\
    cookie resp
    = [("accessToken", Some (signAccessToken ext (now w) user));
       ("refreshToken", None)] /\
    data (json resp)
    = D_tokens (Some (signAccessToken ext (now w) user)) None.
Proof.
  intros Hin Ht Hver Hfind Hstored.
  do 2 eexists. split; [|split; [|split]].
  - exact (refreshAccessToken_match ext req w t decoded user
             Hin Ht Hver Hfind Hstored).
  - apply findById_found in Hfind as (i & _ & Hfi).
    pose proof (find_id_eq _ _ _ Hfi) as Hid.
    unfold findById. simpl.
    rewrite find_replace_doc with (s := user)
      (d := set_refreshToken (Some (signRefreshToken ext (now w) user)) user);
      [reflexivity | reflexivity | now rewrite Hid].
  - reflexivity.
  - reflexivity.
Qed.

Lemma refresh_response_lacks_new_refresh_token_run :
  exists resp w',
    refreshAccessToken Demo.ext (Demo.refresh_with "R1.1") Demo.world
      = (Normal resp, w') /\
    (refreshToken <$> List.find (fun u => (_id u =? 1)%nat) (users w'))
      = Some (Some "R1.11") /\
    cookie resp = [("accessToken", Some "A1.11"); ("refreshToken", None)] /\
    data (json resp) = D_tokens (Some "A1.11") None.
Proof.
  destruct (refresh_response_lacks_new_refresh_token Demo.ext
              (Demo.refresh_with "R1.1") Demo.world "R1.1"
              (mkPayload (Some 1) None None None) Demo.ann)
    as (resp & w' & Hrun & Hstored & Hcookie & Hdata).
  - reflexivity.
  - discriminate.
  - reflexivity.
  - reflexivity.
  - reflexivity.
  - exists resp, w'. split; [exact Hrun|]. split; [|split].
    + injection Hstored as Hstored. exact (f_equal (fmap refreshToken) Hstored).
    + exact Hcookie.
    + exact Hdata.
Defined.

(** ** Logout *)

Section LogoutFacts.

Variable ext : Collaborators.

Lemma logoutUser_run req w stored :
  omitUndefined ext = false ->
  findById (Some (_id (auth_user req))) w = (Normal (Some stored), w) ->
  logoutUser ext req w
  = (Normal (mkResponse 200 [] ["accessToken"; "refreshToken"]
               (mkApiResponse 200 D_empty "user logged out successfully.")),
     log (EvDbWrite (_id (auth_user req)))
       (with_users
          (replace_doc (_id (auth_user req)) (set_refreshToken None stored)
             (users w)) w)).
Proof.
  intros Hopt Hfind. apply findById_found in Hfind as (n & [= <-] & Hfind).
  unfold logoutUser.
  assert (Hcast : castUpdate ext [Set_refreshToken None]
                  = [Set_refreshToken None])
    by (unfold castUpdate; now rewrite Hopt).
  erewrite bind_normal; cycle 1.
  { apply findByIdAndUpdate_found with (stored := stored);
      [exact Hfind | now rewrite Hcast]. }
  rewrite Hcast. reflexivity.
Qed.

(** Under [omitUndefined] the update of [logoutUser] is empty, and the
    stored refresh token stays. *)
Lemma logoutUser_when_undefined_is_dropped req w stored :
  omitUndefined ext = true ->
  findById (Some (_id (auth_user req))) w = (Normal (Some stored), w) ->
  exists resp w',
    logoutUser ext req w = (Normal resp, w') /\
    (refreshToken <$> List.find (fun u => (_id u =? _id (auth_user req))%nat)
                        (users w'))
    = Some (refreshToken stored).
Proof.
  intros Hopt Hfind. apply findById_found in Hfind as (n & [= <-] & Hfind).
  unfold logoutUser.
  assert (Hcast : castUpdate ext [Set_refreshToken None] = [])
    by (unfold castUpdate; now rewrite Hopt).
  do 2 eexists. split.
  - erewrite bind_normal; cycle 1.
    { apply findByIdAndUpdate_found with (stored := stored);
        [exact Hfind | now rewrite Hcast]. }
    reflexivity.
  - rewrite Hcast. simpl.
    rewrite find_replace_doc with (s := stored) (d := stored);
      [reflexivity | now apply find_id_eq with (us := users w) | exact Hfind].
Qed.

End LogoutFacts.

(** The other store: when an [undefined] value of an update is written
    as [null], as Mongoose did before version 6, and the authenticated
    user is in the collection, [logoutUser] answers 200, clears both
    cookies, and the user's stored [refreshToken] is cleared.  A later
    refresh call that presents the token that was stored and verified
    before the logout is rejected with status 401, the world unchanged;
    unless the token has expired meanwhile, it is the comparison with
    the stored token that rejects it. *)
Lemma logout_clears_refresh_token
    (ext : Collaborators) (req : AuthRequest) (w : World) (stored : User) :
  omitUndefined ext = false ->
  findById (Some (_id (auth_user req))) w = (Normal (Some stored), w) ->
  exists resp w1,
    logoutUser ext req w = (Normal resp, w1) /\
    status resp = 200%Z /\
    clearCookie resp = ["accessToken"; "refreshToken"] /\
    (refreshToken <$> List.find (fun u => (_id u =? _id (auth_user req))%nat)
                        (users w1)) = Some None /\
    forall req2 w2 t decoded,
      refreshToken stored = Some t ->
      jwt_verify ext (now w) t (REFRESH_TOKEN_SECRET ext) = inr decoded ->
      claim_id decoded = Some (_id (auth_user req)) ->
      incomingRefreshToken req2 = Some t -> t <> "" ->
      users w2 = users w1 ->
      exists msg,
        refreshAccessToken ext req2 w2
        = (Thrown (ApiError (class_status UnauthorizedError) msg), w2) /\
        (jwt_expired ext (now w2) t = false ->
         msg = "refresh token is expired or used.").
Proof.
  intros Hopt Hfind.
  do 2 eexists. split; [now apply logoutUser_run with (stored := stored)|].
  pose proof Hfind as Hfind0.
  apply findById_found in Hfind0 as (n & [= <-] & Hf).
  assert (Hnew : List.find (fun u => (_id u =? _id (auth_user req))%nat)
                   (replace_doc (_id (auth_user req))
                      (set_refreshToken None stored) (users w))
                 = Some (set_refreshToken None stored)).
  { apply find_replace_doc with (s := stored); [|exact Hf].
    simpl. now apply find_id_eq with (us := users w). }
  split; [reflexivity|]. split; [reflexivity|]. split.
  - simpl. now rewrite Hnew.
  - intros req2 w2 t decoded Hst Hver Hid Hin Ht Husers.
    destruct (refreshAccessToken_not_stored ext req2 w2 (now w) w2 t decoded
                (_id (auth_user req)) Hin Ht Hver Hid) as (msg & Hrun & Hmsg).
    + intros u. unfold findById. rewrite Husers. simpl. rewrite Hnew.
      intros [= <-]. discriminate.
    + reflexivity.
    + exists msg. split; [exact Hrun|]. intros Hexp. apply Hmsg; [exact Hexp|].
      rewrite Husers. simpl. rewrite Hnew. eauto.
Qed.

Lemma logout_clears_refresh_token_run :
  exists resp w1,
    logoutUser Demo.ext (Demo.logout_of Demo.ann) Demo.world
      = (Normal resp, w1) /\
    (refreshToken <$> List.find (fun u => (_id u =? 1)%nat) (users w1))
      = Some None /\
    refreshAccessToken Demo.ext (Demo.refresh_with "R1.1") w1
      = (Thrown (ApiError 401 "refresh token is expired or used."), w1).
Proof.
  destruct (logout_clears_refresh_token Demo.ext (Demo.logout_of Demo.ann)
              Demo.world Demo.ann)
    as (resp & w1 & Hrun & _ & _ & Hcleared & Hlater).
  - reflexivity.
  - reflexivity.
  - exists resp, w1. split; [exact Hrun|]. split; [exact Hcleared|].
    destruct (Hlater (Demo.refresh_with "R1.1") w1 "R1.1"
                (mkPayload (Some 1) None None None))
      as (msg & Hrefresh & Hmsg).
    + reflexivity.
    + reflexivity.
    + reflexivity.
    + reflexivity.
    + discriminate.
    + reflexivity.
    + rewrite Hrefresh, Hmsg; [reflexivity|].
      injection Hrun as _ <-. reflexivity.
Defined.

(** C2. [logoutUser] is meant to delete the stored refresh token, and
    does not on a store that drops the keys of an update whose value is
    [undefined], as Mongoose does from version 6 on: when the
    authenticated user is in the collection and holds a refresh token,
    the call answers 200 and clears both cookies, but the record is
    found afterwards exactly as it was, token included, and a refresh
    call in the world that the logout left, with that token, is
    accepted with status 200 whenever the token still verifies. *)
Theorem logout_leaves_refresh_token
    (ext : Collaborators) (req : AuthRequest) (w : World) (stored : User)
    (t : string) :
  omitUndefined ext = true ->
  findById (Some (_id (auth_user req))) w = (Normal (Some stored), w) ->
  refreshToken stored = Some t ->
  exists resp w1,
    logoutUser ext req w = (Normal resp, w1) /\
    status resp = 200%Z /\
    clearCookie resp = ["accessToken"; "refreshToken"] /\
    findById (Some (_id (auth_user req))) w1 = (Normal (Some stored), w1) /\
    forall req2 decoded,
      incomingRefreshToken req2 = Some t -> t <> "" ->
      jwt_verify ext (now w1) t (REFRESH_TOKEN_SECRET ext) = inr decoded ->
      claim_id decoded = Some (_id (auth_user req)) ->
      exists resp2 w2,
        refreshAccessToken ext req2 w1 = (Normal resp2, w2) /\
        status resp2 = 200%Z.
Proof.
  intros Hopt Hfind Hst.
  pose proof Hfind as Hfind0.
  apply findById_found in Hfind0 as (n & [= <-] & Hf).
  assert (Hcast : castUpdate ext [Set_refreshToken None] = [])
    by (unfold castUpdate; now rewrite Hopt).
  assert (Hkept : List.find (fun u => (_id u =? _id (auth_user req))%nat)
                    (replace_doc (_id (auth_user req)) stored (users w))
                  = Some stored).
  { apply find_replace_doc with (s := stored); [|exact Hf].
    now apply find_id_eq with (us := users w). }
  do 2 eexists. split.
  { unfold logoutUser. erewrite bind_normal; cycle 1.
    { apply findByIdAndUpdate_found with (stored := stored);
        [exact Hf | now rewrite Hcast]. }
    rewrite Hcast. reflexivity. }
  split; [reflexivity|]. split; [reflexivity|]. split.
  - unfold findById. simpl. now rewrite Hkept.
  - intros req2 decoded Hin Ht Hver Hid.
    assert (Hfound : findById (claim_id decoded)
                       (log (EvDbWrite (_id (auth_user req)))
                          (with_users
                             (replace_doc (_id (auth_user req))
                                (fold_left apply_set [] stored) (users w)) w))
                     = (Normal (Some stored),
                        log (EvDbWrite (_id (auth_user req)))
                          (with_users
                             (replace_doc (_id (auth_user req))
                                (fold_left apply_set [] stored) (users w)) w)))
      by (rewrite Hid; unfold findById; simpl; now rewrite Hkept).
    do 2 eexists.
    split; [exact (refreshAccessToken_match ext req2 _ t decoded stored
                     Hin Ht Hver Hfound Hst) | reflexivity].
Qed.

Lemma logout_leaves_refresh_token_run :
  exists resp w1 resp2 w2,
    logoutUser Demo.ext_omitting (Demo.logout_of Demo.ann) Demo.world
      = (Normal resp, w1) /\
    status resp = 200%Z /\
    (refreshToken <$> List.find (fun u => (_id u =? 1)%nat) (users w1))
      = Some (Some "R1.1") /\
    refreshAccessToken Demo.ext_omitting (Demo.refresh_with "R1.1") w1
      = (Normal resp2, w2) /\
    status resp2 = 200%Z.
Proof.
  destruct (logout_leaves_refresh_token Demo.ext_omitting
              (Demo.logout_of Demo.ann) Demo.world Demo.ann "R1.1")
    as (resp & w1 & Hrun & Hstatus & _ & Hkept & Hlater).
  - reflexivity.
  - reflexivity.
  - reflexivity.
  - assert (Hnow : now w1 = 2)
      by (vm_compute in Hrun; now injection Hrun as _ <-).
    destruct (Hlater (Demo.refresh_with "R1.1")
                (mkPayload (Some 1) None None None))
      as (resp2 & w2 & Hrefresh & Hstatus2).
    + reflexivity.
    + discriminate.
    + rewrite Hnow. reflexivity.
    + reflexivity.
    + exists resp, w1, resp2, w2. split; [exact Hrun|].
      split; [exact Hstatus|]. split.
      * injection Hkept as Hkept. exact (f_equal (fmap refreshToken) Hkept).
      * split; [exact Hrefresh | exact Hstatus2].
Defined.

(** ** Login *)

Section LoginFacts.

Variable ext : Collaborators.

Lemma some_blank_two a b w :
  some_blank [Some a; Some b] w
  = (Normal ((Js.trim a =? "") || (Js.trim b =? "")), w).
Proof.
  unfold some_blank.
  destruct (Js.trim a =? ""); [reflexivity|].
  destruct (Js.trim b =? ""); reflexivity.
Qed.

(** With a password in the body the empty-field check cannot throw. *)
Lemma any_field_blank_total uname mail p w :
  exists b, any_field_blank uname mail (Some p) w = (Normal b, w).
Proof.
  unfold any_field_blank, bind.
  destruct (Js.truthy uname) eqn:Hu.
  - apply truthy_inv in Hu as (u & -> & _). rewrite some_blank_two.
    destruct (_ || _); [eexists; reflexivity|].
    destruct (Js.truthy mail) eqn:Hm; [|eexists; reflexivity].
    apply truthy_inv in Hm as (m & -> & _). rewrite some_blank_two. eauto.
  - unfold ret at 1.
    destruct (Js.truthy mail) eqn:Hm; [|eexists; reflexivity].
    apply truthy_inv in Hm as (m & -> & _). rewrite some_blank_two. eauto.
Qed.

Lemma any_field_blank_one_identifier uname mail ident p w :
  (uname = Some ident /\ Js.truthy mail = false) \/
  (mail = Some ident /\ Js.truthy uname = false) ->
  Js.trim ident <> "" -> Js.trim p <> "" ->
  any_field_blank uname mail (Some p) w = (Normal false, w).
Proof.
  intros Hone Hi Hp.
  assert (Hident : Js.truthy (Some ident) = true).
  { apply truthy_Some. intros ->. now apply Hi. }
  apply String.eqb_neq in Hi, Hp.
  unfold any_field_blank, bind.
  destruct Hone as [[-> Hm] | [-> Hu]].
  - rewrite Hident, some_blank_two, Hi, Hp, Hm. reflexivity.
  - rewrite Hu, Hident. unfold ret at 1. rewrite some_blank_two, Hi, Hp.
    reflexivity.
Qed.

(** What [login_lookup] can throw. *)
Lemma login_lookup_throws b w e w' :
  login_lookup ext b w = (Thrown e, w') ->
  e = ApiError 404 "user does not exist." \/
  e = LibError "Error" "data and hash arguments required" \/
  e = ApiError 400 "password incorrect." \/
  e = ApiError 500
        "Something went wrong while generating access and refresh tokens.".
Proof.
  unfold login_lookup, bind at 1, findOne_or.
  destruct (List.find _ (users w)) as [user|]; cycle 1.
  { unfold throw. intros [= <- _]. now left. }
  unfold bind at 1, isPasswordCorrect.
  destruct (body_password b) as [p|]; cycle 1.
  { unfold throw. intros [= <- _]. right. now left. }
  unfold ret at 1. destruct (bcrypt_compare ext p (password user)); cbn [negb];
    cycle 1.
  { unfold throw. intros [= <- _]. right. right. now left. }
  unfold bind at 1.
  destruct (generateAccessAndRefreshTokens ext (_id user) w)
    as [[tokens|e0] w0] eqn:Hgen.
  - unfold bind, findById_select, findById, ret. discriminate.
  - intros [= <- _]. right. right. right.
    now apply generateAccessAndRefreshTokens_throws in Hgen.
Qed.

Lemma login_lookup_wrong_password b w user p :
  findOne_or (body_username b) (body_email b) w = (Normal (Some user), w) ->
  body_password b = Some p ->
  bcrypt_compare ext p (password user) = false ->
  login_lookup ext b w = (Thrown (ApiError 400 "password incorrect."), w).
Proof.
  intros Hfind Hp Hcmp. unfold login_lookup.
  rewrite (bind_normal _ _ _ _ _ Hfind).
  unfold bind, isPasswordCorrect. rewrite Hp. unfold ret.
  now rewrite Hcmp.
Qed.

End LoginFacts.

(** C3. A login call whose identifier finds a user and whose password
    does not verify against the stored hash throws an [ApiError] whose
    status is 400, that of a ValidationError and not the 401 of an
    UnauthorizedError, and the world is unchanged: no token is signed
    and no refresh token is written.  When the request passes the
    format checks the message is the one of the password check. *)
Theorem login_wrong_password_status
    (ext : Collaborators) (req : Request) (w : World) (user : User)
    (p : string) :
  let b := req_body req in
  findOne_or (body_username b) (body_email b) w = (Normal (Some user), w) ->
  body_password b = Some p ->
  bcrypt_compare ext p (password user) = false ->
  (exists msg,
      loginUser ext req w
      = (Thrown (ApiError (class_status ValidationError) msg), w)) /\
  (any_field_blank (body_username b) (body_email b) (Some p) w
     = (Normal false, w) ->
   login_format_ok ext (body_username b) (body_email b) = true ->
   (Js.truthy (body_username b) || Js.truthy (body_email b)) = true ->
   loginUser ext req w = (Thrown (ApiError 400 "password incorrect."), w)).
Proof.
  intros b Hfind Hp Hcmp.
  pose proof (login_lookup_wrong_password ext b w user p Hfind Hp Hcmp)
    as Hlookup.
  split.
  - unfold loginUser. fold b.
    destruct (negb (Js.truthy (body_username b))
              && negb (Js.truthy (body_email b))).
    { unfold throw. eauto. }
    rewrite Hp.
    destruct (any_field_blank_total (body_username b) (body_email b) p w)
      as [blank Hblank].
    rewrite (bind_normal _ _ _ _ _ Hblank).
    destruct blank. { unfold throw. eauto. }
    destruct (negb (login_format_ok ext (body_username b) (body_email b))).
    { unfold throw. eauto. }
    rewrite Hlookup. eauto.
  - intros Hblank Hformat Hident. unfold loginUser. fold b.
    apply orb_true_iff in Hident.
    assert (Hguard : negb (Js.truthy (body_username b))
                     && negb (Js.truthy (body_email b)) = false)
      by (destruct Hident as [-> | ->]; [reflexivity | apply andb_false_r]).
    rewrite Hguard, Hp, (bind_normal _ _ _ _ _ Hblank), Hformat.
    exact Hlookup.
Qed.

Lemma login_wrong_password_status_run :
  loginUser Demo.ext (Demo.login_with (Some "annlee") None (Some "wrong"))
    Demo.world
  = (Thrown (ApiError 400 "password incorrect."), Demo.world).
Proof.
  apply (login_wrong_password_status Demo.ext
           (Demo.login_with (Some "annlee") None (Some "wrong")) Demo.world
           Demo.ann "wrong").
  - reflexivity.
  - reflexivity.
  - reflexivity.
  - reflexivity.
  - reflexivity.
  - reflexivity.
Defined.

(** The same condition in [changeCurrentPassword] answers 401. *)
Lemma changeCurrentPassword_wrong_password
    (ext : Collaborators) (req : AuthRequest) (w : World) (user : User)
    (p : string) :
  findById (Some (_id (auth_user req))) w = (Normal (Some user), w) ->
  body_oldPassword (auth_body req) = Some p ->
  bcrypt_compare ext p (password user) = false ->
  changeCurrentPassword ext req w
  = (Thrown (ApiError 401 "password incorrect."), w).
Proof.
  intros Hfind Hp Hcmp. unfold changeCurrentPassword.
  rewrite (bind_normal _ _ _ _ _ Hfind).
  unfold bind, isPasswordCorrect. rewrite Hp. unfold ret.
  now rewrite Hcmp.
Qed.

Section LoginGuard.

Variable ext : Collaborators.

Lemma some_blank_throws fields w e w' :
  some_blank fields w = (Thrown e, w') ->
  e = TypeError "Cannot read properties of undefined (reading 'trim')".
Proof.
  induction fields as [|[s|] r IH]; simpl.
  - discriminate.
  - destruct (Js.trim s =? ""); [discriminate | exact IH].
  - unfold throw. now intros [= <- _].
Qed.

Lemma any_field_blank_throws uname mail pw w e w' :
  any_field_blank uname mail pw w = (Thrown e, w') ->
  e = TypeError "Cannot read properties of undefined (reading 'trim')".
Proof.
  unfold any_field_blank. intros H.
  apply bind_inv_thrown in H as [H | (left & w1 & _ & H)].
  - destruct (Js.truthy uname); [|discriminate].
    now apply some_blank_throws in H.
  - destruct left; [discriminate|].
    destruct (Js.truthy mail); [|discriminate].
    now apply some_blank_throws in H.
Qed.

Lemma loginUser_one_identifier req w ident p :
  let b := req_body req in
  body_password b = Some p -> Js.trim p <> "" -> Js.trim ident <> "" ->
  (body_email b = Some ident /\ Js.truthy (body_username b) = false /\
   validator_isEmail ext ident = true) \/
  (body_username b = Some ident /\ Js.truthy (body_email b) = false /\
   validator_isLowercase ext ident = true) ->
  loginUser ext req w = login_lookup ext b w.
Proof.
  intros b Hp Hpn Hin Hone.
  assert (Hident : Js.truthy (Some ident) = true).
  { apply truthy_Some. intros ->. now apply Hin. }
  assert (Hblank : any_field_blank (body_username b) (body_email b) (Some p) w
                   = (Normal false, w)).
  { apply any_field_blank_one_identifier with (ident := ident);
      [tauto | assumption | assumption]. }
  unfold loginUser. fold b. rewrite Hp.
  destruct Hone as [(Hm & Hu & Hfmt) | (Hu & Hm & Hfmt)].
  - rewrite Hu. rewrite Hm in *. rewrite Hident. cbn [negb andb].
    rewrite (bind_normal _ _ _ _ _ Hblank).
    unfold login_format_ok. now rewrite Hident, Hfmt.
  - rewrite Hm. rewrite Hu in *. rewrite Hident. cbn [negb andb].
    rewrite (bind_normal _ _ _ _ _ Hblank).
    unfold login_format_ok.
    destruct (body_email b) as [m|] eqn:Hmail.
    + now rewrite Hm, Hident, Hfmt.
    + now rewrite Hident, Hfmt.
Qed.

End LoginGuard.

(** C8. [loginUser] refuses a request for want of an identifier, with
    the 400 of a ValidationError and the message "username or email is
    required.", exactly when both [username] and [email] are absent
    (undefined or empty).  One identifier is enough to proceed: with a
    non-blank password and only a well-formed [email], or only a
    lowercase [username], the controller goes on to look the user up. *)
Theorem login_requires_one_identifier
    (ext : Collaborators) (req : Request) (w : World) :
  let b := req_body req in
  ((exists w',
       loginUser ext req w
       = (Thrown (ApiError (class_status ValidationError)
                    "username or email is required."), w'))
   <-> Js.truthy (body_username b) = false /\ Js.truthy (body_email b) = false)
  /\
  (forall ident p,
      body_password b = Some p -> Js.trim p <> "" -> Js.trim ident <> "" ->
      (body_email b = Some ident /\ Js.truthy (body_username b) = false /\
       validator_isEmail ext ident = true) \/
      (body_username b = Some ident /\ Js.truthy (body_email b) = false /\
       validator_isLowercase ext ident = true) ->
      loginUser ext req w = login_lookup ext b w).
Proof.
  intros b. split; [split|].
  - intros [w' Hrun]. unfold loginUser in Hrun. fold b in Hrun.
    destruct (Js.truthy (body_username b)), (Js.truthy (body_email b));
      cbn [negb andb] in Hrun; try (split; reflexivity); exfalso.
    all: apply bind_inv_thrown in Hrun as [Hrun | (blank & w1 & _ & Hrun)];
      [ apply any_field_blank_throws in Hrun; discriminate Hrun | ].
    all: destruct blank; [discriminate Hrun|].
    all: destruct (negb (login_format_ok ext (body_username b) (body_email b)));
      [discriminate Hrun|].
    all: apply login_lookup_throws in Hrun as [H | [H | [H | H]]];
      discriminate H.
  - intros [Hu Hm]. exists w. unfold loginUser. fold b.
    now rewrite Hu, Hm.
  - intros ident p. apply loginUser_one_identifier.
Qed.

Lemma login_requires_one_identifier_run :
  loginUser Demo.ext (Demo.login_with None None (Some "secret123")) Demo.world
    = (Thrown (ApiError 400 "username or email is required."), Demo.world)
  /\ loginUser Demo.ext
       (Demo.login_with None (Some "ann@x.com") (Some "secret123")) Demo.world
     = login_lookup Demo.ext
         (req_body (Demo.login_with None (Some "ann@x.com") (Some "secret123")))
         Demo.world
  /\ loginUser Demo.ext
       (Demo.login_with (Some "annlee") None (Some "secret123")) Demo.world
     = login_lookup Demo.ext
         (req_body (Demo.login_with (Some "annlee") None (Some "secret123")))
         Demo.world.
Proof.
  split; [reflexivity|]. split.
  - apply (proj2 (login_requires_one_identifier Demo.ext
                    (Demo.login_with None (Some "ann@x.com") (Some "secret123"))
                    Demo.world) "ann@x.com" "secret123").
    + reflexivity.
    + discriminate.
    + discriminate.
    + left. repeat split.
  - apply (proj2 (login_requires_one_identifier Demo.ext
                    (Demo.login_with (Some "annlee") None (Some "secret123"))
                    Demo.world) "annlee" "secret123").
    + reflexivity.
    + discriminate.
    + discriminate.
    + right. repeat split.
Defined.

(** The earlier revision refused a request that carries one identifier
    only. *)
Lemma earlier_login_guard_needs_both (b : Body) :
  earlier_login_guard b = false
  <-> Js.truthy (body_username b) = true /\ Js.truthy (body_email b) = true.
Proof.
  unfold earlier_login_guard.
  destruct (Js.truthy (body_username b)), (Js.truthy (body_email b));
    simpl; intuition discriminate.
Qed.

(** ** Projections *)

Lemma select_excluded (excluded : list string) (d : gmap string JsValue)
    (k : string) :
  k ∈ excluded -> select excluded d !! k = None.
Proof.
  intros Hk. unfold select. apply map_lookup_filter_None. right.
  intros x _ Hn. now apply Hn.
Qed.

(** C9. [updateUserDetails] without a [fullName] or without an [email]
    throws an [ApiError] whose status is 401, that of an
    UnauthorizedError and not the 400 of a ValidationError; the world is
    unchanged.  When it answers, the status is 200 and the user in the
    body holds neither [password] nor [refreshToken]. *)
Theorem update_details_missing_field_status
    (ext : Collaborators) (req : AuthRequest) (w : World) :
  (Js.truthy (body_fullName (auth_body req)) = false \/
   Js.truthy (body_email (auth_body req)) = false ->
   updateUserDetails ext req w
   = (Thrown (ApiError (class_status UnauthorizedError)
                "fullname and email are required."), w))
  /\
  (forall resp w',
      updateUserDetails ext req w = (Normal resp, w') ->
      status resp = 200%Z /\
      exists user,
        data (json resp) = D_user user /\
        forall doc, user = Some doc ->
                    doc !! "password" = None /\ doc !! "refreshToken" = None).
Proof.
  split.
  - intros Hmissing. unfold updateUserDetails.
    destruct (body_fullName (auth_body req)) as [name|]; [|reflexivity].
    destruct (body_email (auth_body req)) as [mail|]; [|reflexivity].
    destruct Hmissing as [-> | ->]; [reflexivity|].
    now rewrite orb_true_r.
  - intros resp w'. unfold updateUserDetails.
    destruct (body_fullName (auth_body req)) as [name|]; [|discriminate].
    destruct (body_email (auth_body req)) as [mail|]; [|discriminate].
    destruct (_ || _); [discriminate|].
    intros Hrun. apply bind_inv_normal in Hrun as (user & w1 & _ & Hret).
    unfold ret in Hret. injection Hret as <- _.
    split; [reflexivity|]. eexists. split; [reflexivity|].
    intros doc Hdoc. destruct user as [u|]; [|discriminate].
    injection Hdoc as <-. unfold compose.
    split; apply select_excluded; set_solver.
Qed.

Lemma update_details_missing_field_status_run :
  updateUserDetails Demo.ext
    (Demo.details_of Demo.ann None (Some "ann@y.com")) Demo.world
  = (Thrown (ApiError 401 "fullname and email are required."), Demo.world).
Proof.
  apply (proj1 (update_details_missing_field_status Demo.ext
                  (Demo.details_of Demo.ann None (Some "ann@y.com"))
                  Demo.world)).
  left. reflexivity.
Defined.

(** ** Registration *)

Section RegisterFacts.

Variable ext : Collaborators.

Lemma validator_call_world f x w r w' :
  validator_call f x w = (r, w') -> w' = w.
Proof.
  unfold validator_call, ret, throw. destruct x; now intros [= _ <-].
Qed.

Lemma avatarLocalPath_world files w r w' :
  avatarLocalPath files w = (r, w') -> w' = w.
Proof.
  unfold avatarLocalPath, ret, throw.
  destruct files as [fs|]; [destruct (files_avatar fs)|]; now intros [= _ <-].
Qed.

Lemma unlinkSync_effect x w r w' :
  unlinkSync x w = (r, w') ->
  users w' = users w /\ length (trace w) <= length (trace w').
Proof.
  unfold unlinkSync, throw. destruct x as [p|].
  - destruct (bool_decide (p ∈ disk w)); intros [= _ <-]; simpl;
      rewrite length_app; split; [reflexivity | lia | reflexivity | lia].
  - intros [= _ <-]. split; [reflexivity | lia].
Qed.

(** An upload never touches the collection, and a call with a non-empty
    path always reaches the remote service. *)
Lemma uploadOnCloudinary_effect x w r w' :
  uploadOnCloudinary ext x w = (r, w') ->
  users w' = users w /\
  (if Js.truthy x then length (trace w) < length (trace w')
   else trace w' = trace w).
Proof.
  unfold uploadOnCloudinary, try_catch.
  destruct x as [p|]; cycle 1.
  { unfold ret. intros [= _ <-]. now split. }
  destruct (Js.truthy (Some p)); cbn [negb]; cycle 1.
  { unfold ret. intros [= _ <-]. now split. }
  unfold bind at 1, uploader_upload.
  assert (Hlog : length (trace w) < length (trace (log (EvUpload p) w)))
    by (simpl; rewrite length_app; simpl; lia).
  destruct (cloudinary_upload ext w p) as [a|].
  - unfold bind at 1.
    destruct (unlinkSync (Some p) (log (EvUpload p) w)) as [[[]|e] w1] eqn:H1.
    + unfold ret. intros [= _ <-].
      apply unlinkSync_effect in H1 as [Hu Ht]. simpl in *. split; [exact Hu|lia].
    + unfold bind.
      destruct (unlinkSync (Some p) w1) as [[[]|e2] w2] eqn:H2;
        unfold ret; intros [= _ <-];
        apply unlinkSync_effect in H1 as [Hu1 Ht1];
        apply unlinkSync_effect in H2 as [Hu2 Ht2]; simpl in *;
        (split; [congruence | lia]).
  - unfold bind.
    destruct (unlinkSync (Some p) (log (EvUpload p) w)) as [[[]|e2] w2] eqn:H2;
      unfold ret; intros [= _ <-];
      apply unlinkSync_effect in H2 as [Hu2 Ht2]; simpl in *;
      (split; [congruence | lia]).
Qed.

Lemma id_le_list_max (u : User) (us : list User) :
  In u us -> _id u <= list_max (map _id us).
Proof.
  induction us as [|v r IH]; simpl; [tauto|].
  intros [-> | H]; [lia|]. specialize (IH H). lia.
Qed.

Lemma find_fresh (d : User) (us : list User) :
  _id d = fresh_id us ->
  List.find (fun u => (_id u =? _id d)%nat) (us ++ [d]) = Some d.
Proof.
  intros Hd.
  assert (Hold : forall u, In u us -> (_id u =? _id d)%nat = false).
  { intros u Hu. apply Nat.eqb_neq. apply id_le_list_max in Hu.
    rewrite Hd. unfold fresh_id. lia. }
  clear Hd. induction us as [|v r IH]; simpl.
  - now rewrite Nat.eqb_refl.
  - rewrite (Hold v) by now left. apply IH. intros u Hu. apply Hold. now right.
Qed.

(** A created document holds the hash of the submitted password, no
    refresh token, and is appended to the collection. *)
Lemma create_inv f w u w' :
  create ext f w = (Normal u, w') ->
  exists pw,
    new_password f = Some pw /\
    password u = bcrypt_hash ext pw 10 /\
    refreshToken u = None /\
    _id u = fresh_id (users w) /\
    users w' = (users w ++ [u])%list /\
    trace w' = (trace w ++ [EvDbWrite (_id u)])%list.
Proof.
  unfold create.
  destruct (required _) as [fn|]; [|discriminate].
  destruct (required _) as [em|]; [|discriminate].
  destruct (required _) as [un|]; [|discriminate].
  destruct (required _) as [av|]; [|discriminate].
  destruct (required (new_password f)) as [pw|] eqn:Hpw; [|discriminate].
  destruct (existsb _ _); [discriminate|].
  intros [= <- <-].
  exists pw. split; [|repeat split].
  unfold required in Hpw. destruct (new_password f) as [s|]; [|discriminate].
  destruct (s =? ""); congruence.
Qed.

Lemma create_trace f w r w' :
  create ext f w = (r, w') -> length (trace w) <= length (trace w').
Proof.
  unfold create.
  destruct (required _); [|now intros [= _ <-]].
  destruct (required _); [|now intros [= _ <-]].
  destruct (required _); [|now intros [= _ <-]].
  destruct (required _); [|now intros [= _ <-]].
  destruct (required _); [|now intros [= _ <-]].
  destruct (existsb _ _); intros [= _ <-]; [lia|].
  simpl. rewrite length_app. lia.
Qed.

Lemma findById_select_world i excluded w r w' :
  findById_select i excluded w = (r, w') -> w' = w.
Proof. unfold findById_select, bind, findById, ret. now intros [= _ <-]. Qed.

Lemma upload_trace_le x w r w' :
  uploadOnCloudinary ext x w = (r, w') ->
  length (trace w) <= length (trace w').
Proof.
  intros H. apply uploadOnCloudinary_effect in H as [_ H].
  destruct (Js.truthy x); [lia | now rewrite H].
Qed.

(** Once the avatar's path has passed the check of line 73, every way
    out of [registerUser] has called the remote upload. *)
Lemma register_after_avatar_check b p coverPath w r w' :
  Js.truthy p = true ->
  (let* avatar := uploadOnCloudinary ext p in
   let* coverImage := uploadOnCloudinary ext coverPath in
   match avatar with
   | None => throw (ApiError 400 "avatar is required.")
   | Some avatar =>
       let* user :=
         create ext
           (mkNewUser (body_fullName b) (url avatar) (public_id avatar)
              (from_option url "" coverImage)
              (from_option public_id "" coverImage)
              (Js.toLowerCase (default "" (body_username b)))
              (body_email b) (body_password b)) in
       let* createdUser :=
         findById_select (Some (_id user)) excluded_fields in
       match createdUser with
       | None =>
           throw (ApiError 500
                    "Something went wrong while registering the user.")
       | Some createdUser =>
           ret (mkResponse 201 [] []
                  (mkApiResponse 200 (D_doc createdUser)
                     "User registered successfully!"))
       end
   end) w = (r, w') ->
  length (trace w) < length (trace w').
Proof.
  intros Hp H.
  apply bind_inv in H as (r1 & w1 & H1 & H).
  apply uploadOnCloudinary_effect in H1 as [_ H1]. rewrite Hp in H1.
  destruct r1 as [avatar|e]; [|destruct H as [_ ->]; exact H1].
  apply bind_inv in H as (r2 & w2 & H2 & H).
  apply upload_trace_le in H2.
  destruct r2 as [coverImage|e]; [|destruct H as [_ ->]; lia].
  destruct avatar as [avatar|]; [|unfold throw in H; injection H as _ <-; lia].
  apply bind_inv in H as (r3 & w3 & H3 & H).
  apply create_trace in H3.
  destruct r3 as [user|e]; [|destruct H as [_ ->]; lia].
  apply bind_inv in H as (r4 & w4 & H4 & H).
  apply findById_select_world in H4 as ->.
  destruct r4 as [[doc|]|e].
  - unfold ret in H. injection H as _ <-. lia.
  - unfold throw in H. injection H as _ <-. lia.
  - destruct H as [_ ->]. lia.
Qed.

Lemma required_Some s : s <> "" -> required (Some s) = Some s.
Proof.
  intros H. unfold required. destruct (String.eqb_spec s ""); [contradiction|].
  reflexivity.
Qed.

Lemma find_none_fresh (us : list User) (un em : option string) :
  Forall (fun u => matches un (username u) = false /\
                   matches em (email u) = false) us ->
  List.find (fun u => matches un (username u) || matches em (email u)) us
  = None.
Proof.
  induction 1 as [|u r [Hu Hm] _ IH]; simpl; [reflexivity|].
  now rewrite Hu, Hm.
Qed.

Lemma create_succeeds f w fn em pw :
  new_fullName f = Some fn -> Js.trim fn <> "" ->
  new_email f = Some em -> Js.trim em <> "" ->
  Js.trim (new_username f) <> "" ->
  new_avatar f <> "" ->
  new_password f = Some pw -> pw <> "" ->
  Forall (fun u =>
            username u <> Js.toLowerCase (Js.trim (new_username f)) /\
            email u <> Js.toLowerCase (Js.trim em)) (users w) ->
  exists doc,
    create ext f w
    = (Normal doc, log (EvDbWrite (_id doc)) (with_users (users w ++ [doc]) w)) /\
    _id doc = fresh_id (users w).
Proof.
  intros Hfn Hfn' Hem Hem' Hun Hav Hpw Hpw' Hfresh.
  unfold create. rewrite Hfn, Hem, Hpw. cbn [fmap option_fmap option_map compose].
  rewrite !required_Some; try assumption;
    try (intros E; apply toLowerCase_empty in E; contradiction).
  assert (Hex : existsb
            (fun u => (username u =? Js.toLowerCase (Js.trim (new_username f)))
                      || (email u =? Js.toLowerCase (Js.trim em))) (users w)
          = false).
  { induction Hfresh as [|u r [Hu Hm] _ IH]; simpl; [reflexivity|].
    apply String.eqb_neq in Hu, Hm. now rewrite Hu, Hm. }
  rewrite Hex. eexists. split; reflexivity.
Qed.

Lemma cover_upload_returns cover p w :
  Js.truthy cover = false \/
  (exists cp, cover = Some cp /\ cp <> "" /\ cp <> p /\ cp ∈ disk w) ->
  let w1 := log (EvUnlink p) (with_disk (disk w ∖ {[p]}) (log (EvUpload p) w)) in
  exists c w2,
    uploadOnCloudinary ext cover w1 = (Normal c, w2) /\ users w2 = users w.
Proof.
  intros [Hfalsy | (cp & -> & Hne & Hp & Hin)] w1.
  - exists None, w1. split; [now apply uploadOnCloudinary_falsy | reflexivity].
  - do 2 eexists. split.
    + apply uploadOnCloudinary_present; [exact Hne|].
      simpl. apply elem_of_difference. split; [exact Hin|].
      intros E%elem_of_singleton. now apply Hp.
    + reflexivity.
Qed.

Lemma registerUser_succeeds req w fn em un plain fs p rest asset :
  let b := req_body req in
  body_fullName b = Some fn -> body_email b = Some em ->
  body_username b = Some un -> body_password b = Some plain ->
  Js.trim fn <> "" -> Js.trim em <> "" -> Js.trim un <> "" ->
  Js.trim plain <> "" ->
  validator_isEmail ext em = true -> validator_isLowercase ext un = true ->
  Forall (fun u =>
            username u <> un /\ email u <> em /\
            username u <> Js.toLowerCase (Js.trim (Js.toLowerCase un)) /\
            email u <> Js.toLowerCase (Js.trim em)) (users w) ->
  req_files req = Some fs ->
  files_avatar fs = Some (mkFile (Some p) :: rest) ->
  p <> "" -> p ∈ disk w ->
  cloudinary_upload ext w p = Some asset -> url asset <> "" ->
  (Js.truthy (coverImageLocalPath (req_files req)) = false \/
   exists cp, coverImageLocalPath (req_files req) = Some cp /\
              cp <> "" /\ cp <> p /\ cp ∈ disk w) ->
  exists resp w',
    registerUser ext req w = (Normal resp, w') /\ status resp = 201%Z.
Proof.
  intros b Hfn Hem Hun Hpw Tfn Tem Tun Tpw Vem Vun Hnew Hfiles Havatar Hp Hin
    Hup Hurl Hcover.
  unfold registerUser. fold b. rewrite Hfn, Hem, Hun, Hpw.
  cbn [existsb]. rewrite !blank_false by assumption. cbn [orb].
  unfold validator_call at 1. unfold bind at 1, ret at 1. rewrite Vem.
  cbn [negb]. unfold validator_call at 1. unfold bind at 1, ret at 1.
  rewrite Vun. cbn [negb].
  unfold bind at 1, findOne_or. rewrite find_none_fresh; cycle 1.
  { eapply Forall_impl; [exact Hnew|]. intros u (H1 & H2 & _ & _). simpl.
    split; apply String.eqb_neq; congruence. }
  unfold avatarLocalPath. rewrite Hfiles, Havatar.
  unfold bind at 1, ret at 1. cbn [head mbind option_bind path].
  rewrite (truthy_Some p Hp). cbn [negb].
  rewrite (bind_normal _ _ _ _ _ (uploadOnCloudinary_present ext p w Hp Hin)).
  rewrite Hup.
  destruct (cover_upload_returns _ p w Hcover) as (c & w2 & Hc & Husers).
  rewrite <- Hfiles. rewrite (bind_normal _ _ _ _ _ Hc).
  destruct (create_succeeds
              (mkNewUser (Some fn) (url asset) (public_id asset)
                 (from_option url "" c) (from_option public_id "" c)
                 (Js.toLowerCase (default "" (Some un))) (Some em) (Some plain))
              w2 fn em plain) as (doc & Hcreate & Hid); try reflexivity;
    try assumption.
  { cbn [new_username default from_option id]. rewrite toLowerCase_trim.
    intros E%toLowerCase_empty. contradiction. }
  { now apply trim_nonempty. }
  { rewrite Husers. eapply Forall_impl; [exact Hnew|].
    intros u (_ & _ & H3 & H4). now split. }
  rewrite (bind_normal _ _ _ _ _ Hcreate).
  unfold findById_select, bind, findById, ret. cbn [users log with_users].
  rewrite find_fresh by (now rewrite Hid, Husers).
  do 2 eexists. split; reflexivity.
Qed.
End RegisterFacts.

(** C7. A registration with valid inputs (non-blank fields, a well-formed
    email, a lowercase username, neither taken) whose avatar file is on
    disk and uploads answers 201.  Every registration that answers
    appends one user whose stored [password] is the bcrypt hash (cost
    10) of the submitted plaintext, hence differs from the plaintext
    whenever the hash does, and the document returned in the body holds
    neither [password] nor [refreshToken]. *)
Theorem register_stores_hash_and_hides_secrets
    (ext : Collaborators) (req : Request) (w : World) (plain : string) :
  let b := req_body req in
  body_password b = Some plain ->
  bcrypt_hash ext plain 10 <> plain ->
  (forall fn em un fs p rest asset,
      body_fullName b = Some fn -> body_email b = Some em ->
      body_username b = Some un ->
      Js.trim fn <> "" -> Js.trim em <> "" -> Js.trim un <> "" ->
      Js.trim plain <> "" ->
      validator_isEmail ext em = true -> validator_isLowercase ext un = true ->
      Forall (fun u =>
                username u <> un /\ email u <> em /\
                username u <> Js.toLowerCase (Js.trim (Js.toLowerCase un)) /\
                email u <> Js.toLowerCase (Js.trim em)) (users w) ->
      req_files req = Some fs ->
      files_avatar fs = Some (mkFile (Some p) :: rest) ->
      p <> "" -> p ∈ disk w ->
      cloudinary_upload ext w p = Some asset -> url asset <> "" ->
      (Js.truthy (coverImageLocalPath (req_files req)) = false \/
       exists cp, coverImageLocalPath (req_files req) = Some cp /\
                  cp <> "" /\ cp <> p /\ cp ∈ disk w) ->
      exists resp w',
        registerUser ext req w = (Normal resp, w') /\ status resp = 201%Z)
  /\
  (forall resp w',
      registerUser ext req w = (Normal resp, w') ->
      exists user doc,
        users w' = (users w ++ [user])%list /\
        findById (Some (_id user)) w' = (Normal (Some user), w') /\
        password user = bcrypt_hash ext plain 10 /\
        password user <> plain /\
        status resp = 201%Z /\
        data (json resp) = D_doc doc /\
        doc = select excluded_fields (toObject user) /\
        doc !! "password" = None /\
        doc !! "refreshToken" = None).
Proof.
  intros b Hplain Hhash. split.
  { intros fn em un fs p rest asset Hfn Hem Hun.
    now apply registerUser_succeeds. }
  intros resp w' Hrun. unfold registerUser in Hrun. fold b in Hrun.
  destruct (existsb Js.blank _); [discriminate|].
  apply bind_inv_normal in Hrun as (isEmail & w1 & Hw1 & Hrun).
  apply validator_call_world in Hw1 as ->.
  destruct (negb isEmail); [discriminate|].
  apply bind_inv_normal in Hrun as (isLowercase & w2 & Hw2 & Hrun).
  apply validator_call_world in Hw2 as ->.
  destruct (negb isLowercase); [discriminate|].
  apply bind_inv_normal in Hrun as (existedUser & w3 & Hw3 & Hrun).
  unfold findOne_or in Hw3. injection Hw3 as _ <-.
  destruct existedUser; [discriminate|].
  apply bind_inv_normal in Hrun as (avatarPath & w4 & Hw4 & Hrun).
  apply avatarLocalPath_world in Hw4 as ->.
  destruct (negb (Js.truthy avatarPath)); [discriminate|].
  apply bind_inv_normal in Hrun as (avatar & w5 & Hw5 & Hrun).
  apply uploadOnCloudinary_effect in Hw5 as [Hu5 _].
  apply bind_inv_normal in Hrun as (coverImage & w6 & Hw6 & Hrun).
  apply uploadOnCloudinary_effect in Hw6 as [Hu6 _].
  destruct avatar as [avatar|]; [|discriminate].
  apply bind_inv_normal in Hrun as (user & w7 & Hcreate & Hrun).
  apply create_inv in Hcreate
    as (pw & Hpw & Hstored & _ & Hid & Husers & _).
  cbn [new_password] in Hpw. rewrite Hplain in Hpw. injection Hpw as <-.
  assert (Hfound : findById (Some (_id user)) w7 = (Normal (Some user), w7)).
  { unfold findById. rewrite Husers. now rewrite find_fresh. }
  apply bind_inv_normal in Hrun as (createdUser & w8 & Hsel & Hrun).
  unfold findById_select in Hsel.
  rewrite (bind_normal _ _ _ _ _ Hfound) in Hsel.
  unfold ret in Hsel. injection Hsel as <- <-.
  cbn [fmap option_fmap option_map] in Hrun.
  unfold ret in Hrun. injection Hrun as <- <-.
  exists user, (select excluded_fields (toObject user)).
  split; [now rewrite Husers, Hu6, Hu5|].
  split; [exact Hfound|]. split; [exact Hstored|].
  split; [now rewrite Hstored|]. split; [reflexivity|].
  split; [reflexivity|]. split; [reflexivity|].
  split; apply select_excluded; unfold excluded_fields; set_solver.
Qed.

Lemma register_stores_hash_and_hides_secrets_run :
  exists resp w' user doc,
    registerUser Demo.ext (Demo.register_carol (Some Demo.avatar_only))
      Demo.world = (Normal resp, w') /\
    users w' = [Demo.ann; Demo.bob; user] /\
    password user = "$2b$10$secret123" /\
    status resp = 201%Z /\
    data (json resp) = D_doc doc /\
    doc !! "password" = None /\
    doc !! "refreshToken" = None.
Proof.
  destruct (register_stores_hash_and_hides_secrets Demo.ext
              (Demo.register_carol (Some Demo.avatar_only)) Demo.world
              "secret123") as [Hsucceeds Hfacts].
  - reflexivity.
  - vm_compute. discriminate.
  - destruct (Hsucceeds "Carol Roe" "carol@x.com" "carol" Demo.avatar_only
                "tmp/new.png" []
                (mkAsset "https://cdn.example/tmp/new.png" "id:tmp/new.png"))
      as (resp & w' & Hrun & _).
    + reflexivity.
    + reflexivity.
    + reflexivity.
    + vm_compute. discriminate.
    + vm_compute. discriminate.
    + vm_compute. discriminate.
    + vm_compute. discriminate.
    + reflexivity.
    + reflexivity.
    + repeat (constructor; [repeat split; vm_compute; discriminate|]).
      constructor.
    + reflexivity.
    + reflexivity.
    + discriminate.
    + vm_compute. reflexivity.
    + reflexivity.
    + discriminate.
    + left. reflexivity.
    + destruct (Hfacts resp w' Hrun)
        as (user & doc & Husers & _ & Hhash & _ & Hstatus & Hdata & _
            & Hpw & Hrt).
      exists resp, w', user, doc. repeat split; assumption.
Defined.

(** C10. A registration that passes the field checks and finds no
    existing user, and whose [req.files] is present without an [avatar]
    key, throws a [TypeError] at [req.files?.avatar[0]], the world
    unchanged, instead of the ValidationError for a missing avatar.
    That ValidationError (400, "avatar is required.") thrown before any
    upload is attempted arises only when [req.files] is absent or the
    avatar's path is falsy, and in both of these cases it is thrown. *)
Theorem register_avatar_access_unguarded
    (ext : Collaborators) (req : Request) (w : World) :
  let b := req_body req in
  let checks_pass :=
    existsb Js.blank
      [body_fullName b; body_email b; body_username b; body_password b]
    = false /\
    (exists mail uname,
        body_email b = Some mail /\ body_username b = Some uname /\
        validator_isEmail ext mail = true /\
        validator_isLowercase ext uname = true) /\
    findOne_or (body_username b) (body_email b) w = (Normal None, w) in
  let avatar_missing :=
    req_files req = None \/
    exists fs l,
      req_files req = Some fs /\ files_avatar fs = Some l /\
      Js.truthy (head l ≫= path) = false in
  (checks_pass ->
   forall fs, req_files req = Some fs -> files_avatar fs = None ->
   registerUser ext req w
   = (Thrown (TypeError "Cannot read properties of undefined (reading '0')"),
      w))
  /\
  (forall w',
      registerUser ext req w
      = (Thrown (ApiError (class_status ValidationError)
                   "avatar is required."), w') ->
      trace w' = trace w ->
      avatar_missing)
  /\
  (checks_pass -> avatar_missing ->
   registerUser ext req w
   = (Thrown (ApiError (class_status ValidationError) "avatar is required."),
      w)).
Proof.
  intros b checks_pass avatar_missing.
  assert (Hreach : checks_pass ->
            registerUser ext req w
            = (let* avatarPath := avatarLocalPath (req_files req) in
               if negb (Js.truthy avatarPath)
               then throw (ApiError 400 "avatar is required.")
               else
                 let* avatar := uploadOnCloudinary ext avatarPath in
                 let* coverImage :=
                   uploadOnCloudinary ext
                     (coverImageLocalPath (req_files req)) in
                 match avatar with
                 | None => throw (ApiError 400 "avatar is required.")
                 | Some avatar =>
                     let* user :=
                       create ext
                         (mkNewUser (body_fullName b) (url avatar)
                            (public_id avatar)
                            (from_option url "" coverImage)
                            (from_option public_id "" coverImage)
                            (Js.toLowerCase (default "" (body_username b)))
                            (body_email b) (body_password b)) in
                     let* createdUser :=
                       findById_select (Some (_id user)) excluded_fields in
                     match createdUser with
                     | None =>
                         throw (ApiError 500
                           "Something went wrong while registering the user.")
                     | Some createdUser =>
                         ret (mkResponse 201 [] []
                                (mkApiResponse 200 (D_doc createdUser)
                                   "User registered successfully!"))
                     end
                 end) w).
  { intros (Hblank & (mail & uname & Hm & Hu & Hem & Hlow) & Hnone).
    unfold registerUser. fold b. rewrite Hblank, Hm, Hu.
    unfold validator_call at 1. unfold bind at 1, ret at 1. rewrite Hem.
    cbn [negb]. unfold validator_call at 1. unfold bind at 1, ret at 1.
    rewrite Hlow. cbn [negb]. rewrite <- Hm, <- Hu.
    rewrite (bind_normal _ _ _ _ _ Hnone). reflexivity. }
  split; [|split].
  - intros Hpass fs Hfiles Havatar. rewrite (Hreach Hpass).
    unfold avatarLocalPath. rewrite Hfiles, Havatar. reflexivity.
  - intros w' Hrun Htrace. unfold registerUser in Hrun. fold b in Hrun.
    destruct (existsb Js.blank _); [discriminate Hrun|].
    apply bind_inv in Hrun as (r1 & w1 & H1 & Hrun).
    pose proof (validator_call_world _ _ _ _ _ H1) as ->.
    destruct r1 as [isEmail|e];
      [|destruct Hrun as [[= <-] _]; unfold validator_call in H1;
        destruct (body_email b); discriminate H1].
    destruct (negb isEmail); [discriminate Hrun|].
    apply bind_inv in Hrun as (r2 & w2 & H2 & Hrun).
    pose proof (validator_call_world _ _ _ _ _ H2) as ->.
    destruct r2 as [isLowercase|e];
      [|destruct Hrun as [[= <-] _]; unfold validator_call in H2;
        destruct (body_username b); discriminate H2].
    destruct (negb isLowercase); [discriminate Hrun|].
    apply bind_inv in Hrun as (r3 & w3 & H3 & Hrun).
    unfold findOne_or in H3. injection H3 as <- <-.
    destruct (List.find _ (users w)); [discriminate Hrun|].
    apply bind_inv in Hrun as (r4 & w4 & H4 & Hrun).
    pose proof (avatarLocalPath_world _ _ _ _ H4) as ->.
    unfold avatarLocalPath in H4.
    destruct r4 as [avatarPath|e]; cycle 1.
    { destruct Hrun as [[= <-] _].
      destruct (req_files req) as [fs|]; [|discriminate H4].
      destruct (files_avatar fs); discriminate H4. }
    destruct (Js.truthy avatarPath) eqn:Hpath; cbn [negb] in Hrun.
    + apply register_after_avatar_check in Hrun; [|exact Hpath].
      rewrite Htrace in Hrun. lia.
    + destruct (req_files req) as [fs|] eqn:Hfiles; [|now left].
      right. destruct (files_avatar fs) as [l|] eqn:Havatar;
        [|discriminate H4].
      unfold ret in H4. injection H4 as <-. now exists fs, l.
  - intros Hpass Hmissing. rewrite (Hreach Hpass).
    destruct Hmissing as [Hfiles | (fs & l & Hfiles & Havatar & Hpath)].
    + unfold avatarLocalPath. rewrite Hfiles. reflexivity.
    + unfold avatarLocalPath. rewrite Hfiles, Havatar.
      unfold bind, ret. now rewrite Hpath.
Qed.

Lemma register_avatar_access_unguarded_run :
  registerUser Demo.ext (Demo.register_carol (Some Demo.cover_only)) Demo.world
    = (Thrown (TypeError "Cannot read properties of undefined (reading '0')"),
       Demo.world)
  /\ registerUser Demo.ext (Demo.register_carol None) Demo.world
     = (Thrown (ApiError 400 "avatar is required."), Demo.world).
Proof.
  split.
  - apply (proj1 (register_avatar_access_unguarded Demo.ext
                    (Demo.register_carol (Some Demo.cover_only)) Demo.world))
      with (fs := Demo.cover_only).
    + split; [reflexivity|]. split; [|reflexivity].
      exists "carol@x.com", "carol". repeat split.
    + reflexivity.
    + reflexivity.
  - apply (proj2 (proj2 (register_avatar_access_unguarded Demo.ext
                           (Demo.register_carol None) Demo.world))).
    + split; [reflexivity|]. split; [|reflexivity].
      exists "carol@x.com", "carol". repeat split.
    + left. reflexivity.
Defined.

(** * Further properties of the helpers and controllers *)

(** ** utils/cloudinary.js *)

Lemma unlinkSync_absent p w :
  p ∉ disk w ->
  unlinkSync (Some p) w
  = (Thrown (LibError "Error" "ENOENT: no such file or directory"),
     log (EvUnlink p) w).
Proof.
  intros H. unfold unlinkSync. now rewrite bool_decide_eq_false_2.
Qed.

(** X1. [deleteOnCloudinary] never throws: a falsy id answers [null]
    without any call, and a non-empty id makes exactly one destroy call
    whose rejection is turned into [null].  The collection and the disk
    are left alone. *)
Theorem deleteOnCloudinary_never_throws
    (ext : Collaborators) (x : option string) (w : World) :
  exists v w',
    deleteOnCloudinary ext x w = (Normal v, w') /\
    users w' = users w /\ disk w' = disk w /\
    if Js.truthy x
    then exists i, x = Some i /\
                   trace w' = (trace w ++ [EvDestroy i])%list /\
                   v = cloudinary_destroy ext w i
    else w' = w /\ v = None.
Proof.
  destruct (Js.truthy x) eqn:Hx.
  - apply truthy_inv in Hx as (i & -> & Hi).
    rewrite (deleteOnCloudinary_truthy ext i w Hi).
    do 2 eexists. split; [reflexivity|]. repeat split. now exists i.
  - exists None, w. split; [|now repeat split].
    unfold deleteOnCloudinary, try_catch. destruct x as [i|]; [|reflexivity].
    now rewrite Hx.
Qed.

(** Without a file at the path, the unlink after a successful upload
    throws, and so does the one of the [catch] block. *)
Lemma uploadOnCloudinary_absent (ext : Collaborators) p w :
  p <> "" -> p ∉ disk w ->
  uploadOnCloudinary ext (Some p) w
  = (Thrown (LibError "Error" "ENOENT: no such file or directory"),
     match cloudinary_upload ext w p with
     | Some _ => log (EvUnlink p) (log (EvUnlink p) (log (EvUpload p) w))
     | None => log (EvUnlink p) (log (EvUpload p) w)
     end).
Proof.
  intros Hp Hout.
  unfold uploadOnCloudinary, try_catch. rewrite (truthy_Some p Hp). cbn [negb].
  unfold bind at 1, uploader_upload.
  destruct (cloudinary_upload ext w p) as [a|].
  - rewrite (bind_thrown _ _ _ _ _ (unlinkSync_absent p (log (EvUpload p) w) Hout)).
    now rewrite (bind_thrown _ _ _ _ _
               (unlinkSync_absent p (log (EvUnlink p) (log (EvUpload p) w)) Hout)).
  - now rewrite (bind_thrown _ _ _ _ _
               (unlinkSync_absent p (log (EvUpload p) w) Hout)).
Qed.

(** X2. An upload call for a non-empty path at which there is no file
    does not answer [null]: the call rejects with the error of
    [fs.unlinkSync], whatever the remote upload did, because the
    [catch] block unlinks again.  Disk and collection are unchanged. *)
Theorem upload_of_missing_file_rejects
    (ext : Collaborators) (p : string) (w : World) :
  p <> "" -> p ∉ disk w ->
  exists w',
    uploadOnCloudinary ext (Some p) w
    = (Thrown (LibError "Error" "ENOENT: no such file or directory"), w') /\
    disk w' = disk w /\ users w' = users w /\
    exists later, trace w' = (trace w ++ EvUpload p :: EvUnlink p :: later)%list.
Proof.
  intros Hp Hout. rewrite (uploadOnCloudinary_absent ext p w Hp Hout).
  eexists. split; [reflexivity|].
  destruct (cloudinary_upload ext w p); repeat split.
  - exists [EvUnlink p]. simpl. now rewrite <- !app_assoc.
  - exists []. simpl. now rewrite <- !app_assoc.
Qed.

Lemma upload_of_missing_file_rejects_run :
  exists w',
    uploadOnCloudinary Demo.ext (Some "tmp/gone.png") Demo.world
    = (Thrown (LibError "Error" "ENOENT: no such file or directory"), w') /\
    disk w' = disk Demo.world.
Proof.
  destruct (upload_of_missing_file_rejects Demo.ext "tmp/gone.png" Demo.world)
    as (w' & Hrun & Hdisk & _).
  - discriminate.
  - vm_compute. intros H. discriminate H.
  - now exists w'.
Defined.

(** X3. Whatever its argument and its outcome, [uploadOnCloudinary]
    leaves the collection alone and removes no file other than the one
    at the path it was given. *)
Theorem uploadOnCloudinary_frame
    (ext : Collaborators) (x : option string) (w : World) :
  let w' := snd (uploadOnCloudinary ext x w) in
  users w' = users w /\
  (disk w' = disk w \/ exists p, x = Some p /\ disk w' = disk w ∖ {[p]}).
Proof.
  intros w'. subst w'.
  destruct (Js.truthy x) eqn:Hx.
  - apply truthy_inv in Hx as (p & -> & Hp).
    destruct (decide (p ∈ disk w)) as [Hin|Hout].
    + rewrite (uploadOnCloudinary_present ext p w Hp Hin). simpl.
      split; [reflexivity | right; now exists p].
    + rewrite (uploadOnCloudinary_absent ext p w Hp Hout). simpl.
      destruct (cloudinary_upload ext w p); (split; [reflexivity | now left]).
  - rewrite (uploadOnCloudinary_falsy ext x w Hx). simpl.
    split; [reflexivity | now left].
Qed.

(** ** Sessions: login, token generation and refresh *)

Section MoreSessionFacts.

Variable ext : Collaborators.

Lemma find_replace_doc_ne id id' d us :
  _id d = id -> id' <> id ->
  List.find (fun u => (_id u =? id')%nat) (replace_doc id d us)
  = List.find (fun u => (_id u =? id')%nat) us.
Proof.
  intros Hd Hne. induction us as [|u r IH]; simpl; [reflexivity|].
  destruct (_id u =? id)%nat eqn:E.
  - apply Nat.eqb_eq in E. simpl.
    assert (H1 : (_id d =? id')%nat = false) by (apply Nat.eqb_neq; congruence).
    assert (H2 : (_id u =? id')%nat = false) by (apply Nat.eqb_neq; congruence).
    now rewrite H1, H2.
  - simpl. destruct (_id u =? id')%nat; [reflexivity | exact IH].
Qed.

Lemma generateAccessAndRefreshTokens_missing id w :
  List.find (fun u => (_id u =? id)%nat) (users w) = None ->
  generateAccessAndRefreshTokens ext id w
  = (Thrown (ApiError 500
       "Something went wrong while generating access and refresh tokens."), w).
Proof.
  intros Hf. unfold generateAccessAndRefreshTokens, try_catch, bind, findById.
  now rewrite Hf.
Qed.

Lemma any_field_blank_world uname mail pw w r w' :
  any_field_blank uname mail pw w = (r, w') -> w' = w.
Proof.
  assert (Hsome : forall fields w0 r0 w1,
             some_blank fields w0 = (r0, w1) -> w1 = w0).
  { induction fields as [|[s|] rest IH]; simpl; intros w0 r0 w1.
    - now intros [= _ <-].
    - destruct (Js.trim s =? ""); [now intros [= _ <-] | apply IH].
    - now intros [= _ <-]. }
  unfold any_field_blank. intros H.
  apply bind_inv in H as (r1 & w1 & H1 & H).
  assert (w1 = w) as ->.
  { destruct (Js.truthy uname); [now apply Hsome in H1 | now injection H1]. }
  destruct r1 as [[]|e].
  - now injection H.
  - destruct (Js.truthy mail); [now apply Hsome in H | now injection H].
  - now destruct H.
Qed.

Lemma login_lookup_thrown_world b w e w' :
  login_lookup ext b w = (Thrown e, w') -> w' = w.
Proof.
  unfold login_lookup, bind at 1, findOne_or.
  destruct (List.find _ (users w)) as [user|]; [|now intros [= _ <-]].
  unfold bind at 1, isPasswordCorrect.
  destruct (body_password b) as [p|]; [|now intros [= _ <-]].
  unfold ret at 1. destruct (bcrypt_compare ext p (password user)); cbn [negb];
    [|now intros [= _ <-]].
  unfold bind at 1.
  destruct (List.find (fun u => (_id u =? _id user)%nat) (users w))
    as [found|] eqn:Hf.
  - rewrite (generateAccessAndRefreshTokens_found ext _ _ _ Hf).
    unfold bind, findById_select, findById, ret. discriminate.
  - rewrite (generateAccessAndRefreshTokens_missing _ _ Hf). now intros [= _ <-].
Qed.

End MoreSessionFacts.

(** X4. [generateAccessAndRefreshTokens] either finds the user, signs
    both tokens at the current time, writes the refresh token on that
    record and returns the pair, leaving the password and every other
    record as they were; or finds no user and throws status 500 (the
    [TypeError] on [null] is rewrapped), the world unchanged. *)
Theorem generateAccessAndRefreshTokens_outcome
    (ext : Collaborators) (id : nat) (w : World) :
  match List.find (fun u => (_id u =? id)%nat) (users w) with
  | Some user =>
      exists w',
        generateAccessAndRefreshTokens ext id w
        = (Normal (<["accessToken" := signAccessToken ext (now w) user]>
                     (<["refreshToken" := signRefreshToken ext (now w) user]> ∅)),
           w') /\
        List.find (fun u => (_id u =? id)%nat) (users w')
        = Some (set_refreshToken (Some (signRefreshToken ext (now w) user))
                  user) /\
        password (set_refreshToken (Some (signRefreshToken ext (now w) user))
                    user) = password user /\
        (forall id', id' <> id ->
           List.find (fun u => (_id u =? id')%nat) (users w')
           = List.find (fun u => (_id u =? id')%nat) (users w)) /\
        disk w' = disk w
  | None =>
      generateAccessAndRefreshTokens ext id w
      = (Thrown (ApiError (class_status InternalError)
           "Something went wrong while generating access and refresh tokens."),
         w)
  end.
Proof.
  destruct (List.find _ (users w)) as [user|] eqn:Hf.
  - pose proof (find_id_eq _ _ _ Hf) as Hid.
    eexists. split; [now apply generateAccessAndRefreshTokens_found|].
    split; [|split; [reflexivity|split; [|reflexivity]]].
    + simpl. rewrite Hid.
      now apply find_replace_doc with (s := user).
    + intros id' Hne. simpl. rewrite Hid.
      now apply find_replace_doc_ne.
  - now apply generateAccessAndRefreshTokens_missing.
Qed.

(** X5. A login whose checks pass and whose password verifies answers
    200; the refresh token in the cookie and in the body is the one
    now stored on the user's record, the access token is returned the
    same two ways, and the user in the body carries the username but
    none of [password], [refreshToken], [avatarId], [coverImageId]. *)
Theorem login_returns_the_stored_refresh_token
    (ext : Collaborators) (req : Request) (w : World) (user : User)
    (p : string) :
  let b := req_body req in
  let access := signAccessToken ext (now w) user in
  let refresh := signRefreshToken ext (now w) user in
  (Js.truthy (body_username b) || Js.truthy (body_email b)) = true ->
  any_field_blank (body_username b) (body_email b) (Some p) w
  = (Normal false, w) ->
  login_format_ok ext (body_username b) (body_email b) = true ->
  findOne_or (body_username b) (body_email b) w = (Normal (Some user), w) ->
  findById (Some (_id user)) w = (Normal (Some user), w) ->
  body_password b = Some p ->
  bcrypt_compare ext p (password user) = true ->
  exists resp w' doc,
    loginUser ext req w = (Normal resp, w') /\
    status resp = 200%Z /\
    cookie resp = [("accessToken", Some access); ("refreshToken", Some refresh)] /\
    data (json resp) = D_login (Some doc) (Some access) (Some refresh) /\
    findById (Some (_id user)) w'
    = (Normal (Some (set_refreshToken (Some refresh) user)), w') /\
    doc !! "username" = Some (JStr (username user)) /\
    doc !! "password" = None /\ doc !! "refreshToken" = None /\
    doc !! "avatarId" = None /\ doc !! "coverImageId" = None.
Proof.
  intros b access refresh Hident Hblank Hformat Hfind Hbyid Hp Hcmp.
  apply findById_found in Hbyid as (n & [= <-] & Hbyid).
  assert (Hnew : List.find (fun u => (_id u =? _id user)%nat)
                   (users (rotated ext user w))
                 = Some (set_refreshToken (Some refresh) user))
    by (simpl; now apply find_replace_doc with (s := user)).
  exists (mkResponse 200
            [("accessToken", Some access); ("refreshToken", Some refresh)] []
            (mkApiResponse 200
               (D_login
                  (Some (select excluded_fields
                           (toObject (set_refreshToken (Some refresh) user))))
                  (Some access) (Some refresh))
               "user successfully logged in.")),
    (rotated ext user w),
    (select excluded_fields (toObject (set_refreshToken (Some refresh) user))).
  split; [|split; [reflexivity|split; [reflexivity|split; [reflexivity|split]]]].
  - unfold loginUser. fold b.
    apply orb_true_iff in Hident.
    assert (Hguard : negb (Js.truthy (body_username b))
                     && negb (Js.truthy (body_email b)) = false)
      by (destruct Hident as [-> | ->]; [reflexivity | apply andb_false_r]).
    rewrite Hguard, Hp, (bind_normal _ _ _ _ _ Hblank), Hformat. cbn [negb].
    unfold login_lookup. rewrite (bind_normal _ _ _ _ _ Hfind).
    unfold isPasswordCorrect. rewrite Hp. unfold bind at 1, ret at 1.
    rewrite Hcmp. cbn [negb].
    rewrite (bind_normal _ _ _ _ _
               (generateAccessAndRefreshTokens_found ext _ _ _ Hbyid)).
    unfold findById_select, bind, findById, ret. rewrite Hnew. reflexivity.
  - unfold findById. now rewrite Hnew.
  - repeat split; try (apply select_excluded; unfold excluded_fields; set_solver).
    unfold select. apply map_lookup_filter_Some. split.
    + unfold toObject, put_optional. simpl.
      destruct (coverImageId user), (coverImage user), (avatarId user);
        now simplify_map_eq.
    + simpl. unfold excluded_fields. intros H.
      rewrite !elem_of_cons, elem_of_nil in H. intuition discriminate.
Qed.

Lemma login_returns_the_stored_refresh_token_run :
  exists resp w',
    loginUser Demo.ext (Demo.login_with (Some "annlee") None (Some "secret123"))
      Demo.world = (Normal resp, w') /\
    cookie resp = [("accessToken", Some "A1.11"); ("refreshToken", Some "R1.11")] /\
    (refreshToken <$> List.find (fun u => (_id u =? 1)%nat) (users w'))
    = Some (Some "R1.11").
Proof.
  destruct (login_returns_the_stored_refresh_token Demo.ext
              (Demo.login_with (Some "annlee") None (Some "secret123"))
              Demo.world Demo.ann "secret123")
    as (resp & w' & doc & Hrun & _ & Hcookie & _ & Hstored & _).
  - reflexivity.
  - reflexivity.
  - reflexivity.
  - reflexivity.
  - reflexivity.
  - reflexivity.
  - reflexivity.
  - exists resp, w'. split; [exact Hrun|]. split; [exact Hcookie|].
    injection Hstored as Hstored. exact (f_equal (fmap refreshToken) Hstored).
Defined.

(** X6. A login that throws has changed nothing: no token was written
    and the world is the one before the call.  Its [ApiError]s carry
    status 400 (missing identifier, blank field, bad format, wrong
    password), 404 (no such user) or 500 (token generation). *)
Theorem login_failure_changes_nothing
    (ext : Collaborators) (req : Request) (w : World) (e : JsError)
    (w' : World) :
  loginUser ext req w = (Thrown e, w') ->
  w' = w /\
  forall s m, e = ApiError s m -> s = 400%Z \/ s = 404%Z \/ s = 500%Z.
Proof.
  unfold loginUser. intros Hrun.
  destruct (negb (Js.truthy (body_username (req_body req)))
            && negb (Js.truthy (body_email (req_body req)))).
  { injection Hrun as <- <-. split; [reflexivity|]. intros s m [= <- _]. tauto. }
  apply bind_inv in Hrun as (r1 & w1 & H1 & Hrun).
  pose proof (any_field_blank_world _ _ _ _ _ _ H1) as ->.
  destruct r1 as [blank|e1].
  - destruct blank.
    { injection Hrun as <- <-. split; [reflexivity|]. intros s m [= <- _]. tauto. }
    destruct (negb (login_format_ok ext _ _)).
    { injection Hrun as <- <-. split; [reflexivity|]. intros s m [= <- _]. tauto. }
    split; [now apply login_lookup_thrown_world in Hrun|].
    apply login_lookup_throws in Hrun as [-> | [-> | [-> | ->]]];
      intros s m [= <- _]; tauto.
  - destruct Hrun as [[= ->] ->]. split; [reflexivity|].
    apply any_field_blank_throws in H1 as ->. discriminate.
Qed.

Lemma login_failure_changes_nothing_run :
  loginUser Demo.ext (Demo.login_with (Some "ghost") None (Some "x")) Demo.world
  = (Thrown (ApiError 404 "user does not exist."), Demo.world).
Proof.
  destruct (loginUser Demo.ext (Demo.login_with (Some "ghost") None (Some "x"))
              Demo.world) as [[resp|e] w'] eqn:Hrun;
    [vm_compute in Hrun; discriminate Hrun|].
  destruct (login_failure_changes_nothing Demo.ext _ _ _ _ Hrun) as [-> _].
  vm_compute in Hrun. injection Hrun as <-. reflexivity.
Defined.

(** X7. Every failure of [refreshAccessToken] carries status 401, also
    the failure of token generation, which the [catch] block rewraps,
    and leaves the world as it was. *)
Theorem refresh_failure_is_401_and_silent
    (ext : Collaborators) (req : Request) (w : World) (e : JsError)
    (w' : World) :
  refreshAccessToken ext req w = (Thrown e, w') ->
  w' = w /\
  exists msg, e = ApiError (class_status UnauthorizedError) msg.
Proof.
  unfold refreshAccessToken.
  destruct (incomingRefreshToken req) as [t|]; cycle 1.
  { unfold throw. intros [= <- <-]. eauto. }
  destruct (negb (Js.truthy (Some t))).
  { unfold throw. intros [= <- <-]. eauto. }
  unfold try_catch.
  match goal with
  | |- context [let (_, _) := ?c w in _] =>
      destruct (c w) as [[a|e0] w0] eqn:Hbody
  end; [discriminate|].
  unfold throw. intros [= <- <-]. split; [|eauto].
  apply bind_inv in Hbody as (r1 & w1 & H1 & Hbody).
  assert (w1 = w) as ->.
  { unfold verify in H1. destruct (jwt_verify _ _ _ _); now injection H1. }
  destruct r1 as [decoded|e1]; [|now destruct Hbody].
  apply bind_inv in Hbody as (r2 & w2 & H2 & Hbody).
  unfold findById in H2. injection H2 as <- <-.
  destruct (match claim_id decoded with Some _ => _ | None => _ end)
    as [user|] eqn:Hfind; [|now injection Hbody].
  destruct (negb (bool_decide (Some t = refreshToken user)));
    [now injection Hbody|].
  apply bind_inv in Hbody as (r3 & w3 & H3 & Hbody).
  destruct (List.find (fun u => (_id u =? _id user)%nat) (users w))
    as [found|] eqn:Hf.
  - rewrite (generateAccessAndRefreshTokens_found ext _ _ _ Hf) in H3.
    injection H3 as <- <-. discriminate Hbody.
  - rewrite (generateAccessAndRefreshTokens_missing ext _ _ Hf) in H3.
    injection H3 as <- <-. now destruct Hbody.
Qed.

Lemma refresh_failure_is_401_and_silent_run :
  refreshAccessToken Demo.ext (Demo.refresh_with "forged") Demo.world
  = (Thrown (ApiError 401 "invalid signature"), Demo.world).
Proof.
  destruct (refreshAccessToken Demo.ext (Demo.refresh_with "forged") Demo.world)
    as [[resp|e] w'] eqn:Hrun; [vm_compute in Hrun; discriminate Hrun|].
  destruct (refresh_failure_is_401_and_silent Demo.ext _ _ _ _ Hrun)
    as [-> _].
  vm_compute in Hrun. injection Hrun as <-. reflexivity.
Defined.

(** X8. The refresh token that a login returns is accepted by
    [refreshAccessToken] afterwards: in any world whose collection is
    as the login left it and in which the token verifies and decodes to
    the user it was signed for, the refresh call answers 200 with a new
    access token. *)
Theorem refresh_accepts_token_of_login
    (ext : Collaborators) (reqL : Request) (w : World) (respL : Response)
    (w1 : World) :
  loginUser ext reqL w = (Normal respL, w1) ->
  exists user rt,
    findById (Some (_id user)) w = (Normal (Some user), w) /\
    rt = signRefreshToken ext (now w) user /\
    cookie respL
    = [("accessToken", Some (signAccessToken ext (now w) user));
       ("refreshToken", Some rt)] /\
    forall reqR w2 decoded,
      incomingRefreshToken reqR = Some rt -> rt <> "" ->
      users w2 = users w1 ->
      jwt_verify ext (now w2) rt (REFRESH_TOKEN_SECRET ext) = inr decoded ->
      claim_id decoded = Some (_id user) ->
      exists respR w3,
        refreshAccessToken ext reqR w2 = (Normal respR, w3) /\
        status respR = 200%Z /\
        cookie respR
        = [("accessToken",
            Some (signAccessToken ext (now w2)
                    (set_refreshToken (Some rt) user)));
           ("refreshToken", None)].
Proof.
  unfold loginUser. intros Hrun.
  destruct (negb (Js.truthy (body_username (req_body reqL)))
            && negb (Js.truthy (body_email (req_body reqL))));
    [discriminate|].
  apply bind_inv_normal in Hrun as (blank & w0 & Hb & Hrun).
  apply any_field_blank_world in Hb as ->.
  destruct blank; [discriminate|].
  destruct (negb (login_format_ok ext _ _)); [discriminate|].
  unfold login_lookup in Hrun.
  apply bind_inv_normal in Hrun as (existing & w0 & Hone & Hrun).
  unfold findOne_or in Hone. injection Hone as _ <-.
  destruct existing as [existing|]; [|discriminate].
  apply bind_inv_normal in Hrun as (valid & w0 & Hpw & Hrun).
  assert (w0 = w) as ->.
  { unfold isPasswordCorrect in Hpw.
    destruct (body_password _); now injection Hpw. }
  destruct (negb valid); [discriminate|].
  apply bind_inv_normal in Hrun as (tokens & w0 & Hgen & Hrun).
  destruct (List.find (fun u => (_id u =? _id existing)%nat) (users w))
    as [user|] eqn:Hf;
    [|rewrite (generateAccessAndRefreshTokens_missing ext _ _ Hf) in Hgen;
      discriminate].
  rewrite (generateAccessAndRefreshTokens_found ext _ _ _ Hf) in Hgen.
  injection Hgen as <- <-.
  apply bind_inv_normal in Hrun as (logged & w0 & Hsel & Hrun).
  apply findById_select_world in Hsel as ->.
  unfold ret in Hrun. injection Hrun as <- <-.
  pose proof (find_id_eq _ _ _ Hf) as Hid.
  exists user, (signRefreshToken ext (now w) user).
  split; [unfold findById; now rewrite Hid, Hf|].
  split; [reflexivity|]. split; [reflexivity|].
  intros reqR w2 decoded Hin Hne Husers Hver Hclaim.
  assert (Hstored : findById (claim_id decoded) w2
            = (Normal (Some (set_refreshToken
                               (Some (signRefreshToken ext (now w) user)) user)),
               w2)).
  { unfold findById. rewrite Hclaim, Husers. simpl.
    rewrite find_replace_doc with (s := user)
      (d := set_refreshToken (Some (signRefreshToken ext (now w) user)) user);
      [reflexivity | reflexivity | now rewrite Hid]. }
  do 2 eexists.
  split; [exact (refreshAccessToken_match ext reqR w2 _ decoded _ Hin Hne Hver
                   Hstored eq_refl) | split; reflexivity].
Qed.

Lemma refresh_accepts_token_of_login_run :
  exists respL w1 respR w3,
    loginUser Demo.ext (Demo.login_with (Some "annlee") None (Some "secret123"))
      Demo.world = (Normal respL, w1) /\
    refreshAccessToken Demo.ext (Demo.refresh_with "R1.11") w1
    = (Normal respR, w3).
Proof.
  destruct (loginUser Demo.ext
              (Demo.login_with (Some "annlee") None (Some "secret123"))
              Demo.world) as [[respL|e] w1] eqn:Hrun;
    [|vm_compute in Hrun; discriminate Hrun].
  destruct (refresh_accepts_token_of_login Demo.ext _ _ _ _ Hrun)
    as (user & rt & Hfound & -> & Hcookie & Hlater).
  assert (Hann : user = Demo.ann).
  { apply findById_found in Hfound as (n & [= <-] & Hfind).
    simpl in Hfind. destruct (_id user) as [|[|[|n]]]; simpl in Hfind;
      try discriminate Hfind; injection Hfind as <-; [reflexivity|].
    vm_compute in Hrun. injection Hrun as <- _.
    vm_compute in Hcookie. discriminate Hcookie. }
  subst user.
  assert (Hnow : now w1 = 2)
    by (vm_compute in Hrun; now injection Hrun as _ <-).
  destruct (Hlater (Demo.refresh_with "R1.11") w1
              (mkPayload (Some 1) None None None))
    as (respR & w3 & Hrefresh & _).
  - reflexivity.
  - vm_compute. discriminate.
  - reflexivity.
  - rewrite Hnow. reflexivity.
  - reflexivity.
  - now exists respL, w1, respR, w3.
Defined.

(** ** Password change *)

(** X9. When the old password verifies, [changeCurrentPassword] answers
    200 and stores the bcrypt hash (cost 10) of the new password, which
    is saved without validation: any string is accepted (one equal to
    the stored hash itself would not count as a modification and is
    left out).  The refresh token stays on the record, so the session
    survives: a refresh call with that token still succeeds
    afterwards. *)
Theorem change_password_keeps_session
    (ext : Collaborators) (req : AuthRequest) (w : World) (user : User)
    (old new : string) :
  let id := _id (auth_user req) in
  let changed := set_password (bcrypt_hash ext new 10) user in
  findById (Some id) w = (Normal (Some user), w) ->
  body_oldPassword (auth_body req) = Some old ->
  bcrypt_compare ext old (password user) = true ->
  body_newPassword (auth_body req) = Some new ->
  new <> password user ->
  exists resp w',
    changeCurrentPassword ext req w = (Normal resp, w') /\
    status resp = 200%Z /\
    findById (Some id) w' = (Normal (Some changed), w') /\
    refreshToken changed = refreshToken user /\
    forall reqR w2 t decoded,
      refreshToken user = Some t ->
      incomingRefreshToken reqR = Some t -> t <> "" ->
      users w2 = users w' ->
      jwt_verify ext (now w2) t (REFRESH_TOKEN_SECRET ext) = inr decoded ->
      claim_id decoded = Some id ->
      exists respR w3, refreshAccessToken ext reqR w2 = (Normal respR, w3).
Proof.
  intros id changed Hfind Hold Hcmp Hnew _.
  pose proof Hfind as Hf. apply findById_found in Hf as (n & [= <-] & Hf).
  pose proof (find_id_eq _ _ _ Hf) as Hid.
  assert (Hrun : changeCurrentPassword ext req w
            = (Normal (mkResponse 200 [] []
                         (mkApiResponse 200 D_empty
                            "password updated successfully.")),
               log (EvDbWrite id)
                 (with_users (replace_doc id changed (users w)) w))).
  { unfold changeCurrentPassword. rewrite (bind_normal _ _ _ _ _ Hfind).
    unfold isPasswordCorrect. rewrite Hold. unfold bind at 1, ret at 1.
    rewrite Hcmp, Hnew. cbn [negb].
    unfold bind, save. cbn [_id set_password]. rewrite Hid. fold id.
    rewrite Hf. reflexivity. }
  assert (Hstored : List.find (fun u => (_id u =? id)%nat)
                      (replace_doc id changed (users w)) = Some changed)
    by now apply find_replace_doc with (s := user).
  do 2 eexists. split; [exact Hrun|]. split; [reflexivity|].
  split; [unfold findById; simpl; now rewrite Hstored|].
  split; [reflexivity|].
  intros reqR w2 t decoded Ht Hin Hne Husers Hver Hclaim.
  do 2 eexists.
  apply (refreshAccessToken_match ext reqR w2 t decoded changed Hin Hne Hver).
  - unfold findById. rewrite Hclaim, Husers. simpl. now rewrite Hstored.
  - exact Ht.
Qed.

Lemma change_password_keeps_session_run :
  exists resp w' respR w3,
    changeCurrentPassword Demo.ext
      (Scenario.change_password Demo.ann (Some "secret123") (Some "n3w"))
      Demo.world = (Normal resp, w') /\
    (password <$> List.find (fun u => (_id u =? 1)%nat) (users w'))
    = Some "$2b$10$n3w" /\
    refreshAccessToken Demo.ext (Demo.refresh_with "R1.1") w'
    = (Normal respR, w3).
Proof.
  destruct (change_password_keeps_session Demo.ext
              (Scenario.change_password Demo.ann (Some "secret123") (Some "n3w"))
              Demo.world Demo.ann "secret123" "n3w")
    as (resp & w' & Hrun & _ & Hstored & _ & Hlater).
  - reflexivity.
  - reflexivity.
  - reflexivity.
  - reflexivity.
  - discriminate.
  - assert (Hnow : now w' = 2)
      by (vm_compute in Hrun; now injection Hrun as _ <-).
    destruct (Hlater (Demo.refresh_with "R1.1") w' "R1.1"
                (mkPayload (Some 1) None None None))
      as (respR & w3 & Hrefresh).
    + reflexivity.
    + reflexivity.
    + discriminate.
    + reflexivity.
    + rewrite Hnow. reflexivity.
    + reflexivity.
    + exists resp, w', respR, w3. split; [exact Hrun|]. split; [|exact Hrefresh].
      injection Hstored as Hstored. exact (f_equal (fmap password) Hstored).
Defined.

(** X10. [changeCurrentPassword] writes only when the old password
    verifies: every way it throws leaves the world unchanged.  A record
    that is gone gives status 400, an old password that does not
    verify gives status 401. *)
Theorem change_password_failure_changes_nothing
    (ext : Collaborators) (req : AuthRequest) (w : World) (e : JsError)
    (w' : World) :
  changeCurrentPassword ext req w = (Thrown e, w') ->
  w' = w /\
  (findById (Some (_id (auth_user req))) w = (Normal None, w) ->
   e = ApiError 400 "unauthorized request.") /\
  (forall user old,
      findById (Some (_id (auth_user req))) w = (Normal (Some user), w) ->
      body_oldPassword (auth_body req) = Some old ->
      bcrypt_compare ext old (password user) = false ->
      e = ApiError (class_status UnauthorizedError) "password incorrect.").
Proof.
  unfold changeCurrentPassword. intros Hrun.
  apply bind_inv in Hrun as (r1 & w1 & H1 & Hrun).
  unfold findById in H1. injection H1 as <- <-.
  destruct (List.find _ (users w)) as [user|] eqn:Hf.
  - apply bind_inv in Hrun as (r2 & w2 & H2 & Hrun).
    unfold isPasswordCorrect in H2.
    destruct (body_oldPassword (auth_body req)) as [old|] eqn:Hold.
    + unfold ret in H2. injection H2 as <- <-.
      destruct (bcrypt_compare ext old (password user)) eqn:Hcmp; cbn [negb] in Hrun.
      * destruct (body_newPassword (auth_body req)) as [new|].
        -- apply bind_inv in Hrun as (r3 & w3 & H3 & Hrun).
           unfold save in H3. cbn [_id set_password] in H3.
           rewrite (find_id_eq _ _ _ Hf), Hf in H3.
           injection H3 as <- <-. discriminate Hrun.
        -- injection Hrun as <- <-. split; [reflexivity|]. split.
           ++ unfold findById. rewrite Hf. discriminate.
           ++ intros u o Hu [= <-]. unfold findById in Hu. rewrite Hf in Hu.
              injection Hu as <-. congruence.
      * injection Hrun as <- <-. split; [reflexivity|]. split.
        -- unfold findById. rewrite Hf. discriminate.
        -- reflexivity.
    + injection H2 as <- <-. destruct Hrun as [[= ->] ->].
      split; [reflexivity|]. split.
      * unfold findById. rewrite Hf. discriminate.
      * intros u o _ Ho. discriminate Ho.
  - injection Hrun as <- <-. split; [reflexivity|]. split; [reflexivity|].
    intros u o Hu. unfold findById in Hu. rewrite Hf in Hu. discriminate Hu.
Qed.

Lemma change_password_failure_changes_nothing_run :
  changeCurrentPassword Demo.ext
    (Scenario.change_password Demo.ann (Some "guess") (Some "n3w")) Demo.world
  = (Thrown (ApiError 401 "password incorrect."), Demo.world).
Proof.
  destruct (changeCurrentPassword Demo.ext
              (Scenario.change_password Demo.ann (Some "guess") (Some "n3w"))
              Demo.world) as [[resp|e] w'] eqn:Hrun;
    [vm_compute in Hrun; discriminate Hrun|].
  destruct (change_password_failure_changes_nothing Demo.ext _ _ _ _ Hrun)
    as (-> & _ & Hwrong).
  rewrite (Hwrong Demo.ann "guess"); reflexivity.
Defined.

(** ** Profile update *)

Section DetailsFacts.

Variable ext : Collaborators.

Lemma email_clash_spec id mail (us : list User) :
  existsb (fun u => negb (_id u =? id)%nat && matches (Some mail) (email u)) us
  = false
  <-> Forall (fun u => _id u = id \/ email u <> mail) us.
Proof.
  induction us as [|u r IH]; simpl.
  - split; [constructor | reflexivity].
  - rewrite orb_false_iff, IH, Forall_cons. apply and_iff_compat_r.
    destruct (Nat.eqb_spec (_id u) id) as [E|E], (String.eqb_spec mail (email u)) as [F|F];
      simpl; intuition congruence.
Qed.

Lemma updateUserDetails_update req w name mail :
  body_fullName (auth_body req) = Some name ->
  body_email (auth_body req) = Some mail ->
  name <> "" -> mail <> "" ->
  updateUserDetails ext req w
  = (let* user :=
       findByIdAndUpdate ext (_id (auth_user req))
         [Set_fullName name; Set_email mail] in
     ret (mkResponse 200 [] []
            (mkApiResponse 200
               (D_user (select ["password"; "refreshToken"] ∘ toObject <$> user))
               "user updated successfully."))) w.
Proof.
  intros Hn Hm Hne Hme. unfold updateUserDetails.
  now rewrite Hn, Hm, (truthy_Some name Hne), (truthy_Some mail Hme).
Qed.

End DetailsFacts.

(** X11. With a non-empty [fullName] and [email], the user in the
    collection and the email free, [updateUserDetails] answers 200 and
    stores the trimmed name and the trimmed, lowercased email; the
    email's format is not checked.  Username, password, refresh token
    and avatar are untouched, and the user in the body shows the new
    email without [password] or [refreshToken]. *)
Theorem update_details_stores_normalised_fields
    (ext : Collaborators) (req : AuthRequest) (w : World) (stored : User)
    (name mail : string) :
  let id := _id (auth_user req) in
  body_fullName (auth_body req) = Some name ->
  body_email (auth_body req) = Some mail ->
  name <> "" -> mail <> "" ->
  List.find (fun u => (_id u =? id)%nat) (users w) = Some stored ->
  Forall (fun u => _id u = id \/ email u <> Js.toLowerCase (Js.trim mail))
    (users w) ->
  exists resp w' updated doc,
    updateUserDetails ext req w = (Normal resp, w') /\
    status resp = 200%Z /\
    data (json resp) = D_user (Some doc) /\
    List.find (fun u => (_id u =? id)%nat) (users w') = Some updated /\
    fullName updated = Js.trim name /\
    email updated = Js.toLowerCase (Js.trim mail) /\
    username updated = username stored /\
    password updated = password stored /\
    refreshToken updated = refreshToken stored /\
    avatar updated = avatar stored /\
    doc !! "email" = Some (JStr (Js.toLowerCase (Js.trim mail))) /\
    doc !! "password" = None /\ doc !! "refreshToken" = None.
Proof.
  intros id Hn Hm Hne Hme Hfind Hfree.
  rewrite (updateUserDetails_update ext req w name mail Hn Hm Hne Hme).
  set (updated := apply_set (apply_set stored (Set_fullName name))
                    (Set_email mail)).
  assert (Hrun : findByIdAndUpdate ext id [Set_fullName name; Set_email mail] w
            = (Normal (Some updated),
               log (EvDbWrite id)
                 (with_users (replace_doc id updated (users w)) w))).
  { unfold findByIdAndUpdate. rewrite Hfind.
    rewrite castUpdate_defined by reflexivity.
    cbn [sets_email List.find]. apply email_clash_spec in Hfree.
    now rewrite Hfree. }
  fold id. rewrite (bind_normal _ _ _ _ _ Hrun).
  exists (mkResponse 200 [] []
            (mkApiResponse 200
               (D_user (Some (select ["password"; "refreshToken"]
                                (toObject updated))))
               "user updated successfully.")),
    (log (EvDbWrite id) (with_users (replace_doc id updated (users w)) w)),
    updated, (select ["password"; "refreshToken"] (toObject updated)).
  split; [reflexivity|]. split; [reflexivity|]. split; [reflexivity|].
  split.
  { simpl. apply find_replace_doc with (s := stored); [|exact Hfind].
    unfold updated. rewrite !apply_set_id.
    now apply find_id_eq with (us := users w). }
  repeat split; try (apply select_excluded;
                     rewrite !elem_of_cons; tauto).
  unfold select. apply map_lookup_filter_Some. split.
  - unfold toObject, put_optional, updated. simpl.
    destruct (coverImageId stored), (coverImage stored), (avatarId stored),
      (refreshToken stored); now simplify_map_eq.
  - simpl. intros H. rewrite !elem_of_cons, elem_of_nil in H.
    intuition discriminate.
Qed.

Lemma update_details_stores_normalised_fields_run :
  exists resp w',
    updateUserDetails Demo.ext
      (Demo.details_of Demo.ann (Some " Ann L ") (Some "NOT an email "))
      Demo.world = (Normal resp, w') /\
    (email <$> List.find (fun u => (_id u =? 1)%nat) (users w'))
    = Some "not an email" /\
    (fullName <$> List.find (fun u => (_id u =? 1)%nat) (users w'))
    = Some "Ann L".
Proof.
  destruct (update_details_stores_normalised_fields Demo.ext
              (Demo.details_of Demo.ann (Some " Ann L ") (Some "NOT an email "))
              Demo.world Demo.ann " Ann L " "NOT an email ")
    as (resp & w' & updated & doc & Hrun & _ & _ & Hstored & Hname & Hmail & _).
  - reflexivity.
  - reflexivity.
  - discriminate.
  - discriminate.
  - reflexivity.
  - constructor; [left; reflexivity|].
    constructor; [right; vm_compute; discriminate|]. constructor.
  - exists resp, w'. split; [exact Hrun|].
    change (_id (auth_user (Demo.details_of Demo.ann (Some " Ann L ")
                              (Some "NOT an email ")))) with 1 in Hstored.
    rewrite Hstored. simpl. now rewrite Hname, Hmail.
Defined.

(** X12. [updateUserDetails] does not check that the update found a
    record: when the user is gone it still answers 200, with a [null]
    user, and the world is unchanged. *)
Theorem update_details_of_missing_user
    (ext : Collaborators) (req : AuthRequest) (w : World) (name mail : string) :
  body_fullName (auth_body req) = Some name ->
  body_email (auth_body req) = Some mail ->
  name <> "" -> mail <> "" ->
  List.find (fun u => (_id u =? _id (auth_user req))%nat) (users w) = None ->
  updateUserDetails ext req w
  = (Normal (mkResponse 200 [] []
               (mkApiResponse 200 (D_user None) "user updated successfully.")),
     w).
Proof.
  intros Hn Hm Hne Hme Hfind.
  rewrite (updateUserDetails_update ext req w name mail Hn Hm Hne Hme).
  now rewrite (bind_normal _ _ _ _ _ (findByIdAndUpdate_missing ext _ _ _ Hfind)).
Qed.

Lemma update_details_of_missing_user_run :
  updateUserDetails Demo.ext
    (Demo.details_of Scenario.dan (Some "Dan") (Some "dan@y.com")) Demo.world
  = (Normal (mkResponse 200 [] []
               (mkApiResponse 200 (D_user None) "user updated successfully.")),
     Demo.world).
Proof.
  apply (update_details_of_missing_user Demo.ext
           (Demo.details_of Scenario.dan (Some "Dan") (Some "dan@y.com"))
           Demo.world "Dan" "dan@y.com").
  - reflexivity.
  - reflexivity.
  - discriminate.
  - discriminate.
  - reflexivity.
Defined.

(** X13. When the normalised email belongs to another user, the unique
    index refuses the update: [updateUserDetails] throws the store's
    duplicate-key error, not an [ApiError] with status 409, and nothing
    is written. *)
Theorem update_details_email_taken
    (ext : Collaborators) (req : AuthRequest) (w : World)
    (stored other : User) (name mail : string) :
  let id := _id (auth_user req) in
  body_fullName (auth_body req) = Some name ->
  body_email (auth_body req) = Some mail ->
  name <> "" -> mail <> "" ->
  List.find (fun u => (_id u =? id)%nat) (users w) = Some stored ->
  In other (users w) -> _id other <> id ->
  email other = Js.toLowerCase (Js.trim mail) ->
  updateUserDetails ext req w
  = (Thrown (LibError "MongoServerError" "E11000 duplicate key error"), w).
Proof.
  intros id Hn Hm Hne Hme Hfind Hin Hid Hmail.
  rewrite (updateUserDetails_update ext req w name mail Hn Hm Hne Hme).
  unfold bind, findByIdAndUpdate. fold id. rewrite Hfind.
  rewrite castUpdate_defined by reflexivity. cbn [sets_email List.find].
  assert (Hclash : existsb
            (fun u => negb (_id u =? id)%nat
                      && matches (Some (Js.toLowerCase (Js.trim mail))) (email u))
            (users w) = true).
  { apply existsb_exists. exists other. split; [exact Hin|].
    apply andb_true_iff. split.
    - apply negb_true_iff. now apply Nat.eqb_neq.
    - simpl. rewrite Hmail. apply String.eqb_refl. }
  now rewrite Hclash.
Qed.

Lemma update_details_email_taken_run :
  updateUserDetails Demo.ext
    (Demo.details_of Demo.ann (Some "Ann") (Some "BOB@x.com")) Demo.world
  = (Thrown (LibError "MongoServerError" "E11000 duplicate key error"),
     Demo.world).
Proof.
  apply (update_details_email_taken Demo.ext
           (Demo.details_of Demo.ann (Some "Ann") (Some "BOB@x.com"))
           Demo.world Demo.ann Demo.bob "Ann" "BOB@x.com").
  - reflexivity.
  - reflexivity.
  - discriminate.
  - discriminate.
  - reflexivity.
  - right. left. reflexivity.
  - discriminate.
  - reflexivity.
Defined.

(** ** Cover image and avatar replacement *)

Section MediaFacts.

Variable ext : Collaborators.

(** [updateUserCoverImage] up to the write of the new cover. *)
Lemma updateUserCoverImage_persisted req w p asset stored :
  let id := _id (auth_user req) in
  let updated :=
    apply_set (apply_set stored (Set_coverImage (url asset)))
      (Set_coverImageId (public_id asset)) in
  let persisted :=
    log (EvDbWrite id)
      (with_users (replace_doc id updated (users w))
         (log (EvUnlink p) (with_disk (disk w ∖ {[p]}) (log (EvUpload p) w)))) in
  auth_file req ≫= path = Some p -> p <> "" -> p ∈ disk w ->
  cloudinary_upload ext w p = Some asset ->
  List.find (fun u => (_id u =? id)%nat) (users w) = Some stored ->
  updateUserCoverImage ext req w
  = (if negb (Js.truthy (coverImageId (auth_user req)))
     then throw (ApiError 400 "unauthorized request.")
     else
       let* response := deleteOnCloudinary ext (coverImageId (auth_user req)) in
       match response with
       | None => throw (ApiError 400 "Error while deleting the current cover image")
       | Some _ =>
           ret (mkResponse 200 [] []
                  (mkApiResponse 200
                     (D_data (select excluded_fields (toObject updated)))
                     "cover image successfully updated."))
       end) persisted.
Proof.
  intros id updated persisted Hfile Hp Hin Hup Hfind.
  unfold updateUserCoverImage. rewrite Hfile, (truthy_Some p Hp). cbn [negb].
  rewrite (bind_normal _ _ _ _ _ (uploadOnCloudinary_present ext p w Hp Hin)).
  rewrite Hup.
  erewrite bind_normal; cycle 1.
  { apply findByIdAndUpdate_found with (stored := stored).
    - exact Hfind.
    - now rewrite castUpdate_defined. }
  rewrite castUpdate_defined by reflexivity. reflexivity.
Qed.

End MediaFacts.

(** X14. [updateUserCoverImage] with the file on disk, the upload
    succeeding, the user in the collection and a non-empty old cover
    id: the calls are the upload, the unlink, the write of the new URL
    and id, then exactly one destroy of the old id.  The record keeps
    the new cover whatever the destroy answers; a failed destroy gives
    status 400, a successful one 200. *)
Theorem cover_swap_kept_when_delete_fails
    (ext : Collaborators) (req : AuthRequest) (w : World)
    (p old : string) (asset : Asset) (stored : User) :
  let id := _id (auth_user req) in
  let updated :=
    apply_set (apply_set stored (Set_coverImage (url asset)))
      (Set_coverImageId (public_id asset)) in
  let persisted :=
    log (EvDbWrite id)
      (with_users (replace_doc id updated (users w))
         (log (EvUnlink p) (with_disk (disk w ∖ {[p]}) (log (EvUpload p) w)))) in
  auth_file req ≫= path = Some p -> p <> "" -> p ∈ disk w ->
  cloudinary_upload ext w p = Some asset ->
  List.find (fun u => (_id u =? id)%nat) (users w) = Some stored ->
  coverImageId (auth_user req) = Some old -> old <> "" ->
  exists r w',
    updateUserCoverImage ext req w = (r, w') /\
    trace w'
    = (trace w ++ [EvUpload p; EvUnlink p; EvDbWrite id; EvDestroy old])%list /\
    List.find (fun u => (_id u =? id)%nat) (users w') = Some updated /\
    coverImage updated = Some (url asset) /\
    coverImageId updated = Some (public_id asset) /\
    avatar updated = avatar stored /\
    (cloudinary_destroy ext persisted old = None ->
     r = Thrown (ApiError 400 "Error while deleting the current cover image")) /\
    (is_Some (cloudinary_destroy ext persisted old) ->
     exists resp, r = Normal resp /\ status resp = 200%Z).
Proof.
  intros id updated persisted Hfile Hp Hin Hup Hfind Hold Hne.
  rewrite (updateUserCoverImage_persisted ext req w p asset stored
             Hfile Hp Hin Hup Hfind).
  rewrite Hold, (truthy_Some old Hne). cbn [negb].
  rewrite (bind_normal _ _ _ _ _ (deleteOnCloudinary_truthy ext old _ Hne)).
  fold id. fold updated. fold persisted.
  exists (match cloudinary_destroy ext persisted old with
          | Some _ =>
              Normal (mkResponse 200 [] []
                        (mkApiResponse 200
                           (D_data (select excluded_fields (toObject updated)))
                           "cover image successfully updated."))
          | None =>
              Thrown (ApiError 400 "Error while deleting the current cover image")
          end), (log (EvDestroy old) persisted).
  split; [destruct (cloudinary_destroy ext persisted old); reflexivity|].
  split; [simpl; now rewrite <- !app_assoc|].
  split.
  { simpl. apply find_replace_doc with (s := stored); [|exact Hfind].
    unfold updated. rewrite !apply_set_id.
    now apply find_id_eq with (us := users w). }
  repeat split.
  - now intros ->.
  - intros [x ->]. eexists. split; reflexivity.
Qed.

Lemma cover_swap_kept_when_delete_fails_run :
  exists w',
    updateUserCoverImage Demo.ext
      (Scenario.new_cover_of
         (mkUser 2 "bob" "bob@x.com" "Bob" "https://cdn.example/bob.png"
            (Some "id:bob") (Some "https://cdn.example/c.png")
            (Some "id:locked") [] "$2b$10$hunter2" None)
         (Some "tmp/new.png")) Demo.world
    = (Thrown (ApiError 400 "Error while deleting the current cover image"), w') /\
    (coverImage <$> List.find (fun u => (_id u =? 2)%nat) (users w'))
    = Some (Some "https://cdn.example/tmp/new.png").
Proof.
  destruct (cover_swap_kept_when_delete_fails Demo.ext
              (Scenario.new_cover_of
                 (mkUser 2 "bob" "bob@x.com" "Bob" "https://cdn.example/bob.png"
                    (Some "id:bob") (Some "https://cdn.example/c.png")
                    (Some "id:locked") [] "$2b$10$hunter2" None)
                 (Some "tmp/new.png")) Demo.world "tmp/new.png" "id:locked"
              (mkAsset "https://cdn.example/tmp/new.png" "id:tmp/new.png")
              Demo.bob)
    as (r & w' & Hrun & _ & Hstored & _ & _ & _ & Hfail & _).
  - reflexivity.
  - discriminate.
  - vm_compute. reflexivity.
  - reflexivity.
  - reflexivity.
  - reflexivity.
  - discriminate.
  - exists w'. split.
    + rewrite Hrun. f_equal. apply Hfail. reflexivity.
    + exact (f_equal (fmap coverImage) Hstored).
Defined.

(** X15. A user whose record was read without a cover asset id, as
    after a registration without cover image, cannot complete a cover
    update: the new upload is made and written on the record, then the
    controller throws status 400 "unauthorized request." and no destroy
    call is made. *)
Theorem first_cover_update_is_refused_after_the_write
    (ext : Collaborators) (req : AuthRequest) (w : World)
    (p : string) (asset : Asset) (stored : User) :
  let id := _id (auth_user req) in
  let updated :=
    apply_set (apply_set stored (Set_coverImage (url asset)))
      (Set_coverImageId (public_id asset)) in
  auth_file req ≫= path = Some p -> p <> "" -> p ∈ disk w ->
  cloudinary_upload ext w p = Some asset ->
  List.find (fun u => (_id u =? id)%nat) (users w) = Some stored ->
  Js.truthy (coverImageId (auth_user req)) = false ->
  exists w',
    updateUserCoverImage ext req w
    = (Thrown (ApiError 400 "unauthorized request."), w') /\
    trace w' = (trace w ++ [EvUpload p; EvUnlink p; EvDbWrite id])%list /\
    List.find (fun u => (_id u =? id)%nat) (users w') = Some updated /\
    coverImage updated = Some (url asset) /\
    coverImageId updated = Some (public_id asset).
Proof.
  intros id updated Hfile Hp Hin Hup Hfind Hnone.
  rewrite (updateUserCoverImage_persisted ext req w p asset stored
             Hfile Hp Hin Hup Hfind).
  rewrite Hnone. cbn [negb]. eexists. split; [reflexivity|].
  split; [simpl; now rewrite <- !app_assoc|].
  split; [|split; reflexivity].
  simpl. apply find_replace_doc with (s := stored); [|exact Hfind].
  unfold updated. rewrite !apply_set_id.
  now apply find_id_eq with (us := users w).
Qed.

Lemma first_cover_update_is_refused_after_the_write_run :
  exists w',
    updateUserCoverImage Demo.ext
      (Scenario.new_cover_of Scenario.dan (Some "tmp/cover.png")) Scenario.world
    = (Thrown (ApiError 400 "unauthorized request."), w') /\
    trace w' = [EvUpload "tmp/cover.png"; EvUnlink "tmp/cover.png"; EvDbWrite 3] /\
    (coverImage <$> List.find (fun u => (_id u =? 3)%nat) (users w'))
    = Some (Some "https://cdn.example/tmp/cover.png").
Proof.
  destruct (first_cover_update_is_refused_after_the_write Demo.ext
              (Scenario.new_cover_of Scenario.dan (Some "tmp/cover.png"))
              Scenario.world "tmp/cover.png"
              (mkAsset "https://cdn.example/tmp/cover.png" "id:tmp/cover.png")
              Scenario.dan)
    as (w' & Hrun & Htrace & Hstored & _).
  - reflexivity.
  - discriminate.
  - vm_compute. reflexivity.
  - reflexivity.
  - reflexivity.
  - reflexivity.
  - exists w'. split; [exact Hrun|]. split; [exact Htrace|].
    exact (f_equal (fmap coverImage) Hstored).
Defined.

(** X16. When the new avatar's upload fails, [updateUserAvatar] throws
    status 400; the temporary file has been unlinked, and nothing else
    happened: no write to the collection and no destroy call.  When the
    upload succeeds but the user's record is gone, it throws status 401
    after the upload: the new asset stays on the remote host and no
    destroy call is made. *)
Theorem avatar_update_without_write
    (ext : Collaborators) (req : AuthRequest) (w : World) (p : string) :
  auth_file req ≫= path = Some p -> p <> "" -> p ∈ disk w ->
  cloudinary_upload ext w p = None \/
  List.find (fun u => (_id u =? _id (auth_user req))%nat) (users w) = None ->
  exists e w',
    updateUserAvatar ext req w = (Thrown e, w') /\
    users w' = users w /\
    trace w' = (trace w ++ [EvUpload p; EvUnlink p])%list /\
    disk w' = disk w ∖ {[p]} /\
    (cloudinary_upload ext w p = None ->
     e = ApiError 400 "Error while uploading a new avatar to cloudinary.") /\
    (is_Some (cloudinary_upload ext w p) ->
     e = ApiError 401 "unauthorized request.").
Proof.
  intros Hfile Hp Hin Hcase.
  unfold updateUserAvatar. rewrite Hfile, (truthy_Some p Hp). cbn [negb].
  rewrite (bind_normal _ _ _ _ _ (uploadOnCloudinary_present ext p w Hp Hin)).
  destruct (cloudinary_upload ext w p) as [asset|] eqn:Hup.
  - destruct Hcase as [Hcase | Hgone]; [discriminate Hcase|].
    erewrite bind_normal; cycle 1.
    { apply findByIdAndUpdate_missing. exact Hgone. }
    cbn [fmap option_fmap option_map]. do 2 eexists.
    split; [reflexivity|]. split; [reflexivity|].
    split; [simpl; now rewrite <- !app_assoc|]. split; [reflexivity|].
    split; [discriminate | reflexivity].
  - do 2 eexists. split; [reflexivity|]. split; [reflexivity|].
    split; [simpl; now rewrite <- !app_assoc|]. split; [reflexivity|].
    split; [reflexivity | intros [x Hx]; discriminate Hx].
Qed.

Lemma avatar_update_without_write_run :
  exists w',
    updateUserAvatar Demo.ext
      (mkAuthRequest Demo.ann Demo.no_body
         (Some (mkFile (Some "tmp/broken.png")))) Demo.world
    = (Thrown (ApiError 400 "Error while uploading a new avatar to cloudinary."),
       w') /\
    users w' = users Demo.world.
Proof.
  destruct (avatar_update_without_write Demo.ext
              (mkAuthRequest Demo.ann Demo.no_body
                 (Some (mkFile (Some "tmp/broken.png")))) Demo.world
              "tmp/broken.png")
    as (e & w' & Hrun & Husers & _ & _ & Hfail & _).
  - reflexivity.
  - discriminate.
  - vm_compute. reflexivity.
  - left. reflexivity.
  - exists w'. split; [|exact Husers]. rewrite Hrun, Hfail; reflexivity.
Defined.

(** ** Registration *)

Section MoreRegisterFacts.

Variable ext : Collaborators.

Lemma find_some_of_In {A} (f : A -> bool) (l : list A) (x : A) :
  In x l -> f x = true -> exists y, List.find f l = Some y.
Proof.
  intros Hin Hf. destruct (List.find f l) as [y|] eqn:E; [now exists y|].
  apply (find_none _ _ E) in Hin. congruence.
Qed.

(** [registerUser] up to the lookup of an existing user. *)
Lemma registerUser_checked req w fn em un :
  let b := req_body req in
  body_fullName b = Some fn -> body_email b = Some em ->
  body_username b = Some un -> Js.blank (body_password b) = false ->
  Js.trim fn <> "" -> Js.trim em <> "" -> Js.trim un <> "" ->
  validator_isEmail ext em = true -> validator_isLowercase ext un = true ->
  registerUser ext req w
  = (let* existedUser := findOne_or (Some un) (Some em) in
     match existedUser with
     | Some _ => throw (ApiError 409 "email or username already in use.")
     | None =>
         let* avatarPath := avatarLocalPath (req_files req) in
         let coverPath := coverImageLocalPath (req_files req) in
         if negb (Js.truthy avatarPath)
         then throw (ApiError 400 "avatar is required.")
         else
           let* avatar := uploadOnCloudinary ext avatarPath in
           let* coverImage := uploadOnCloudinary ext coverPath in
           match avatar with
           | None => throw (ApiError 400 "avatar is required.")
           | Some avatar =>
               let* user :=
                 create ext
                   (mkNewUser (Some fn) (url avatar) (public_id avatar)
                      (from_option url "" coverImage)
                      (from_option public_id "" coverImage)
                      (Js.toLowerCase un) (Some em) (body_password b)) in
               let* createdUser :=
                 findById_select (Some (_id user)) excluded_fields in
               match createdUser with
               | None =>
                   throw (ApiError 500
                     "Something went wrong while registering the user.")
               | Some createdUser =>
                   ret (mkResponse 201 [] []
                          (mkApiResponse 200 (D_doc createdUser)
                             "User registered successfully!"))
               end
           end
     end) w.
Proof.
  intros b Hfn Hem Hun Hpw Tfn Tem Tun Vem Vun.
  unfold registerUser. fold b. rewrite Hfn, Hem, Hun.
  cbn [existsb]. rewrite Hpw, !blank_false by assumption. cbn [orb].
  unfold validator_call at 1. unfold bind at 1, ret at 1. rewrite Vem.
  cbn [negb]. unfold validator_call at 1. unfold bind at 1, ret at 1.
  rewrite Vun. reflexivity.
Qed.

End MoreRegisterFacts.

(** X17. A registration whose username or email is already stored is
    refused with status 409 before any file is looked at: the world is
    left as it was, so the files that the request brought stay on the
    local disk.  The identifiers are given as they are stored, trimmed
    and in lower case. *)
Theorem register_conflict_touches_nothing
    (ext : Collaborators) (req : Request) (w : World)
    (fn em un : string) (existing : User) :
  let b := req_body req in
  body_fullName b = Some fn -> body_email b = Some em ->
  body_username b = Some un -> Js.blank (body_password b) = false ->
  Js.trim fn <> "" -> Js.trim em <> "" -> Js.trim un <> "" ->
  validator_isEmail ext em = true -> validator_isLowercase ext un = true ->
  Js.toLowerCase (Js.trim un) = un -> Js.toLowerCase (Js.trim em) = em ->
  In existing (users w) ->
  username existing = un \/ email existing = em ->
  registerUser ext req w
  = (Thrown (ApiError 409 "email or username already in use."), w).
Proof.
  intros b Hfn Hem Hun Hpw Tfn Tem Tun Vem Vun _ _ Hin Hsame.
  rewrite (registerUser_checked ext req w fn em un) by assumption.
  unfold bind, findOne_or.
  destruct (find_some_of_In
              (fun u => matches (Some un) (username u)
                        || matches (Some em) (email u))
              (users w) existing Hin) as [found ->]; [|reflexivity].
  apply orb_true_iff. simpl.
  destruct Hsame as [<- | <-]; [left | right]; apply String.eqb_refl.
Qed.

Lemma register_conflict_touches_nothing_run :
  registerUser Demo.ext
    (Scenario.register_as "Robert" "bobby" "bob@x.com"
       (Some Demo.avatar_only)) Demo.world
  = (Thrown (ApiError 409 "email or username already in use."), Demo.world) /\
  "tmp/new.png" ∈ disk Demo.world.
Proof.
  split.
  - apply (register_conflict_touches_nothing Demo.ext
             (Scenario.register_as "Robert" "bobby" "bob@x.com"
                (Some Demo.avatar_only)) Demo.world
             "Robert" "bob@x.com" "bobby" Demo.bob);
      try reflexivity; try discriminate.
    + right. left. reflexivity.
    + right. reflexivity.
  - vm_compute. reflexivity.
Defined.

(** X18. When the avatar's upload fails while a cover image came with
    the request, the cover has been uploaded all the same before the
    registration is refused with status 400: both temporary files are
    gone, both remote uploads were called, and no user is created, so
    the cover stays on the remote host without an owner. *)
Theorem register_uploads_cover_before_checking_avatar
    (ext : Collaborators) (req : Request) (w : World)
    (fn em un p cp : string) (fs : Files) (rest rest' : list File) :
  let b := req_body req in
  body_fullName b = Some fn -> body_email b = Some em ->
  body_username b = Some un -> Js.blank (body_password b) = false ->
  Js.trim fn <> "" -> Js.trim em <> "" -> Js.trim un <> "" ->
  validator_isEmail ext em = true -> validator_isLowercase ext un = true ->
  Js.toLowerCase (Js.trim un) = un -> Js.toLowerCase (Js.trim em) = em ->
  Forall (fun u => username u <> un /\ email u <> em) (users w) ->
  req_files req = Some fs ->
  files_avatar fs = Some (mkFile (Some p) :: rest) ->
  files_coverImage fs = Some (mkFile (Some cp) :: rest') ->
  p <> "" -> cp <> "" -> cp <> p -> p ∈ disk w -> cp ∈ disk w ->
  cloudinary_upload ext w p = None ->
  exists w',
    registerUser ext req w
    = (Thrown (ApiError 400 "avatar is required."), w') /\
    users w' = users w /\
    trace w'
    = (trace w ++ [EvUpload p; EvUnlink p; EvUpload cp; EvUnlink cp])%list /\
    disk w' = disk w ∖ {[p]} ∖ {[cp]}.
Proof.
  intros b Hfn Hem Hun Hpw Tfn Tem Tun Vem Vun _ _ Hnew Hfiles Havatar Hcover
    Hp Hcp Hdiff Hin Hcin Hup.
  rewrite (registerUser_checked ext req w fn em un) by assumption.
  unfold bind at 1, findOne_or. rewrite find_none_fresh; cycle 1.
  { eapply Forall_impl; [exact Hnew|]. intros u [H1 H2]. simpl.
    split; apply String.eqb_neq; congruence. }
  unfold avatarLocalPath, coverImageLocalPath.
  rewrite Hfiles, Havatar, Hcover.
  unfold bind at 1, ret at 1. cbn [head mbind option_bind path].
  rewrite (truthy_Some p Hp). cbn [negb].
  rewrite (bind_normal _ _ _ _ _ (uploadOnCloudinary_present ext p w Hp Hin)).
  rewrite Hup.
  erewrite bind_normal; cycle 1.
  { apply uploadOnCloudinary_present; [exact Hcp|]. simpl.
    apply elem_of_difference. split; [exact Hcin|].
    rewrite elem_of_singleton. exact Hdiff. }
  eexists. split; [reflexivity|]. split; [reflexivity|].
  split; [simpl; now rewrite <- !app_assoc | reflexivity].
Qed.

Lemma register_uploads_cover_before_checking_avatar_run :
  exists w',
    registerUser Demo.ext
      (Scenario.register_as "Carol Roe" "carol" "carol@x.com"
         (Some Scenario.both_files)) Demo.world
    = (Thrown (ApiError 400 "avatar is required."), w') /\
    users w' = [Demo.ann; Demo.bob] /\
    trace w'
    = [EvUpload "tmp/broken.png"; EvUnlink "tmp/broken.png";
       EvUpload "tmp/new.png"; EvUnlink "tmp/new.png"].
Proof.
  destruct (register_uploads_cover_before_checking_avatar Demo.ext
              (Scenario.register_as "Carol Roe" "carol" "carol@x.com"
                 (Some Scenario.both_files)) Demo.world
              "Carol Roe" "carol@x.com" "carol" "tmp/broken.png" "tmp/new.png"
              Scenario.both_files [] [])
    as (w' & Hrun & Husers & Htrace & _);
    try reflexivity; try discriminate.
  - constructor; [split; discriminate|].
    constructor; [split; discriminate|]. constructor.
  - exists w'. split; [exact Hrun|]. split; [exact Husers | exact Htrace].
Defined.

(** *** The setters of the schema are idempotent *)

Lemma lower_ascii_idem c : Js.lower_ascii (Js.lower_ascii c) = Js.lower_ascii c.
Proof. destruct c as [[] [] [] [] [] [] [] []]; reflexivity. Qed.

Lemma toLowerCase_idem s : Js.toLowerCase (Js.toLowerCase s) = Js.toLowerCase s.
Proof.
  induction s as [|c r IH]; simpl; [reflexivity|].
  now rewrite lower_ascii_idem, IH.
Qed.

Lemma trimStart_length s : String.length (Js.trimStart s) <= String.length s.
Proof.
  induction s as [|c r IH]; simpl; [lia|].
  destruct (Js.is_space c); simpl; lia.
Qed.

Lemma trimStart_idem s : Js.trimStart (Js.trimStart s) = Js.trimStart s.
Proof.
  induction s as [|c r IH]; simpl; [reflexivity|].
  destruct (Js.is_space c) eqn:E; [exact IH|]. simpl. now rewrite E.
Qed.

Lemma trimEnd_idem s : Js.trimEnd (Js.trimEnd s) = Js.trimEnd s.
Proof.
  induction s as [|c r IH]; simpl; [reflexivity|].
  destruct (Js.trimEnd r) as [|d r'] eqn:E.
  - destruct (Js.is_space c) eqn:Hc; simpl; [reflexivity|]. now rewrite Hc.
  - change (Js.trimEnd (String c (String d r')))
      with (match Js.trimEnd (String d r') with
            | EmptyString =>
                if Js.is_space c then EmptyString else String c EmptyString
            | r0 => String c r0
            end).
    now rewrite IH.
Qed.

Lemma trimStart_trimEnd s :
  Js.trimStart s = s -> Js.trimStart (Js.trimEnd s) = Js.trimEnd s.
Proof.
  destruct s as [|c r]; [reflexivity|]. simpl.
  destruct (Js.is_space c) eqn:Hc.
  - intros H. pose proof (trimStart_length r) as Hlen.
    rewrite H in Hlen. simpl in Hlen. lia.
  - intros _. destruct (Js.trimEnd r); simpl; now rewrite Hc.
Qed.

Lemma trim_idem s : Js.trim (Js.trim s) = Js.trim s.
Proof.
  unfold Js.trim.
  rewrite (trimStart_trimEnd (Js.trimStart s)) by apply trimStart_idem.
  apply trimEnd_idem.
Qed.

(** What [trim] and [lowercase] store is a fixed point of both. *)
Lemma lowercase_trim_idem s :
  Js.toLowerCase (Js.trim (Js.toLowerCase (Js.trim s)))
  = Js.toLowerCase (Js.trim s).
Proof. now rewrite toLowerCase_trim, toLowerCase_idem, trim_idem. Qed.

Section CreateFacts.

Variable ext : Collaborators.

Lemma required_inv v s : required v = Some s -> v = Some s /\ s <> "".
Proof.
  unfold required. destruct v as [x|]; [|discriminate].
  destruct (String.eqb_spec x ""); [discriminate|]. intros [= <-]. now split.
Qed.

(** The document that [User.create] inserts. *)
Lemma create_inv_doc f w u w' :
  create ext f w = (Normal u, w') ->
  exists fn em pw,
    new_fullName f = Some fn /\ new_email f = Some em /\
    new_password f = Some pw /\
    u = mkUser (fresh_id (users w))
          (Js.toLowerCase (Js.trim (new_username f)))
          (Js.toLowerCase (Js.trim em)) (Js.trim fn) (new_avatar f)
          (Some (new_avatarId f)) (Some (new_coverImage f))
          (Some (new_coverImageId f)) [] (bcrypt_hash ext pw 10) None /\
    Forall (fun v => username v <> username u /\ email v <> email u) (users w) /\
    w' = log (EvDbWrite (_id u)) (with_users (users w ++ [u]) w).
Proof.
  unfold create.
  destruct (required (Js.trim <$> _)) as [fn|] eqn:Hfn; [|discriminate].
  destruct (required (_ <$> new_email f)) as [em|] eqn:Hem; [|discriminate].
  destruct (required (Some (Js.toLowerCase _))) as [un|] eqn:Hun;
    [|discriminate].
  destruct (required (Some (new_avatar f))) as [av|] eqn:Hav; [|discriminate].
  destruct (required (new_password f)) as [pw|] eqn:Hpw; [|discriminate].
  destruct (existsb _ _) eqn:Hclash; [discriminate|].
  intros [= <- <-].
  apply required_inv in Hfn as [Hfn _], Hem as [Hem _], Hun as [[= <-] _],
    Hav as [[= <-] _], Hpw as [Hpw _].
  destruct (new_fullName f) as [fn0|]; [|discriminate].
  destruct (new_email f) as [em0|]; [|discriminate].
  injection Hfn as <-. injection Hem as <-.
  exists fn0, em0, pw. split; [reflexivity|]. split; [reflexivity|].
  split; [exact Hpw|]. split; [reflexivity|]. split; [|reflexivity].
  apply Forall_forall. intros v Hv.
  assert (Hv' : (username v =? Js.toLowerCase (Js.trim (new_username f)))
                || (email v =? Js.toLowerCase (Js.trim em0)) = false).
  { destruct (_ || _) eqn:E; [|reflexivity].
    assert (existsb
              (fun u => (username u =? Js.toLowerCase (Js.trim (new_username f)))
                        || (email u =? Js.toLowerCase (Js.trim em0)))
              (users w) = true) as Hex
      by (apply existsb_exists; exists v; split; [now apply list_elem_of_In | exact E]).
    simpl in Hclash. congruence. }
  apply orb_false_iff in Hv' as [H1 H2].
  unfold pre_save. rewrite bool_decide_eq_true_2 by set_solver. simpl.
  split; now apply String.eqb_neq.
Qed.

Lemma uploadOnCloudinary_throws_lib x w e w' :
  uploadOnCloudinary ext x w = (Thrown e, w') ->
  forall s m, e <> ApiError s m.
Proof.
  unfold uploadOnCloudinary, try_catch. destruct x as [p|]; [|discriminate].
  match goal with
  | |- context [match ?body w with _ => _ end] =>
      destruct (body w) as [[a|e0] w1]; [discriminate|]
  end.
  unfold bind, unlinkSync.
  destruct (bool_decide (p ∈ disk w1)); [discriminate|].
  intros [= <- _]. discriminate.
Qed.

Lemma create_throws_lib f w e w' :
  create ext f w = (Thrown e, w') -> forall s m, e <> ApiError s m.
Proof.
  unfold create.
  destruct (required _); [|intros [= <- _]; discriminate].
  destruct (required _); [|intros [= <- _]; discriminate].
  destruct (required _); [|intros [= <- _]; discriminate].
  destruct (required _); [|intros [= <- _]; discriminate].
  destruct (required _); [|intros [= <- _]; discriminate].
  destruct (existsb _ _); [|discriminate]. intros [= <- _]. discriminate.
Qed.

End CreateFacts.

(** X19. Every registration that answers has appended one record whose
    [username] is the submitted one trimmed and in lower case, whose
    [email] likewise, whose [fullName] is trimmed, with no refresh
    token and an empty watch history; when no cover image came with the
    request, [coverImage] and [coverImageId] are stored as the empty
    string. *)
Theorem register_stores_canonical_fields
    (ext : Collaborators) (req : Request) (w : World)
    (resp : Response) (w' : World) :
  registerUser ext req w = (Normal resp, w') ->
  exists fn em un user,
    body_fullName (req_body req) = Some fn /\
    body_email (req_body req) = Some em /\
    body_username (req_body req) = Some un /\
    users w' = (users w ++ [user])%list /\
    username user = Js.toLowerCase (Js.trim un) /\
    email user = Js.toLowerCase (Js.trim em) /\
    fullName user = Js.trim fn /\
    refreshToken user = None /\
    watchHistory user = [] /\
    (Js.truthy (coverImageLocalPath (req_files req)) = false ->
     coverImage user = Some "" /\ coverImageId user = Some "").
Proof.
  intros Hrun. unfold registerUser in Hrun.
  destruct (existsb Js.blank _); [discriminate|].
  apply bind_inv_normal in Hrun as (isEmail & w1 & Hw1 & Hrun).
  apply validator_call_world in Hw1 as ->.
  destruct (negb isEmail); [discriminate|].
  apply bind_inv_normal in Hrun as (isLowercase & w2 & Hw2 & Hrun).
  pose proof (validator_call_world _ _ _ _ _ Hw2) as ->.
  destruct (body_username (req_body req)) as [un|] eqn:Hun; [|discriminate].
  clear Hw2. destruct (negb isLowercase); [discriminate|].
  apply bind_inv_normal in Hrun as (existedUser & w3 & Hw3 & Hrun).
  unfold findOne_or in Hw3. injection Hw3 as _ <-.
  destruct existedUser; [discriminate|].
  apply bind_inv_normal in Hrun as (avatarPath & w4 & Hw4 & Hrun).
  apply avatarLocalPath_world in Hw4 as ->.
  destruct (negb (Js.truthy avatarPath)); [discriminate|].
  apply bind_inv_normal in Hrun as (avatar & w5 & Hw5 & Hrun).
  apply uploadOnCloudinary_effect in Hw5 as [Hu5 _].
  apply bind_inv_normal in Hrun as (cover & w6 & Hw6 & Hrun).
  assert (Hcover : Js.truthy (coverImageLocalPath (req_files req)) = false ->
                   cover = None).
  { intros Hfalsy. rewrite (uploadOnCloudinary_falsy ext _ w5 Hfalsy) in Hw6.
    now injection Hw6 as <- _. }
  apply uploadOnCloudinary_effect in Hw6 as [Hu6 _].
  destruct avatar as [avatar|]; [|discriminate].
  apply bind_inv_normal in Hrun as (user & w7 & Hcreate & Hrun).
  apply create_inv_doc in Hcreate
    as (fn & em & pw & Hfn & Hem & _ & Hdoc & _ & Hw7).
  cbn [new_fullName new_email new_username new_coverImage new_coverImageId
       new_avatar new_avatarId default id] in Hfn, Hem, Hdoc.
  apply bind_inv_normal in Hrun as (createdUser & w8 & Hsel & Hrun).
  apply findById_select_world in Hsel as ->.
  destruct createdUser; [|discriminate].
  unfold ret in Hrun. injection Hrun as _ <-.
  exists fn, em, un, user. rewrite Hfn, Hem.
  split; [reflexivity|]. split; [reflexivity|]. split; [reflexivity|].
  split; [rewrite Hw7; simpl; now rewrite Hu6, Hu5|].
  rewrite Hdoc. cbn [username email fullName refreshToken watchHistory
                     coverImage coverImageId].
  split; [now rewrite toLowerCase_trim, toLowerCase_idem|].
  split; [reflexivity|]. split; [reflexivity|]. split; [reflexivity|].
  split; [reflexivity|].
  intros Hfalsy. rewrite (Hcover Hfalsy). split; reflexivity.
Qed.

Lemma register_stores_canonical_fields_run :
  exists resp w' user,
    registerUser Demo.ext
      (Scenario.register_as " Carol Roe " "carol" "Carol@X.com"
         (Some Demo.avatar_only)) Demo.world = (Normal resp, w') /\
    users w' = [Demo.ann; Demo.bob; user] /\
    username user = "carol" /\ email user = "carol@x.com" /\
    fullName user = "Carol Roe" /\ coverImageId user = Some "".
Proof.
  destruct (registerUser Demo.ext
              (Scenario.register_as " Carol Roe " "carol" "Carol@X.com"
                 (Some Demo.avatar_only)) Demo.world)
    as [[resp|e] w'] eqn:Hrun; [|vm_compute in Hrun; discriminate Hrun].
  destruct (register_stores_canonical_fields Demo.ext _ _ _ _ Hrun)
    as (fn & em & un & user & Hfn & Hem & Hun & Husers & Hu & He & Hf & _ & _
        & Hcover).
  injection Hfn as <-. injection Hem as <-. injection Hun as <-.
  exists resp, w', user. split; [reflexivity|]. split; [exact Husers|].
  split; [exact Hu|]. split; [exact He|]. split; [exact Hf|].
  apply Hcover. reflexivity.
Defined.

(** X20. [registerUser] never throws its status 500 error: the record
    that [User.create] has just inserted is found by the [findById]
    that follows, so the check of the created user cannot fail. *)
Theorem register_never_answers_500
    (ext : Collaborators) (req : Request) (w : World) (msg : string) :
  fst (registerUser ext req w) <> Thrown (ApiError 500 msg).
Proof.
  destruct (registerUser ext req w) as [r w'] eqn:Hrun. simpl. intros ->.
  unfold registerUser in Hrun.
  destruct (existsb Js.blank _); [discriminate|].
  apply bind_inv_thrown in Hrun as [H | (isEmail & w1 & _ & Hrun)].
  { unfold validator_call in H. now destruct (body_email _). }
  destruct (negb isEmail); [discriminate|].
  apply bind_inv_thrown in Hrun as [H | (isLowercase & w2 & _ & Hrun)].
  { unfold validator_call in H. now destruct (body_username _). }
  destruct (negb isLowercase); [discriminate|].
  apply bind_inv_thrown in Hrun as [H | (existedUser & w3 & _ & Hrun)];
    [discriminate|].
  destruct existedUser; [discriminate|].
  apply bind_inv_thrown in Hrun as [H | (avatarPath & w4 & _ & Hrun)].
  { unfold avatarLocalPath in H. destruct (req_files req) as [fs|];
      [destruct (files_avatar fs)|]; discriminate. }
  destruct (negb (Js.truthy avatarPath)); [discriminate|].
  apply bind_inv_thrown in Hrun as [H | (avatar & w5 & _ & Hrun)].
  { now apply uploadOnCloudinary_throws_lib with (s := 500%Z) (m := msg) in H. }
  apply bind_inv_thrown in Hrun as [H | (coverImage & w6 & _ & Hrun)].
  { now apply uploadOnCloudinary_throws_lib with (s := 500%Z) (m := msg) in H. }
  destruct avatar as [avatar|]; [|discriminate].
  apply bind_inv_thrown in Hrun as [H | (user & w7 & Hcreate & Hrun)].
  { now apply create_throws_lib with (s := 500%Z) (m := msg) in H. }
  apply create_inv in Hcreate as (_ & _ & _ & _ & Hid & Husers & _).
  unfold findById_select, bind, findById, ret in Hrun.
  rewrite Husers, find_fresh in Hrun by exact Hid. discriminate.
Qed.

(** ** Invariants of the users collection *)

(** *** Computations that keep a relation between the worlds *)

Section Keeps.

Context (R : relation World) `{!PreOrder R}.

Lemma keeps_ret {A} (a : A) : keeps R (ret a).
Proof. intros w. reflexivity. Qed.

Lemma keeps_throw {A} e : keeps R (@throw A e).
Proof. intros w. reflexivity. Qed.

Lemma keeps_bind {A B} (c : Async A) (k : A -> Async B) :
  keeps R c -> (forall a, keeps R (k a)) -> keeps R (bind c k).
Proof.
  intros Hc Hk w. specialize (Hc w). unfold bind.
  destruct (c w) as [[a|e] w1]; simpl in *; [|exact Hc].
  transitivity w1; [exact Hc | apply Hk].
Qed.

Lemma keeps_try_catch {A} (body : Async A) handler :
  keeps R body -> (forall e, keeps R (handler e)) ->
  keeps R (try_catch body handler).
Proof.
  intros Hb Hh w. specialize (Hb w). unfold try_catch.
  destruct (body w) as [[a|e] w1]; simpl in *; [exact Hb|].
  transitivity w1; [exact Hb | apply Hh].
Qed.

Lemma keeps_silent {A} (c : Async A) : silent c -> keeps R c.
Proof. intros H w. rewrite H. reflexivity. Qed.

(** The document that [findById] hands to the rest carries the id
    that was asked for. *)
Lemma keeps_bind_findById {B} id (k : option User -> Async B) :
  (forall u, (forall x, u = Some x -> _id x = id) -> keeps R (k u)) ->
  keeps R (bind (findById (Some id)) k).
Proof.
  intros Hk w. unfold bind, findById. apply Hk.
  intros x Hx. now apply find_id_eq with (us := users w).
Qed.

End Keeps.

(** *** The reads *)

Section Reads.

Variable ext : Collaborators.

Lemma silent_findById i : silent (findById i).
Proof. now intros w. Qed.

Lemma silent_findOne_or un em : silent (findOne_or un em).
Proof. now intros w. Qed.

Lemma silent_verify token secret : silent (verify ext token secret).
Proof. intros w. unfold verify. now destruct (jwt_verify _ _ _ _). Qed.

Lemma silent_generateAccessToken u : silent (generateAccessToken ext u).
Proof. now intros w. Qed.

Lemma silent_generateRefreshToken u : silent (generateRefreshToken ext u).
Proof. now intros w. Qed.

Lemma silent_isPasswordCorrect u p : silent (isPasswordCorrect ext u p).
Proof. intros w. now destruct p. Qed.

Lemma silent_validator_call f x : silent (validator_call f x).
Proof. intros w. now destruct x. Qed.

Lemma silent_avatarLocalPath files : silent (avatarLocalPath files).
Proof.
  intros w. unfold avatarLocalPath.
  destruct files as [fs|]; [destruct (files_avatar fs)|]; reflexivity.
Qed.

Lemma silent_some_blank fields : silent (some_blank fields).
Proof.
  intros w. induction fields as [|[s|] r IH]; simpl; [reflexivity| |reflexivity].
  destruct (Js.trim s =? ""); [reflexivity | exact IH].
Qed.

End Reads.

(** *** The world evolves *)

Section Evolution.

Variable ext : Collaborators.

Lemma evolves_refl w : evolves ext w w.
Proof.
  split; [reflexivity|]. split; [reflexivity|].
  split; [exists []; now rewrite app_nil_r | constructor].
Qed.

Lemma evolves_trans w1 w2 w3 :
  evolves ext w1 w2 -> evolves ext w2 w3 -> evolves ext w1 w3.
Proof.
  intros (N1 & D1 & [e1 T1] & S1) (N2 & D2 & [e2 T2] & S2).
  split; [congruence|]. split; [now transitivity (disk w2)|].
  split; [exists (e1 ++ e2)%list; now rewrite T2, T1, app_assoc|].
  now transitivity (users w2).
Qed.

#[global] Instance evolves_po : PreOrder (evolves ext).
Proof. split; [exact evolves_refl | exact evolves_trans]. Qed.

(** A world that differs by one more logged call and fewer files. *)
Lemma evolves_log e d w :
  d ⊆ disk w -> evolves ext w (log e (with_disk d w)).
Proof.
  intros Hd. split; [reflexivity|]. split; [exact Hd|].
  split; [now exists [e] | constructor].
Qed.

Lemma evolves_write id us w :
  store_step ext (users w) us ->
  evolves ext w (log (EvDbWrite id) (with_users us w)).
Proof.
  intros Hs. split; [reflexivity|]. split; [reflexivity|].
  split; [now exists [EvDbWrite id] | now apply rtc_once].
Qed.

(** *** The calls that leave the process *)

Lemma evolves_unlinkSync x : keeps (evolves ext) (unlinkSync x).
Proof.
  intros w. unfold unlinkSync. destruct x as [p|]; [|apply evolves_refl].
  destruct (bool_decide (p ∈ disk w)); simpl.
  - apply evolves_log. apply subseteq_difference_l. reflexivity.
  - apply (evolves_log (EvUnlink p) (disk w) w). reflexivity.
Qed.

Lemma evolves_uploader_upload p : keeps (evolves ext) (uploader_upload ext p).
Proof.
  intros w. unfold uploader_upload.
  destruct (cloudinary_upload ext w p); simpl;
    apply (evolves_log (EvUpload p) (disk w) w); reflexivity.
Qed.

Lemma evolves_uploader_destroy i :
  keeps (evolves ext) (uploader_destroy ext i).
Proof.
  intros w. unfold uploader_destroy.
  destruct (cloudinary_destroy ext w i); simpl;
    apply (evolves_log (EvDestroy i) (disk w) w); reflexivity.
Qed.

(** *** The writes *)

Lemma create_thrown_world f w e w' :
  create ext f w = (Thrown e, w') -> w' = w.
Proof.
  unfold create.
  destruct (required _); [|now intros [= _ <-]].
  destruct (required _); [|now intros [= _ <-]].
  destruct (required _); [|now intros [= _ <-]].
  destruct (required _); [|now intros [= _ <-]].
  destruct (required _); [|now intros [= _ <-]].
  destruct (existsb _ _); [|discriminate]. now intros [= _ <-].
Qed.

Lemma evolves_create f : keeps (evolves ext) (create ext f).
Proof.
  intros w. destruct (create ext f w) as [[u|e] w'] eqn:H; simpl.
  - apply create_inv_doc in H
      as (fn & em & pw & _ & _ & _ & Hdoc & Hnew & ->).
    apply evolves_write. apply store_insert.
    + now rewrite Hdoc.
    + exact Hnew.
    + exists pw. now rewrite Hdoc.
    + rewrite Hdoc. split; [apply lowercase_trim_idem|].
      split; [apply lowercase_trim_idem | apply trim_idem].
  - apply create_thrown_world in H as ->. apply evolves_refl.
Qed.

Lemma store_update_at id stored d us :
  List.find (fun u => (_id u =? id)%nat) us = Some stored ->
  _id d = id ->
  username d = username stored ->
  (email d = email stored \/
   Js.toLowerCase (Js.trim (email d)) = email d /\
   Forall (fun u => _id u = id \/ email u <> email d) us) ->
  (fullName d = fullName stored \/ Js.trim (fullName d) = fullName d) ->
  (password d = password stored \/ hashed ext d) ->
  store_step ext us (replace_doc id d us).
Proof. intros Hf <-. now apply store_update. Qed.

Lemma write_modified_keeps paths src dst :
  _id (write_modified paths src dst) = _id dst /\
  username (write_modified paths src dst) = username dst /\
  email (write_modified paths src dst) = email dst /\
  fullName (write_modified paths src dst) = fullName dst /\
  password (write_modified paths src dst)
  = (if bool_decide ("password" ∈ paths) then password src else password dst).
Proof.
  unfold write_modified.
  destruct (bool_decide ("password" ∈ paths));
    destruct (bool_decide ("refreshToken" ∈ paths)); now repeat split.
Qed.

Lemma evolves_save doc paths : keeps (evolves ext) (save ext doc paths).
Proof.
  intros w. unfold save.
  destruct (List.find _ (users w)) as [stored|] eqn:Hf; simpl;
    [|apply evolves_refl].
  destruct (write_modified_keeps paths (pre_save ext paths doc) stored)
    as (Hid & Hun & Hem & Hfn & Hpw).
  apply evolves_write. apply store_update_at with (stored := stored).
  - exact Hf.
  - rewrite Hid. now apply find_id_eq with (us := users w).
  - exact Hun.
  - now left.
  - now left.
  - destruct (bool_decide ("password" ∈ paths)) eqn:E; [right | now left].
    exists (password doc). rewrite Hpw. unfold pre_save. now rewrite E.
Qed.

Lemma apply_set_keeps u s :
  username (apply_set u s) = username u /\
  password (apply_set u s) = password u /\
  (fullName (apply_set u s) = fullName u \/
   Js.trim (fullName (apply_set u s)) = fullName (apply_set u s)).
Proof.
  destruct s; simpl; repeat split; try (now left).
  right. apply trim_idem.
Qed.

Lemma fold_apply_set_keeps upd u :
  username (fold_left apply_set upd u) = username u /\
  password (fold_left apply_set upd u) = password u /\
  (fullName (fold_left apply_set upd u) = fullName u \/
   Js.trim (fullName (fold_left apply_set upd u))
   = fullName (fold_left apply_set upd u)).
Proof.
  revert u. induction upd as [|s r IH]; intros u; simpl.
  - repeat split. now left.
  - destruct (IH (apply_set u s)) as (H1 & H2 & H3).
    destruct (apply_set_keeps u s) as (K1 & K2 & K3).
    split; [congruence|]. split; [congruence|].
    destruct H3 as [H3 | H3]; [|now right].
    rewrite H3. exact K3.
Qed.

Lemma sets_email_canonical upd e :
  sets_email upd = Some e -> Js.toLowerCase (Js.trim e) = e.
Proof.
  unfold sets_email. destruct (List.find _ upd) as [[]|]; try discriminate.
  intros [= <-]. apply lowercase_trim_idem.
Qed.

(** An update whose last [email] key is its first one. *)
Lemma evolves_findByIdAndUpdate id upd :
  (forall stored,
      email (fold_left apply_set (castUpdate ext upd) stored)
      = default (email stored) (sets_email (castUpdate ext upd))) ->
  keeps (evolves ext) (findByIdAndUpdate ext id upd).
Proof.
  intros Hemail w. unfold findByIdAndUpdate.
  destruct (List.find _ (users w)) as [stored|] eqn:Hf; simpl;
    [|apply evolves_refl].
  destruct (existsb _ (users w)) eqn:Hclash; simpl; [apply evolves_refl|].
  destruct (fold_apply_set_keeps (castUpdate ext upd) stored)
    as (Hun & Hpw & Hfn).
  apply evolves_write. apply store_update_at with (stored := stored).
  - exact Hf.
  - rewrite fold_apply_set_id. now apply find_id_eq with (us := users w).
  - exact Hun.
  - rewrite Hemail.
    destruct (sets_email (castUpdate ext upd)) as [e|] eqn:He; simpl;
      [right | now left].
    split; [now apply sets_email_canonical with (upd := castUpdate ext upd)|].
    apply Forall_forall. intros u Hu.
    destruct (Nat.eqb_spec (_id u) id) as [Heq | Hne]; [now left | right].
    intros Hsame.
    assert (existsb
              (fun u0 => negb (_id u0 =? id)%nat && matches (Some e) (email u0))
              (users w) = true) as Hex.
    { apply existsb_exists. exists u. split; [now apply list_elem_of_In|].
      apply andb_true_iff. split.
      - apply negb_true_iff. now apply Nat.eqb_neq.
      - simpl. rewrite Hsame. apply String.eqb_refl. }
    congruence.
  - exact Hfn.
  - now left.
Qed.

End Evolution.

(** *** Only the caller's record is written *)

Section WritesOnly.

Variable ext : Collaborators.

#[global] Instance writes_only_po id : PreOrder (writes_only id).
Proof.
  split.
  - intros w id' _. reflexivity.
  - intros w1 w2 w3 H12 H23 id' Hne. now rewrite H23, H12.
Qed.

Lemma writes_only_users id w w' : users w' = users w -> writes_only id w w'.
Proof. intros H id' _. now rewrite H. Qed.

Lemma writes_only_unlinkSync id x : keeps (writes_only id) (unlinkSync x).
Proof.
  intros w. apply writes_only_users. unfold unlinkSync.
  destruct x as [p|]; [destruct (bool_decide (p ∈ disk w))|]; reflexivity.
Qed.

Lemma writes_only_uploader_upload id p :
  keeps (writes_only id) (uploader_upload ext p).
Proof.
  intros w. apply writes_only_users. unfold uploader_upload.
  now destruct (cloudinary_upload ext w p).
Qed.

Lemma writes_only_uploader_destroy id i :
  keeps (writes_only id) (uploader_destroy ext i).
Proof.
  intros w. apply writes_only_users. unfold uploader_destroy.
  now destruct (cloudinary_destroy ext w i).
Qed.

Lemma writes_only_save id doc paths :
  _id doc = id -> keeps (writes_only id) (save ext doc paths).
Proof.
  intros Hdoc w. unfold save.
  destruct (List.find _ (users w)) as [stored|] eqn:Hf; simpl;
    [|now apply writes_only_users].
  intros id' Hne. simpl. rewrite Hdoc. apply find_replace_doc_ne; [|exact Hne].
  destruct (write_modified_keeps paths (pre_save ext paths doc) stored)
    as (Hid & _).
  rewrite Hid, <- Hdoc. now apply find_id_eq with (us := users w).
Qed.

Lemma writes_only_findByIdAndUpdate id upd :
  keeps (writes_only id) (findByIdAndUpdate ext id upd).
Proof.
  intros w. unfold findByIdAndUpdate.
  destruct (List.find _ (users w)) as [stored|] eqn:Hf; simpl;
    [|now apply writes_only_users].
  destruct (existsb _ (users w)); simpl; [now apply writes_only_users|].
  intros id' Hne. simpl. apply find_replace_doc_ne; [|exact Hne].
  rewrite fold_apply_set_id. now apply find_id_eq with (us := users w).
Qed.

End WritesOnly.

Create HintDb keeps discriminated.

#[global] Hint Resolve silent_findById silent_findOne_or silent_verify
  silent_generateAccessToken silent_generateRefreshToken
  silent_isPasswordCorrect silent_validator_call silent_avatarLocalPath
  silent_some_blank : keeps.

#[global] Hint Resolve evolves_unlinkSync evolves_uploader_upload
  evolves_uploader_destroy evolves_create evolves_save : keeps.

#[global] Hint Resolve writes_only_unlinkSync writes_only_uploader_upload
  writes_only_uploader_destroy writes_only_findByIdAndUpdate : keeps.

(** Walks through a computation written with [let*], [try_catch] and
    case distinctions down to the calls of the store and of the
    libraries. *)
Ltac keeps_auto :=
  repeat first
    [ apply keeps_ret; apply _
    | apply keeps_throw; apply _
    | solve [auto with keeps]
    | apply keeps_silent; [apply _ | solve [auto with keeps]]
    | apply evolves_findByIdAndUpdate;
      [intros ?; unfold castUpdate; destruct (omitUndefined _); reflexivity]
    | apply keeps_bind; [apply _ | | intros ?]
    | apply keeps_try_catch; [apply _ | | intros ?]
    | match goal with
      | |- keeps _ (match ?x with _ => _ end) => destruct x
      end
    | progress cbv zeta ].

Section ControllerSteps.

Variable ext : Collaborators.

Lemma evolves_uploadOnCloudinary x :
  keeps (evolves ext) (uploadOnCloudinary ext x).
Proof. unfold uploadOnCloudinary. keeps_auto. Qed.

Lemma evolves_deleteOnCloudinary x :
  keeps (evolves ext) (deleteOnCloudinary ext x).
Proof. unfold deleteOnCloudinary. keeps_auto. Qed.

Lemma evolves_findById_select i excluded :
  keeps (evolves ext) (findById_select i excluded).
Proof. unfold findById_select. keeps_auto. Qed.

Lemma evolves_generateAccessAndRefreshTokens id :
  keeps (evolves ext) (generateAccessAndRefreshTokens ext id).
Proof. unfold generateAccessAndRefreshTokens. keeps_auto. Qed.

Hint Resolve evolves_uploadOnCloudinary evolves_deleteOnCloudinary
  evolves_findById_select evolves_generateAccessAndRefreshTokens : keeps.

Lemma evolves_registerUser req : keeps (evolves ext) (registerUser ext req).
Proof. unfold registerUser. keeps_auto. Qed.

Lemma evolves_loginUser req : keeps (evolves ext) (loginUser ext req).
Proof. unfold loginUser, login_lookup, any_field_blank. keeps_auto. Qed.

Lemma evolves_logoutUser req : keeps (evolves ext) (logoutUser ext req).
Proof. unfold logoutUser. keeps_auto. Qed.

Lemma evolves_refreshAccessToken req :
  keeps (evolves ext) (refreshAccessToken ext req).
Proof. unfold refreshAccessToken. keeps_auto. Qed.

Lemma evolves_changeCurrentPassword req :
  keeps (evolves ext) (changeCurrentPassword ext req).
Proof. unfold changeCurrentPassword. keeps_auto. Qed.

Lemma evolves_updateUserDetails req :
  keeps (evolves ext) (updateUserDetails ext req).
Proof. unfold updateUserDetails. keeps_auto. Qed.

Lemma evolves_updateUserAvatar req :
  keeps (evolves ext) (updateUserAvatar ext req).
Proof. unfold updateUserAvatar. keeps_auto. Qed.

Lemma evolves_updateUserCoverImage req :
  keeps (evolves ext) (updateUserCoverImage ext req).
Proof. unfold updateUserCoverImage. keeps_auto. Qed.

(** Every controller of the router changes the world by steps. *)
Lemma handle_evolves c w : evolves ext w (snd (handle ext c w)).
Proof.
  destruct c; simpl.
  - apply evolves_registerUser.
  - apply evolves_loginUser.
  - apply evolves_logoutUser.
  - apply evolves_refreshAccessToken.
  - apply evolves_changeCurrentPassword.
  - apply evolves_updateUserDetails.
  - apply evolves_updateUserAvatar.
  - apply evolves_updateUserCoverImage.
Qed.

(** The controllers of the secured routes, for the caller's id. *)
Lemma writes_only_uploadOnCloudinary id x :
  keeps (writes_only id) (uploadOnCloudinary ext x).
Proof. unfold uploadOnCloudinary. keeps_auto. Qed.

Lemma writes_only_deleteOnCloudinary id x :
  keeps (writes_only id) (deleteOnCloudinary ext x).
Proof. unfold deleteOnCloudinary. keeps_auto. Qed.

Hint Resolve writes_only_uploadOnCloudinary writes_only_deleteOnCloudinary
  : keeps.

Lemma writes_only_changeCurrentPassword req :
  keeps (writes_only (_id (auth_user req))) (changeCurrentPassword ext req).
Proof.
  unfold changeCurrentPassword. apply keeps_bind_findById.
  intros [user|] Hid; [|apply keeps_throw; apply _].
  specialize (Hid user eq_refl). keeps_auto.
  now apply writes_only_save.
Qed.

Lemma handle_writes_only c u w :
  caller c = Some u -> writes_only (_id u) w (snd (handle ext c w)).
Proof.
  destruct c as [req|req|req|req|req|req|req|req]; intros [= <-]; simpl.
  - unfold logoutUser.
    assert (keeps (writes_only (_id (auth_user req)))
              (findByIdAndUpdate ext (_id (auth_user req))
                 [Set_refreshToken None] ;;;
               ret (mkResponse 200 [] ["accessToken"; "refreshToken"]
                      (mkApiResponse 200 D_empty
                         "user logged out successfully."))))
      as H by keeps_auto.
    apply H.
  - apply writes_only_changeCurrentPassword.
  - assert (keeps (writes_only (_id (auth_user req)))
              (updateUserDetails ext req)) as H
      by (unfold updateUserDetails; keeps_auto).
    apply H.
  - assert (keeps (writes_only (_id (auth_user req)))
              (updateUserAvatar ext req)) as H
      by (unfold updateUserAvatar; keeps_auto).
    apply H.
  - assert (keeps (writes_only (_id (auth_user req)))
              (updateUserCoverImage ext req)) as H
      by (unfold updateUserCoverImage; keeps_auto).
    apply H.
Qed.

End ControllerSteps.

Section StoreInvariants.

Variable ext : Collaborators.

Lemma replace_doc_fmap {B} (f : User -> B) id stored d us :
  List.find (fun u => (_id u =? id)%nat) us = Some stored ->
  f d = f stored ->
  f <$> replace_doc id d us = f <$> us.
Proof.
  intros Hf Hd. induction us as [|u r IH]; [reflexivity|].
  cbn [replace_doc List.find] in *. destruct (_id u =? id)%nat.
  - injection Hf as ->. rewrite !fmap_cons. now rewrite Hd.
  - rewrite !fmap_cons. now rewrite IH.
Qed.

Lemma elem_of_replace_doc id d us x :
  x ∈ replace_doc id d us -> x = d \/ x ∈ us.
Proof.
  induction us as [|u r IH]; [intros H; now right|].
  cbn [replace_doc]. destruct (_id u =? id)%nat; rewrite !elem_of_cons.
  - intros [-> | H]; [now left | right; now right].
  - intros [-> | H]; [right; now left|].
    destruct (IH H) as [-> | H']; [now left | right; now right].
Qed.

Lemma Forall_replace_doc (P : User -> Prop) id d us :
  Forall P us -> P d -> Forall P (replace_doc id d us).
Proof.
  intros Hus Hd. apply Forall_forall. intros x Hx.
  apply elem_of_replace_doc in Hx as [-> | Hx]; [exact Hd|].
  now apply (proj1 (Forall_forall P us) Hus).
Qed.

Lemma fresh_id_not_stored us : fresh_id us ∉ _id <$> us.
Proof.
  intros Hin. apply list_elem_of_fmap in Hin as (u & Hid & Hu).
  apply list_elem_of_In, id_le_list_max in Hu.
  unfold fresh_id in Hid. lia.
Qed.

(** A changed email keeps the emails distinct when ids are. *)
Lemma replace_doc_emails id d us :
  NoDup (_id <$> us) -> NoDup (email <$> us) ->
  Forall (fun u => _id u = id \/ email u <> email d) us ->
  NoDup (email <$> replace_doc id d us).
Proof.
  induction us as [|u r IH]; [constructor|].
  cbn [replace_doc]. rewrite !fmap_cons, !NoDup_cons, Forall_cons.
  intros [Hid Hids] [Hem Hems] [Hu Hr].
  destruct (Nat.eqb_spec (_id u) id) as [Heq | Hne].
  - rewrite fmap_cons, NoDup_cons. split; [|exact Hems].
    intros Hin. apply list_elem_of_fmap in Hin as (v & Hv & Hvr).
    apply (proj1 (Forall_forall _ r) Hr) in Hvr as Hv'.
    destruct Hv' as [Hv' | Hv']; [|congruence].
    apply Hid. apply list_elem_of_fmap. exists v. split; [congruence | exact Hvr].
  - rewrite fmap_cons, NoDup_cons. split; [|now apply IH].
    intros Hin. apply list_elem_of_fmap in Hin as (v & Hv & Hvr).
    apply elem_of_replace_doc in Hvr as [-> | Hvr].
    + destruct Hu as [Hu | Hu]; [contradiction | congruence].
    + apply Hem. apply list_elem_of_fmap. now exists v.
Qed.

(** A store step keeps every record, its id and its username. *)
Lemma store_step_keys us us' :
  store_step ext us us' ->
  exists extra,
    (fun u => (_id u, username u)) <$> us'
    = (((fun u => (_id u, username u)) <$> us) ++ extra)%list.
Proof.
  intros [d Hid Hnew Hh Hc | stored d Hf Hun Hem Hfn Hpw].
  - exists [(_id d, username d)]. now rewrite fmap_app.
  - exists []. rewrite app_nil_r.
    apply replace_doc_fmap with (stored := stored); [exact Hf|].
    apply find_id_eq in Hf. congruence.
Qed.

Lemma store_step_unique us us' :
  store_step ext us us' -> unique_keys us -> unique_keys us'.
Proof.
  intros [d Hid Hnew Hh Hc | stored d Hf Hun Hem Hfn Hpw] (Ni & Nu & Ne).
  - unfold unique_keys. rewrite !fmap_app, !NoDup_app. simpl.
    assert (Hsingle : forall (A : Type) (a : A), NoDup [a])
      by (intros A a; apply NoDup_singleton).
    split; [|split].
    + split; [exact Ni|]. split; [|apply Hsingle].
      intros x Hx. rewrite list_elem_of_singleton. intros ->.
      rewrite Hid in Hx. now apply fresh_id_not_stored in Hx.
    + split; [exact Nu|]. split; [|apply Hsingle].
      intros x Hx. rewrite list_elem_of_singleton. intros ->.
      apply list_elem_of_fmap in Hx as (v & Hv & Hvin).
      apply (proj1 (Forall_forall _ us) Hnew) in Hvin as [H1 _]. congruence.
    + split; [exact Ne|]. split; [|apply Hsingle].
      intros x Hx. rewrite list_elem_of_singleton. intros ->.
      apply list_elem_of_fmap in Hx as (v & Hv & Hvin).
      apply (proj1 (Forall_forall _ us) Hnew) in Hvin as [_ H2]. congruence.
  - pose proof (find_id_eq _ _ _ Hf) as Hid.
    split; [|split].
    + rewrite (replace_doc_fmap _id _ stored d us Hf); [exact Ni | congruence].
    + now rewrite (replace_doc_fmap username _ stored d us Hf).
    + destruct Hem as [Hem | [_ Hem]].
      * now rewrite (replace_doc_fmap email _ stored d us Hf).
      * now apply replace_doc_emails.
Qed.

Lemma store_step_hashed us us' :
  store_step ext us us' -> Forall (hashed ext) us -> Forall (hashed ext) us'.
Proof.
  intros [d Hid Hnew Hh Hc | stored d Hf Hun Hem Hfn Hpw] Hall.
  - apply Forall_app. split; [exact Hall | now constructor].
  - apply Forall_replace_doc; [exact Hall|].
    destruct Hpw as [Hpw | Hpw]; [|exact Hpw].
    apply find_some in Hf as [Hin _]. apply list_elem_of_In in Hin.
    destruct (proj1 (Forall_forall _ us) Hall stored Hin) as [plain Hp].
    exists plain. congruence.
Qed.

Lemma store_step_canonical us us' :
  store_step ext us us' -> Forall canonical us -> Forall canonical us'.
Proof.
  intros [d Hid Hnew Hh Hc | stored d Hf Hun Hem Hfn Hpw] Hall.
  - apply Forall_app. split; [exact Hall | now constructor].
  - apply Forall_replace_doc; [exact Hall|].
    apply find_some in Hf as [Hin _]. apply list_elem_of_In in Hin.
    destruct (proj1 (Forall_forall _ us) Hall stored Hin) as (C1 & C2 & C3).
    split; [congruence|]. split.
    + destruct Hem as [Hem | [Hem _]]; congruence.
    + destruct Hfn as [Hfn | Hfn]; congruence.
Qed.

(** What is kept by every store step is kept along a history. *)
Lemma reachable_ind_store (P : list User -> Prop) w w' :
  (forall us us', store_step ext us us' -> P us -> P us') ->
  reachable ext w w' -> P (users w) -> P (users w').
Proof.
  intros Hstep Hreach Hw.
  induction Hreach as [|w1 c r w2 _ IH Hcall|w1 w2 _ IH Henv].
  - exact Hw.
  - pose proof (handle_evolves ext c w1) as (_ & _ & _ & Hs).
    rewrite Hcall in Hs. simpl in Hs.
    induction Hs as [|us1 us2 us3 H12 _ IH']; [exact IH|].
    apply IH'. now apply (Hstep us1 us2).
  - now rewrite Henv.
Qed.

End StoreInvariants.

Lemma reachable_run ext cs w : reachable ext w (run ext cs w).
Proof.
  assert (H : forall w0 w1, reachable ext w0 w1 ->
                            reachable ext w0 (run ext cs w1)).
  { induction cs as [|c r IH]; intros w0 w1 Hr; simpl; [exact Hr|].
    apply IH. eapply reachable_call; [exact Hr | apply surjective_pairing]. }
  apply H. constructor.
Qed.

(** X21. Along any sequence of requests no record is removed from the
    collection, none changes place, and none changes its [_id] or its
    [username]: the ids and usernames of the old collection are a
    prefix of those of the new one. *)
Theorem records_are_never_removed_or_renamed
    (ext : Collaborators) (w w' : World) :
  reachable ext w w' ->
  exists extra,
    (fun u => (_id u, username u)) <$> users w'
    = (((fun u => (_id u, username u)) <$> users w) ++ extra)%list.
Proof.
  intros Hreach.
  apply (reachable_ind_store ext
           (fun us =>
              exists extra,
                (fun u => (_id u, username u)) <$> us
                = (((fun u => (_id u, username u)) <$> users w) ++ extra)%list)
           w w'); [|exact Hreach|].
  - intros us us' Hstep [extra Hus].
    apply store_step_keys in Hstep as [more Hmore].
    exists (extra ++ more)%list. now rewrite Hmore, Hus, app_assoc.
  - exists []. now rewrite app_nil_r.
Qed.

Lemma records_are_never_removed_or_renamed_run :
  exists extra,
    (fun u => (_id u, username u)) <$> users (run Demo.ext history Demo.world)
    = ([(1, "annlee"); (2, "bob")] ++ extra)%list.
Proof.
  apply (records_are_never_removed_or_renamed Demo.ext Demo.world
           (run Demo.ext history Demo.world)).
  apply reachable_run.
Defined.

(** X22. When the ids, the usernames and the emails of the collection
    are pairwise distinct, they stay so along any sequence of requests:
    [create] takes a fresh id and is refused by the unique indexes, and
    an update of the email is refused when another record holds it. *)
Theorem unique_keys_are_kept (ext : Collaborators) (w w' : World) :
  unique_keys (users w) -> reachable ext w w' -> unique_keys (users w').
Proof.
  intros Hkeys Hreach.
  apply (reachable_ind_store ext unique_keys w w'); [|exact Hreach|exact Hkeys].
  intros us us' Hstep Hus. exact (store_step_unique ext us us' Hstep Hus).
Qed.

Lemma unique_keys_are_kept_run :
  unique_keys (users (run Demo.ext history Demo.world)).
Proof.
  apply (unique_keys_are_kept Demo.ext Demo.world).
  - repeat split; apply (bool_decide_unpack _); vm_compute; exact I.
  - apply reachable_run.
Defined.

(** X23. When every stored password is a bcrypt hash of cost 10 of
    some string, this stays so along any sequence of requests: a
    password is written by [create] and [save] only, and both hash it
    in the [pre("save")] hook. *)
Theorem passwords_stay_hashed (ext : Collaborators) (w w' : World) :
  Forall (hashed ext) (users w) -> reachable ext w w' ->
  Forall (hashed ext) (users w').
Proof.
  intros Hall Hreach.
  apply (reachable_ind_store ext (Forall (hashed ext)) w w');
    [|exact Hreach|exact Hall].
  intros us us' Hstep Hus. exact (store_step_hashed ext us us' Hstep Hus).
Qed.

Lemma passwords_stay_hashed_run :
  Forall (hashed Demo.ext) (users (run Demo.ext history Demo.world)).
Proof.
  apply (passwords_stay_hashed Demo.ext Demo.world).
  - constructor; [now exists "secret123"|].
    constructor; [now exists "hunter2"|]. constructor.
  - apply reachable_run.
Defined.

(** X24. When every stored [username] and [email] is trimmed and in
    lower case and every [fullName] trimmed, this stays so along any
    sequence of requests: the setters of the schema run on [create]
    and on the update of the details alike. *)
Theorem stored_names_stay_canonical (ext : Collaborators) (w w' : World) :
  Forall canonical (users w) -> reachable ext w w' ->
  Forall canonical (users w').
Proof.
  intros Hall Hreach.
  apply (reachable_ind_store ext (Forall canonical) w w');
    [|exact Hreach|exact Hall].
  intros us us' Hstep Hus. exact (store_step_canonical ext us us' Hstep Hus).
Qed.

Lemma stored_names_stay_canonical_run :
  Forall canonical (users (run Demo.ext history Demo.world)).
Proof.
  apply (stored_names_stay_canonical Demo.ext Demo.world).
  - constructor; [now repeat split|].
    constructor; [now repeat split|]. constructor.
  - apply reachable_run.
Defined.

(** X25. No controller creates a file on the local disk or moves the
    clock, and the calls that it makes are appended to those made
    before. *)
Theorem controllers_only_remove_files
    (ext : Collaborators) (c : Call) (w : World) :
  let w' := snd (handle ext c w) in
  now w' = now w /\ disk w' ⊆ disk w /\
  exists evs, trace w' = (trace w ++ evs)%list.
Proof.
  intros w'. destruct (handle_evolves ext c w) as (Hnow & Hdisk & Htrace & _).
  split; [exact Hnow|]. split; [exact Hdisk | exact Htrace].
Qed.

(** ** From registration to login *)

Section RoundTrip.

Variable ext : Collaborators.

Lemma find_app_last {A} (f : A -> bool) (l : list A) (x : A) :
  List.find f l = None -> f x = true -> List.find f (l ++ [x]) = Some x.
Proof.
  intros Hl Hx. induction l as [|a r IH]; simpl in *; [now rewrite Hx|].
  destruct (f a); [discriminate | now apply IH].
Qed.

Lemma existsb_blank_false (fields : list (option string)) s :
  existsb Js.blank fields = false -> In (Some s) fields -> Js.trim s <> "".
Proof.
  intros Hall Hin Hs.
  assert (existsb Js.blank fields = true) as Hex; [|congruence].
  apply existsb_exists. exists (Some s). split; [exact Hin|].
  simpl. rewrite Hs. reflexivity.
Qed.

(** What a registration that answers has checked and stored. *)
Lemma registerUser_inv req w resp w' :
  registerUser ext req w = (Normal resp, w') ->
  exists em un pw user,
    body_email (req_body req) = Some em /\
    body_username (req_body req) = Some un /\
    body_password (req_body req) = Some pw /\
    Js.trim un <> "" /\ Js.trim pw <> "" /\
    validator_isLowercase ext un = true /\
    List.find (fun u => matches (Some un) (username u)
                        || matches (Some em) (email u)) (users w) = None /\
    users w' = (users w ++ [user])%list /\
    _id user = fresh_id (users w) /\
    username user = Js.toLowerCase (Js.trim un) /\
    password user = bcrypt_hash ext pw 10.
Proof.
  intros Hrun. unfold registerUser in Hrun.
  destruct (existsb Js.blank _) eqn:Hblank; [discriminate|].
  apply bind_inv_normal in Hrun as (isEmail & w1 & Hw1 & Hrun).
  pose proof (validator_call_world _ _ _ _ _ Hw1) as ->.
  destruct (body_email (req_body req)) as [em|] eqn:Hem; [|discriminate].
  clear Hw1. destruct (negb isEmail); [discriminate|].
  apply bind_inv_normal in Hrun as (isLowercase & w2 & Hw2 & Hrun).
  pose proof (validator_call_world _ _ _ _ _ Hw2) as ->.
  destruct (body_username (req_body req)) as [un|] eqn:Hun; [|discriminate].
  unfold validator_call, ret in Hw2. injection Hw2 as <-.
  destruct (validator_isLowercase ext un) eqn:Vun; [|discriminate].
  cbn [negb] in Hrun.
  apply bind_inv_normal in Hrun as (existedUser & w3 & Hw3 & Hrun).
  unfold findOne_or in Hw3. injection Hw3 as <- <-.
  destruct (List.find _ (users w)) eqn:Hfind; [discriminate|].
  apply bind_inv_normal in Hrun as (avatarPath & w4 & Hw4 & Hrun).
  apply avatarLocalPath_world in Hw4 as ->.
  destruct (negb (Js.truthy avatarPath)); [discriminate|].
  apply bind_inv_normal in Hrun as (avatar & w5 & Hw5 & Hrun).
  apply uploadOnCloudinary_effect in Hw5 as [Hu5 _].
  apply bind_inv_normal in Hrun as (coverImage & w6 & Hw6 & Hrun).
  apply uploadOnCloudinary_effect in Hw6 as [Hu6 _].
  destruct avatar as [avatar|]; [|discriminate].
  apply bind_inv_normal in Hrun as (user & w7 & Hcreate & Hrun).
  apply create_inv_doc in Hcreate
    as (fn & em' & pw & _ & _ & Hpw & Hdoc & _ & Hw7).
  cbn [new_password new_username default id] in Hpw, Hdoc.
  apply bind_inv_normal in Hrun as (createdUser & w8 & Hsel & Hrun).
  apply findById_select_world in Hsel as ->.
  destruct createdUser; [|discriminate].
  unfold ret in Hrun. injection Hrun as _ <-.
  exists em, un, pw, user.
  split; [reflexivity|]. split; [reflexivity|]. split; [exact Hpw|].
  split; [apply (existsb_blank_false _ un Hblank); simpl; tauto|].
  split; [apply (existsb_blank_false _ pw Hblank); rewrite Hpw; simpl; tauto|].
  split; [exact Vun|]. split; [exact Hfind|].
  split; [rewrite Hw7; simpl; now rewrite Hu6, Hu5|].
  rewrite Hdoc. cbn [_id username password]. rewrite Hu6, Hu5.
  split; [reflexivity|].
  split; [now rewrite toLowerCase_trim, toLowerCase_idem | reflexivity].
Qed.

End RoundTrip.

(** X26. A user who has just registered can log in: when the username
    was submitted trimmed and in lower case and bcrypt's [compare]
    accepts the hash that [hash] made of the same password, a login by
    that username and password on the world that the registration left
    answers 200, sets both cookies to tokens signed for the new record,
    and stores the refresh token on it. *)
Theorem registered_user_can_log_in
    (ext : Collaborators) (req login : Request) (w w1 : World)
    (resp : Response) (un plain : string) :
  registerUser ext req w = (Normal resp, w1) ->
  body_username (req_body req) = Some un ->
  body_password (req_body req) = Some plain ->
  Js.toLowerCase (Js.trim un) = un ->
  bcrypt_compare ext plain (bcrypt_hash ext plain 10) = true ->
  body_username (req_body login) = Some un ->
  body_email (req_body login) = None ->
  body_password (req_body login) = Some plain ->
  exists resp' w2 user,
    loginUser ext login w1 = (Normal resp', w2) /\
    status resp' = 200%Z /\
    users w1 = (users w ++ [user])%list /\
    username user = un /\
    cookie resp'
    = [("accessToken", Some (signAccessToken ext (now w1) user));
       ("refreshToken", Some (signRefreshToken ext (now w1) user))] /\
    findById (Some (_id user)) w2
    = (Normal (Some (set_refreshToken
                       (Some (signRefreshToken ext (now w1) user)) user)), w2).
Proof.
  intros Hreg Hun Hpw Hcanon Hbcrypt Lun Lem Lpw.
  apply registerUser_inv in Hreg
    as (em & un' & pw & user & _ & Hun' & Hpw' & Tun & Tpw & Vun & Hnone
        & Husers & Hid & Hname & Hhash).
  rewrite Hun in Hun'. injection Hun' as <-.
  rewrite Hpw in Hpw'. injection Hpw' as <-.
  rewrite Hcanon in Hname.
  assert (Hfound : List.find
                     (fun u => matches (Some un) (username u)
                               || matches None (email u)) (users w1)
                   = Some user).
  { rewrite Husers. apply find_app_last.
    - apply find_none_fresh. apply Forall_forall. intros u Hu.
      apply list_elem_of_In in Hu. apply (find_none _ _ Hnone) in Hu.
      apply orb_false_iff in Hu as [Hu _]. now split.
    - simpl. rewrite Hname, String.eqb_refl. reflexivity. }
  assert (Hbyid : List.find (fun u => (_id u =? _id user)%nat) (users w1)
                  = Some user)
    by (rewrite Husers; now apply find_fresh).
  assert (Hnew : List.find (fun u => (_id u =? _id user)%nat)
                   (users (rotated ext user w1))
                 = Some (set_refreshToken
                           (Some (signRefreshToken ext (now w1) user)) user))
    by (simpl; now apply find_replace_doc with (s := user)).
  rewrite (loginUser_one_identifier ext login w1 un plain Lpw Tpw Tun)
    by (right; rewrite Lem; now repeat split).
  unfold login_lookup. rewrite Lun, Lem, Lpw.
  unfold bind at 1, findOne_or. rewrite Hfound.
  unfold isPasswordCorrect. unfold bind at 1, ret at 1.
  rewrite Hhash, Hbcrypt. cbn [negb].
  rewrite (bind_normal _ _ _ _ _
             (generateAccessAndRefreshTokens_found ext _ _ _ Hbyid)).
  unfold findById_select, bind, findById, ret. rewrite Hnew.
  do 3 eexists. split; [reflexivity|]. split; [reflexivity|].
  split; [exact Husers|]. split; [exact Hname|]. split; [reflexivity|].
  now rewrite Hnew.
Qed.

Lemma registered_user_can_log_in_run :
  exists resp w1 resp' w2,
    registerUser Demo.ext (Demo.register_carol (Some Demo.avatar_only))
      Demo.world = (Normal resp, w1) /\
    loginUser Demo.ext (Demo.login_with (Some "carol") None (Some "secret123"))
      w1 = (Normal resp', w2) /\
    status resp' = 200%Z.
Proof.
  destruct (registerUser Demo.ext (Demo.register_carol (Some Demo.avatar_only))
              Demo.world) as [[resp|e] w1] eqn:Hreg;
    [|vm_compute in Hreg; discriminate Hreg].
  destruct (registered_user_can_log_in Demo.ext
              (Demo.register_carol (Some Demo.avatar_only))
              (Demo.login_with (Some "carol") None (Some "secret123"))
              Demo.world w1 resp "carol" "secret123" Hreg)
    as (resp' & w2 & user & Hlogin & Hstatus & _); try reflexivity.
  exists resp, w1, resp', w2. split; [reflexivity|].
  split; [exact Hlogin | exact Hstatus].
Defined.

(** X27. A secured route that writes ([logoutUser],
    [changeCurrentPassword], [updateUserDetails], [updateUserAvatar],
    [updateUserCoverImage]) leaves the record of every other user as it
    was: whatever the request holds, a lookup by another id gives the
    same document before and after. *)
Theorem secured_routes_write_only_the_callers_record
    (ext : Collaborators) (c : Call) (u : User) (w : World) (id' : nat) :
  caller c = Some u -> id' <> _id u ->
  List.find (fun v => (_id v =? id')%nat) (users (snd (handle ext c w)))
  = List.find (fun v => (_id v =? id')%nat) (users w).
Proof.
  intros Hcaller Hother.
  pose proof (handle_writes_only ext c u w Hcaller) as Honly.
  now apply Honly.
Qed.

Lemma secured_routes_write_only_the_callers_record_run :
  List.find (fun v => (_id v =? 2)%nat)
    (users (snd (changeCurrentPassword Demo.ext
                   (Scenario.change_password Demo.ann (Some "secret123")
                      (Some "pw2")) Demo.world)))
  = Some Demo.bob.
Proof.
  apply (secured_routes_write_only_the_callers_record Demo.ext
           (ChangePassword
              (Scenario.change_password Demo.ann (Some "secret123")
                 (Some "pw2"))) Demo.ann Demo.world 2).
  - reflexivity.
  - discriminate.
Defined.

(** X28. [logoutUser] cannot fail: whatever the request, also when the
    caller's record is gone, it answers 200 and clears both cookies,
    since an update of [refreshToken] alone is never refused by the
    unique index. *)
Theorem logout_always_answers
    (ext : Collaborators) (req : AuthRequest) (w : World) :
  fst (logoutUser ext req w)
  = Normal (mkResponse 200 [] ["accessToken"; "refreshToken"]
              (mkApiResponse 200 D_empty "user logged out successfully.")).
Proof.
  assert (Hnone : sets_email (castUpdate ext [Set_refreshToken None]) = None)
    by (unfold castUpdate; destruct (omitUndefined ext); reflexivity).
  unfold logoutUser, bind, findByIdAndUpdate.
  destruct (List.find _ (users w)) as [stored|]; [|reflexivity].
  rewrite Hnone, no_email_clash. reflexivity.
Qed.

(** ** Rotation of the refresh token *)

Section TokenKeptOut.

Variable ext : Collaborators.
Variable user : User.
Variable t : string.

#[global] Instance keeps_token_out_po : PreOrder (keeps_token_out ext user t).
Proof.
  split.
  - intros w. split; [reflexivity | tauto].
  - intros w1 w2 w3 [N1 H1] [N2 H2]. split; [congruence|].
    intros Hsign Habsent. apply H2; [now rewrite N1 | now apply H1].
Qed.

Lemma keeps_token_out_same w w' :
  users w' = users w -> now w' = now w -> keeps_token_out ext user t w w'.
Proof.
  intros Hu Hn. split; [exact Hn|]. intros _ Ha u. rewrite Hu. apply Ha.
Qed.

(** A document written in place of the stored one. *)
Lemma keeps_token_out_replace id d stored w :
  List.find (fun u => (_id u =? id)%nat) (users w) = Some stored ->
  _id d = id ->
  (id = _id user -> signRefreshToken ext (now w) user <> t ->
   refreshToken stored <> Some t -> refreshToken d <> Some t) ->
  keeps_token_out ext user t w
    (log (EvDbWrite id) (with_users (replace_doc id d (users w)) w)).
Proof.
  intros Hf Hd Hnew. split; [reflexivity|].
  intros Hsign Habsent u Hu. simpl in Hu.
  destruct (Nat.eq_dec id (_id user)) as [Heq | Hne].
  - rewrite <- Heq in Hu.
    rewrite (find_replace_doc id d stored (users w) Hd Hf) in Hu.
    injection Hu as <-. apply Hnew; [exact Heq | exact Hsign|].
    apply Habsent. now rewrite <- Heq.
  - rewrite find_replace_doc_ne in Hu; [now apply Habsent | exact Hd|].
    congruence.
Qed.

Lemma token_out_unlinkSync x : keeps (keeps_token_out ext user t) (unlinkSync x).
Proof.
  intros w. unfold unlinkSync.
  destruct x as [p|]; [destruct (bool_decide (p ∈ disk w))|];
    now apply keeps_token_out_same.
Qed.

Lemma token_out_uploader_upload p :
  keeps (keeps_token_out ext user t) (uploader_upload ext p).
Proof.
  intros w. unfold uploader_upload.
  destruct (cloudinary_upload ext w p); now apply keeps_token_out_same.
Qed.

Lemma token_out_uploader_destroy i :
  keeps (keeps_token_out ext user t) (uploader_destroy ext i).
Proof.
  intros w. unfold uploader_destroy.
  destruct (cloudinary_destroy ext w i); now apply keeps_token_out_same.
Qed.

Lemma find_snoc {A} (f : A -> bool) (l : list A) (x : A) :
  List.find f (l ++ [x])
  = match List.find f l with
    | Some y => Some y
    | None => if f x then Some x else None
    end.
Proof.
  induction l as [|a r IH]; simpl; [reflexivity|].
  destruct (f a); [reflexivity | exact IH].
Qed.

(** A new document holds no refresh token. *)
Lemma token_out_create f : keeps (keeps_token_out ext user t) (create ext f).
Proof.
  intros w. destruct (create ext f w) as [[u|e] w'] eqn:H; simpl.
  - apply create_inv_doc in H
      as (fn & em & pw & _ & _ & _ & Hdoc & _ & ->).
    split; [reflexivity|]. intros _ Habsent v Hv. simpl in Hv.
    rewrite find_snoc in Hv.
    destruct (List.find _ (users w)) as [y|] eqn:Hy.
    + injection Hv as <-. now apply Habsent.
    + destruct (_id u =? _id user)%nat; [|discriminate].
      injection Hv as <-. rewrite Hdoc. discriminate.
  - apply create_thrown_world in H as ->. reflexivity.
Qed.

(** [save] of the password alone. *)
Lemma token_out_save_password doc :
  keeps (keeps_token_out ext user t) (save ext doc ["password"]).
Proof.
  intros w. unfold save.
  destruct (List.find _ (users w)) as [stored|] eqn:Hf; simpl;
    [|reflexivity].
  apply keeps_token_out_replace with (stored := stored).
  - exact Hf.
  - simpl. now apply find_id_eq with (us := users w).
  - intros _ _ Hst. exact Hst.
Qed.

(** An update that leaves the refresh token, or clears it. *)
Lemma token_out_findByIdAndUpdate id upd :
  (forall stored,
      refreshToken stored <> Some t ->
      refreshToken (fold_left apply_set (castUpdate ext upd) stored)
      <> Some t) ->
  keeps (keeps_token_out ext user t) (findByIdAndUpdate ext id upd).
Proof.
  intros Hupd w. unfold findByIdAndUpdate.
  destruct (List.find _ (users w)) as [stored|] eqn:Hf; simpl;
    [|reflexivity].
  destruct (existsb _ (users w)); simpl; [reflexivity|].
  apply keeps_token_out_replace with (stored := stored).
  - exact Hf.
  - rewrite fold_apply_set_id. now apply find_id_eq with (us := users w).
  - intros _ _ Hst. now apply Hupd.
Qed.

(** The token that is signed depends on the record through its id
    only. *)
Lemma signRefreshToken_id time u v :
  _id u = _id v -> signRefreshToken ext time u = signRefreshToken ext time v.
Proof. intros H. unfold signRefreshToken. now rewrite H. Qed.

(** The one write of a refresh token: the token that is signed now. *)
Lemma token_out_generateAccessAndRefreshTokens id :
  keeps (keeps_token_out ext user t) (generateAccessAndRefreshTokens ext id).
Proof.
  intros w.
  destruct (List.find (fun u => (_id u =? id)%nat) (users w)) as [u|] eqn:Hf.
  - rewrite (generateAccessAndRefreshTokens_found ext id u w Hf).
    pose proof (find_id_eq _ _ _ Hf) as Hid. simpl. unfold rotated.
    apply keeps_token_out_replace with (stored := u).
    + now rewrite Hid.
    + reflexivity.
    + intros Hsame Hsign _. simpl. intros [= Hnew]. apply Hsign.
      rewrite <- Hnew. symmetry. now apply signRefreshToken_id.
  - rewrite (generateAccessAndRefreshTokens_missing ext id w Hf). reflexivity.
Qed.

Hint Resolve token_out_unlinkSync token_out_uploader_upload
  token_out_uploader_destroy token_out_create token_out_save_password
  token_out_generateAccessAndRefreshTokens : keeps.

Ltac token_out_auto :=
  repeat first
    [ apply keeps_ret; apply _
    | apply keeps_throw; apply _
    | solve [auto with keeps]
    | apply keeps_silent; [apply _ | solve [auto with keeps]]
    | apply token_out_findByIdAndUpdate;
      [intros ? ?; unfold castUpdate; destruct (omitUndefined _); simpl;
       first [assumption | discriminate]]
    | apply keeps_bind; [apply _ | | intros ?]
    | apply keeps_try_catch; [apply _ | | intros ?]
    | match goal with
      | |- keeps _ (match ?x with _ => _ end) => destruct x
      end
    | progress cbv zeta ].

Lemma token_out_uploadOnCloudinary x :
  keeps (keeps_token_out ext user t) (uploadOnCloudinary ext x).
Proof. unfold uploadOnCloudinary. token_out_auto. Qed.

Lemma token_out_deleteOnCloudinary x :
  keeps (keeps_token_out ext user t) (deleteOnCloudinary ext x).
Proof. unfold deleteOnCloudinary. token_out_auto. Qed.

Hint Resolve token_out_uploadOnCloudinary token_out_deleteOnCloudinary : keeps.

(** No controller brings the token back. *)
Lemma handle_keeps_token_out c w :
  keeps_token_out ext user t w (snd (handle ext c w)).
Proof.
  assert (H : keeps (keeps_token_out ext user t) (handle ext c)); [|apply H].
  destruct c; simpl.
  - unfold registerUser, findById_select. token_out_auto.
  - unfold loginUser, login_lookup, any_field_blank, findById_select.
    token_out_auto.
  - unfold logoutUser. token_out_auto.
  - unfold refreshAccessToken. token_out_auto.
  - unfold changeCurrentPassword. token_out_auto.
  - unfold updateUserDetails. token_out_auto.
  - unfold updateUserAvatar. token_out_auto.
  - unfold updateUserCoverImage. token_out_auto.
Qed.

(** Along requests handled at times whose signature differs from the
    token, the token stays off the record. *)
Lemma reachable_at_token_absent w1 w2 :
  reachable_at ext (fun time => signRefreshToken ext time user <> t) w1 w2 ->
  token_absent (_id user) t w1 -> token_absent (_id user) t w2.
Proof.
  intros Hhist Hw1.
  induction Hhist as [|w c r w' _ IH Hok Hcall|w w' _ IH Henv].
  - exact Hw1.
  - pose proof (handle_keeps_token_out c w) as [_ Hkeep].
    rewrite Hcall in Hkeep. simpl in Hkeep. now apply Hkeep.
  - intros u. rewrite Henv. apply IH.
Qed.

End TokenKeptOut.

(** C1. A refresh call whose token verifies and whose decoded id finds a
    user, but whose token is not the one stored on that user, throws an
    error with the status of an UnauthorizedError (401) and leaves the
    world as it was: no token is signed, written or returned.  After a
    successful rotation the record holds the token that was signed at
    the time of the call.  When that token differs from the previous
    one, the previous one is rejected with status 401, the world
    unchanged, by every refresh call that follows, whatever requests
    are handled in between, as long as these are handled at times at
    which signing for the user does not give the previous token
    again. *)
Theorem stale_refresh_token_rejected (ext : Collaborators) :
  (forall req w t decoded user,
      incomingRefreshToken req = Some t -> t <> "" ->
      jwt_verify ext (now w) t (REFRESH_TOKEN_SECRET ext) = inr decoded ->
      findById (claim_id decoded) w = (Normal (Some user), w) ->
      refreshToken user <> Some t ->
      refreshAccessToken ext req w
      = (Thrown (ApiError (class_status UnauthorizedError)
                   "refresh token is expired or used."), w))
  /\
  (forall req w t resp w1,
      incomingRefreshToken req = Some t ->
      refreshAccessToken ext req w = (Normal resp, w1) ->
      exists user,
        findById (Some (_id user)) w = (Normal (Some user), w) /\
        refreshToken user = Some t /\
        findById (Some (_id user)) w1
        = (Normal
             (Some (set_refreshToken
                      (Some (signRefreshToken ext (now w) user)) user)), w1) /\
        (signRefreshToken ext (now w) user <> t ->
         forall w2 req2,
           reachable_at ext (fun time => signRefreshToken ext time user <> t)
             w1 w2 ->
           incomingRefreshToken req2 = Some t ->
           exists msg,
             refreshAccessToken ext req2 w2
             = (Thrown (ApiError (class_status UnauthorizedError) msg), w2))).
Proof.
  split.
  - intros req w t decoded user. apply refreshAccessToken_mismatch.
  - intros req w t resp w1 Hin Hrun.
    destruct (refreshAccessToken_normal_inv ext _ _ _ _ Hrun)
      as (t' & decoded & user & Hin' & Ht & Hver & Hfind & Hstored).
    assert (t' = t) as -> by congruence.
    rewrite (refreshAccessToken_match ext _ _ _ _ _ Hin Ht Hver Hfind Hstored)
      in Hrun.
    injection Hrun as _ <-.
    pose proof Hfind as Hfind0.
    apply findById_found in Hfind0 as (i & Hi & Hfi).
    pose proof (find_id_eq _ _ _ Hfi) as Hid.
    assert (Hnew : List.find (fun u => (_id u =? _id user)%nat)
                     (users (rotated ext user w))
                   = Some (set_refreshToken
                             (Some (signRefreshToken ext (now w) user)) user)).
    { simpl. apply find_replace_doc with (s := user); [reflexivity|].
      now rewrite Hid. }
    exists user. split; [|split; [|split]].
    + unfold findById. now rewrite Hid, Hfi.
    + exact Hstored.
    + unfold findById. now rewrite Hnew.
    + intros Hfresh w2 req2 Hlater Hin2.
      assert (Habsent : token_absent (_id user) t (rotated ext user w)).
      { intros u Hu. rewrite Hnew in Hu. injection Hu as <-. simpl.
        intros [= Hsame]. now apply Hfresh. }
      pose proof (reachable_at_token_absent ext user t _ _ Hlater Habsent)
        as Habsent2.
      destruct (refreshAccessToken_not_stored ext req2 w2 (now w) w2 t decoded
                  (_id user) Hin2 Ht Hver ltac:(now rewrite Hid))
        as (msg & Hrun2 & _).
      * intros u2 Hu2. apply Habsent2. unfold findById in Hu2.
        now injection Hu2 as Hu2.
      * reflexivity.
      * now exists msg.
Qed.

Lemma stale_refresh_token_rejected_run :
  refreshAccessToken Demo.ext (Demo.refresh_with "R1.") Demo.world
    = (Thrown (ApiError 401 "refresh token is expired or used."), Demo.world)
  /\ exists resp w1,
      refreshAccessToken Demo.ext (Demo.refresh_with "R1.1") Demo.world
        = (Normal resp, w1) /\
      let w2 :=
        snd (loginUser Demo.ext
               (Demo.login_with (Some "annlee") None (Some "secret123")) w1) in
      exists msg,
        refreshAccessToken Demo.ext (Demo.refresh_with "R1.1") w2
          = (Thrown (ApiError 401 msg), w2).
Proof.
  destruct (stale_refresh_token_rejected Demo.ext) as [Hstale Hrotate].
  split.
  - apply (Hstale (Demo.refresh_with "R1.") Demo.world "R1."
             (mkPayload (Some 1) None None None) Demo.ann).
    + reflexivity.
    + discriminate.
    + reflexivity.
    + reflexivity.
    + discriminate.
  - destruct (refreshAccessToken Demo.ext (Demo.refresh_with "R1.1") Demo.world)
      as [[resp|e] w1] eqn:Hrun; [|vm_compute in Hrun; discriminate Hrun].
    exists resp, w1. split; [reflexivity|].
    destruct (Hrotate (Demo.refresh_with "R1.1") Demo.world "R1.1" resp w1
                eq_refl Hrun) as (user & Hfound & Hstored & Hnew & Hlater).
    assert (Hann : user = Demo.ann).
    { apply findById_found in Hfound as (n & [= <-] & Hfind).
      simpl in Hfind. destruct (_id user) as [|[|[|n]]]; simpl in Hfind;
        try discriminate Hfind; injection Hfind as <-;
        [reflexivity | discriminate Hstored]. }
    subst user.
    assert (Hnow : now w1 = 2)
      by (vm_compute in Hrun; now injection Hrun as _ <-).
    intros w2. apply Hlater.
    + vm_compute. discriminate.
    + eapply reachable_at_call
        with (c := Login
                     (Demo.login_with (Some "annlee") None (Some "secret123")));
        [apply reachable_at_here | | apply surjective_pairing].
      rewrite Hnow. vm_compute. discriminate.
    + reflexivity.
Defined.

(** Without that condition the previous token can survive a rotation,
    namely one made at the time at which it was signed: Ann logs in and
    receives the token "R1.11"; a refresh with it succeeds and stores
    the token signed for her at that same time, which is "R1.11" again;
    the previous token is then accepted once more. *)
Lemma previous_token_accepted_after_rotation :
  let login :=
    loginUser Demo.ext
      (Demo.login_with (Some "annlee") None (Some "secret123")) Demo.world in
  let rotation :=
    refreshAccessToken Demo.ext (Demo.refresh_with "R1.11") (snd login) in
  let again :=
    refreshAccessToken Demo.ext (Demo.refresh_with "R1.11") (snd rotation) in
  exists resp0 resp1 resp2,
    fst login = Normal resp0 /\
    cookie resp0
    = [("accessToken", Some "A1.11"); ("refreshToken", Some "R1.11")] /\
    fst rotation = Normal resp1 /\ status resp1 = 200%Z /\
    (refreshToken <$> List.find (fun u => (_id u =? 1)%nat)
                        (users (snd rotation))) = Some (Some "R1.11") /\
    fst again = Normal resp2 /\ status resp2 = 200%Z.
Proof.
  vm_compute. do 3 eexists.
  split; [reflexivity|]. split; [reflexivity|]. split; [reflexivity|].
  split; [reflexivity|]. split; [reflexivity|]. split; reflexivity.
Qed.
